(** * A finite-difference / RK4 integrator for the 1-D Schroedinger equation

    Shallow embedding of the [Wavefunction] class of the solver script
    ([__init__], [_setbcs], [deriv], [solve], [prob]) and of the helper
    [c_to_tup].

    Numbers.  The script computes with IEEE doubles; here every number is an
    exact rational in canonical form ([Qc]), so that [=] is the comparison the
    script's [==] idealises and the field laws are available.  Nothing below
    speaks about rounding error, and no number is an infinity or a NaN: where
    doubles overflow, underflow to zero or round a quotient across a tie, the
    script and the model part ways.  For the scalar lines of [__init__]
    this changes which exception is raised and which counts are computed
    (see there); for the array code it changes values only, and nothing
    is stated here that needs an exact cancellation to survive many passes
    of the loop of [solve].

    Arrays.  A one-dimensional numpy array is a [list Qc], a two-dimensional
    one a list of rows.  Python's index normalisation (negative indices,
    [IndexError]), slices, slice assignment and broadcasting of elementwise
    operations are written out.

    Effects.  Exceptions are the [Raise] results of [result]; the methods of
    the object run in the state-and-exception monad [M] over the record
    [Wavefunction]. *)

From Stdlib Require Import ZArith QArith Qcanon Qround.
From stdpp Require Import base tactics option list numbers.

Global Instance Qc_inhabited : Inhabited Qc := populate (Q2Qc 0).

Local Open Scope Qc_scope.

(** ** Exceptions *)

Inductive exn : Type := ZeroDivisionError | ValueError | IndexError.

Inductive result (A : Type) : Type :=
  | Ok (a : A)
  | Raise (e : exn).
Arguments Ok {A} a.
Arguments Raise {A} e.

Global Instance result_ret : MRet result := λ A a, Ok a.
Global Instance result_bind : MBind result := λ A B f m,
  match m with
  | Ok a => f a
  | Raise e => Raise e
  end.

(** ** Numbers *)

(** The literal [0.5]. *)
Definition half : Qc := Q2Qc (1 # 2).

(** Python's [a / b] on two scalars. *)
Definition py_div (a b : Qc) : result Qc :=
  if decide (b = 0) then Raise ZeroDivisionError else Ok (a / b).

(** Python's [round(q)]: nearest integer, ties to the even one. *)
Definition py_round (q : Qc) : Z :=
  let f := Qfloor q in
  let r := q - Qc_of_Z f in
  if decide (r < half) then f
  else if decide (half < r) then (f + 1)%Z
  else if Z.even f then f else (f + 1)%Z.

(** Complex scalars and [c_to_tup]. *)
Record complex : Type := Complex { creal : Qc; cimag : Qc }.

Definition c_to_tup (x : complex) : Qc * Qc := (creal x, cimag x).

(** ** Python indexing on lists *)

Definition py_index (n : nat) (k : Z) : result nat :=
  if decide (0 ≤ k < Z.of_nat n)%Z then Ok (Z.to_nat k)
  else if decide (- Z.of_nat n ≤ k < 0)%Z then Ok (Z.to_nat (Z.of_nat n + k))
  else Raise IndexError.

Definition getitem {A} (l : list A) (k : Z) : result A :=
  i ← py_index (length l) k;
  match l !! i with
  | Some a => Ok a
  | None => Raise IndexError
  end.

Definition setitem {A} (l : list A) (k : Z) (a : A) : result (list A) :=
  i ← py_index (length l) k;
  Ok (<[i := a]> l).

(** A slice bound: [None] is an omitted bound, negative bounds count from the
    end, and everything is clamped to [0..n]. *)
Definition slice_bound (n : nat) (dflt : nat) (b : option Z) : nat :=
  match b with
  | None => dflt
  | Some k => Z.to_nat (Z.min (Z.of_nat n)
                (Z.max 0 (if decide (k < 0)%Z then k + Z.of_nat n else k)))
  end.

Definition slice_start {A} (l : list A) (lo : option Z) : nat :=
  slice_bound (length l) 0 lo.
Definition slice_len {A} (l : list A) (lo hi : option Z) : nat :=
  (slice_bound (length l) (length l) hi - slice_start l lo)%nat.

(** [l[lo:hi]] *)
Definition py_slice {A} (lo hi : option Z) (l : list A) : list A :=
  take (slice_len l lo hi) (drop (slice_start l lo) l).

(** numpy broadcasting of a one-dimensional value [v] to length [m]. *)
Definition broadcast_to {A} (m : nat) (v : list A) : result (list A) :=
  if decide (length v = m) then Ok v
  else match v with
       | [a] => Ok (replicate m a)
       | _ => Raise ValueError
       end.

(** [l[lo:hi] = v] *)
Definition set_slice {A} (lo hi : option Z) (v : list A) (l : list A)
  : result (list A) :=
  let s := slice_start l lo in
  let m := slice_len l lo hi in
  v' ← broadcast_to m v;
  Ok (take s l ++ v' ++ drop (s + m) l).

(** ** Elementwise arithmetic on arrays *)

(** A binary elementwise operation; operands of different lengths raise
    [ValueError] unless one of them has length one. *)
Definition elementwise (f : Qc → Qc → Qc) (a b : list Qc) : result (list Qc) :=
  if decide (length a = length b) then Ok (zip_with f a b)
  else match a, b with
       | [a0], _ => Ok (f a0 <$> b)
       | _, [b0] => Ok ((λ u, f u b0) <$> a)
       | _, _ => Raise ValueError
       end.

Definition vadd : list Qc → list Qc → result (list Qc) := elementwise Qcplus.
Definition vsub : list Qc → list Qc → result (list Qc) := elementwise Qcminus.
(** [c * v], [v / c], [-v] and [v ** 2] with a scalar [c] *)
Definition vscale (c : Qc) (v : list Qc) : list Qc := Qcmult c <$> v.
Definition vdiv (v : list Qc) (c : Qc) : list Qc := (λ u, u / c) <$> v.
Definition vneg (v : list Qc) : list Qc := Qcopp <$> v.
Definition vsquare (v : list Qc) : list Qc := (λ u, u * u) <$> v.

(** [range(lo, hi)] *)
Definition py_range (lo hi : Z) : list Z :=
  (λ k : nat, (lo + Z.of_nat k)%Z) <$> seq 0 (Z.to_nat (hi - lo)).

Definition np_real (v : list complex) : list Qc := creal <$> v.
Definition np_imag (v : list complex) : list Qc := cimag <$> v.

(** [np.linspace(start, stop, num)] with the default [endpoint=True]. *)
Definition linspace (start stop : Qc) (num : Z) : result (list Qc) :=
  if decide (num < 0)%Z then Raise ValueError
  else
    let div := (num - 1)%Z in
    let delta := stop - start in
    let y := Qc_of_Z <$> py_range 0 num in
    let y := if decide (0 < div)%Z then vscale (delta / Qc_of_Z div) y
             else vscale delta y in
    let y := (λ u, u + start) <$> y in
    if decide (1 < num)%Z then setitem y (-1) stop else Ok y.

(** ** The object *)

Record Wavefunction : Type := mkWavefunction {
  dx2 : Qc;
  dt : Qc;
  mu : Qc;
  nx : Z;
  nt : Z;
  real : list (list Qc);
  imag : list (list Qc);
  shape : Z * Z;
  x : list Qc;
  t : list Qc;
  boundaries : complex * complex
}.

Definition set_real (self : Wavefunction) (v : list (list Qc)) : Wavefunction :=
  mkWavefunction (dx2 self) (dt self) (mu self) (nx self) (nt self)
    v (imag self) (shape self) (x self) (t self) (boundaries self).
Definition set_imag (self : Wavefunction) (v : list (list Qc)) : Wavefunction :=
  mkWavefunction (dx2 self) (dt self) (mu self) (nx self) (nt self)
    (real self) v (shape self) (x self) (t self) (boundaries self).

(** Methods that may assign to [self] or raise. *)
Definition M (A : Type) : Type := Wavefunction → result (A * Wavefunction).

(** [a[key, col] = v] on a two-dimensional array *)
Definition setitem2 (a : list (list Qc)) (key col : Z) (v : Qc)
  : result (list (list Qc)) :=
  row ← getitem a key;
  row' ← setitem row col v;
  setitem a key row'.

(** [a[key] = v] on a two-dimensional array: [v] is broadcast to the row. *)
Definition assign_row (a : list (list Qc)) (key : Z) (v : list Qc)
  : result (list (list Qc)) :=
  row ← getitem a key;
  v' ← broadcast_to (length row) v;
  setitem a key v'.

Definition default_xrange : Qc * Qc := (0, 1).
Definition default_trange : Qc * Qc := (0, 1).
Definition default_boundaries : complex * complex := (Complex 0 0, Complex 0 0).

Section Solver.

(** [np.empty] returns memory that was never written.  Its contents are the
    values of [junk], indexed by allocation site, row and column; every
    statement below holds for all [junk].  One [junk] serves every call
    that reaches a site, which two calls of the script do not share: a
    statement that relates two calls either gives each call a [junk] of its
    own or is about results that do not depend on [junk]. *)
Variable junk : nat → nat → nat → Qc.

Definition np_empty (site n : nat) : list Qc := junk site 0 <$> seq 0 n.

Definition np_empty2 (site : nat) (rows cols : Z) : result (list (list Qc)) :=
  if decide (rows < 0 ∨ cols < 0)%Z then Raise ValueError
  else Ok ((λ i, junk site i <$> seq 0 (Z.to_nat cols))
             <$> seq 0 (Z.to_nat rows)).

Definition np_empty_like (psi : list Qc) : list Qc := np_empty 2 (length psi).

(** *** [_setbcs] *)
Definition _setbcs (key : Z) : M unit := λ self,
  let '(re0, im0) := c_to_tup (boundaries self).1 in
  r ← setitem2 (real self) key 0 re0;
  let self := set_real self r in
  m ← setitem2 (imag self) key 0 im0;
  let self := set_imag self m in
  let '(re1, im1) := c_to_tup (boundaries self).2 in
  r ← setitem2 (real self) key (-1) re1;
  let self := set_real self r in
  m ← setitem2 (imag self) key (-1) im1;
  let self := set_imag self m in
  Ok ((), self).

(** *** [deriv]

    [df / self.dx2] is numpy's array division, which does not raise; the
    quotient by zero is not modelled, and [__init__] never builds an object
    with [dx2 = 0]. *)
Definition deriv (self : Wavefunction) (psi : list Qc) (order : Z)
    (dirichlet : bool) : result (list Qc) :=
  let df := np_empty_like psi in
  df ← (if decide (order = 2)%Z then
          (* df[1:-1] = (psi[2:] - 2*psi[1:-1] + psi[0:-2]) *)
          a ← vsub (py_slice (Some 2%Z) None psi)
                   (vscale 2 (py_slice (Some 1%Z) (Some (-1)%Z) psi));
          b ← vadd a (py_slice (Some 0%Z) (Some (-2)%Z) psi);
          set_slice (Some 1%Z) (Some (-1)%Z) b df
        else if decide (order = 4)%Z then
          (* df[2:-2] = (-psi[:-4] + 16*psi[1:-3] - 30 * psi[2:-2]
                         + 16*psi[3:-1] - psi[4:])/12 *)
          a ← vadd (vneg (py_slice None (Some (-4)%Z) psi))
                   (vscale (Qc_of_Z 16) (py_slice (Some 1%Z) (Some (-3)%Z) psi));
          b ← vsub a (vscale (Qc_of_Z 30) (py_slice (Some 2%Z) (Some (-2)%Z) psi));
          c ← vadd b (vscale (Qc_of_Z 16) (py_slice (Some 3%Z) (Some (-1)%Z) psi));
          d ← vsub c (py_slice (Some 4%Z) None psi);
          df ← set_slice (Some 2%Z) (Some (-2)%Z) (vdiv d (Qc_of_Z 12)) df;
          (* df[1] = psi[0] - 2*psi[1] + psi[2] *)
          p0 ← getitem psi 0; p1 ← getitem psi 1; p2 ← getitem psi 2;
          df ← setitem df 1 (p0 - 2 * p1 + p2);
          (* df[-2] = psi[-1] - 2*psi[-2] + psi[-3] *)
          q1 ← getitem psi (-1); q2 ← getitem psi (-2); q3 ← getitem psi (-3);
          setitem df (-2) (q1 - 2 * q2 + q3)
        else Ok df);
  df ← (if dirichlet then
          df ← setitem df 0 0;
          setitem df (-1) 0
        else
          (* df[0] = -1 * psi[0] + 4 * psi[1] - 5*psi[2] + 2 * psi[3] *)
          p0 ← getitem psi 0; p1 ← getitem psi 1;
          p2 ← getitem psi 2; p3 ← getitem psi 3;
          df ← setitem df 0
                 (-1 * p0 + Qc_of_Z 4 * p1 - Qc_of_Z 5 * p2 + 2 * p3);
          (* df[-1] = -1 * psi[-1] + 4 * psi[-2] - 5*psi[-3] + 2 * psi[-4] *)
          q1 ← getitem psi (-1); q2 ← getitem psi (-2);
          q3 ← getitem psi (-3); q4 ← getitem psi (-4);
          setitem df (-1)
            (-1 * q1 + Qc_of_Z 4 * q2 - Qc_of_Z 5 * q3 + 2 * q4));
  Ok (vdiv df (dx2 self)).

(** *** [__init__]

    The scalar lines are exact here.  On doubles [dx ** 2] can be zero for a
    non-zero [dx] (the division for [mu] then raises [ZeroDivisionError]) or
    overflow ([OverflowError]), and the quotient handed to [round] is
    rounded first, so that near a tie the script's count can differ from
    the exact one by one.  The statements about [__init__] are therefore
    made about the object it returns, or about arguments on which doubles
    are exact (a zero step, equal ends of a range, the steps of the
    examples). *)
Definition __init__ (initial : list Qc → list complex) (dx dt : Qc)
    (xrange trange : Qc * Qc) (boundaries : complex * complex)
  : result Wavefunction :=
  let dx2 := dx * dx in
  mu ← py_div dt (2 * (dx * dx));
  qx ← py_div (xrange.2 - xrange.1) dx;
  let nx := py_round qx in
  qt ← py_div (trange.2 - trange.1) dt;
  let nt := py_round qt in
  real ← np_empty2 0 nt nx;
  imag ← np_empty2 1 nt nx;
  let shape := (nt, nx) in
  x ← linspace xrange.1 xrange.2 nx;
  t ← linspace xrange.1 xrange.2 nt;
  let init := initial x in
  real ← assign_row real 0 (np_real init);
  imag ← assign_row imag 0 (np_imag init);
  let self := mkWavefunction dx2 dt mu nx nt real imag shape x t boundaries in
  '(_, self) ← _setbcs 0 self;
  Ok self.

(** *** [solve] *)

(** The coefficients [(1 / 6)] and [(1 / 3)]. *)
Definition sixth : Qc := 1 / Qc_of_Z 6.
Definition third : Qc := 1 / Qc_of_Z 3.

(** The local scratch arrays [kreal] and [kimag]. *)
Definition kbufs : Type := list (list Qc) * list (list Qc).

(** One pass through the body of the [for] loop, at loop index [i]. *)
Definition solve_body (i : Z) (k : kbufs) : M kbufs := λ self,
  let '(kreal, kimag) := k in
  (* kreal[0] = - 0.5 * self.deriv(self.imag[i]) *)
  im ← getitem (imag self) i;
  d ← deriv self im 4 true;
  kreal ← assign_row kreal 0 (vscale (- half) d);
  (* kimag[0] = 0.5 * self.deriv(self.real[i]) *)
  re ← getitem (real self) i;
  d ← deriv self re 4 true;
  kimag ← assign_row kimag 0 (vscale half d);
  (* kreal[1] = - 0.5 * self.deriv(self.imag[i] + self.dt * kreal[0]/2) *)
  im ← getitem (imag self) i;
  k0 ← getitem kreal 0;
  a ← vadd im (vdiv (vscale (dt self) k0) 2);
  d ← deriv self a 4 true;
  kreal ← assign_row kreal 1 (vscale (- half) d);
  (* kimag[1] = 0.5 * self.deriv(self.real[i] + self.dt * kimag[0]/2) *)
  re ← getitem (real self) i;
  k0 ← getitem kimag 0;
  a ← vadd re (vdiv (vscale (dt self) k0) 2);
  d ← deriv self a 4 true;
  kimag ← assign_row kimag 1 (vscale half d);
  (* kreal[2] = - 0.5 * self.deriv(self.imag[i] + self.dt * kreal[1]/2) *)
  im ← getitem (imag self) i;
  k1 ← getitem kreal 1;
  a ← vadd im (vdiv (vscale (dt self) k1) 2);
  d ← deriv self a 4 true;
  kreal ← assign_row kreal 2 (vscale (- half) d);
  (* kimag[2] = 0.5 * self.deriv(self.real[i] + self.dt * kimag[1]/2) *)
  re ← getitem (real self) i;
  k1 ← getitem kimag 1;
  a ← vadd re (vdiv (vscale (dt self) k1) 2);
  d ← deriv self a 4 true;
  kimag ← assign_row kimag 2 (vscale half d);
  (* kreal[3] = - 0.5 * self.deriv(self.imag[i] + self.dt * kreal[2]) *)
  im ← getitem (imag self) i;
  k2 ← getitem kreal 2;
  a ← vadd im (vscale (dt self) k2);
  d ← deriv self a 4 true;
  kreal ← assign_row kreal 3 (vscale (- half) d);
  (* kimag[3] = 0.5 * self.deriv(self.real[i] + self.dt * kimag[2]) *)
  re ← getitem (real self) i;
  k2 ← getitem kimag 2;
  a ← vadd re (vscale (dt self) k2);
  d ← deriv self a 4 true;
  kimag ← assign_row kimag 3 (vscale half d);
  (* self.real[i + 1] = self.real[i] + self.dt * ((1 / 6) * kreal[0]
       + (1 / 3) * kreal[1] + (1 / 3) * kreal[2] + (1 / 6) * kreal[3]) *)
  re ← getitem (real self) i;
  k0 ← getitem kreal 0; k1 ← getitem kreal 1;
  k2 ← getitem kreal 2; k3 ← getitem kreal 3;
  s ← vadd (vscale sixth k0) (vscale third k1);
  s ← vadd s (vscale third k2);
  s ← vadd s (vscale sixth k3);
  v ← vadd re (vscale (dt self) s);
  r ← assign_row (real self) (i + 1) v;
  let self := set_real self r in
  (* self.imag[i + 1] = self.imag[i] + self.dt * ((1 / 6) * kimag[0]
       + (1 / 3) * kimag[1] + (1 / 3) * kimag[2] + (1 / 6) * kimag[3]) *)
  im ← getitem (imag self) i;
  k0 ← getitem kimag 0; k1 ← getitem kimag 1;
  k2 ← getitem kimag 2; k3 ← getitem kimag 3;
  s ← vadd (vscale sixth k0) (vscale third k1);
  s ← vadd s (vscale third k2);
  s ← vadd s (vscale sixth k3);
  v ← vadd im (vscale (dt self) s);
  m ← assign_row (imag self) (i + 1) v;
  let self := set_imag self m in
  (* self._setbcs(i) *)
  '(_, self) ← _setbcs i self;
  Ok ((kreal, kimag), self).

(** [for i in idxs: body] *)
Fixpoint for_loop (body : Z → kbufs → M kbufs) (idxs : list Z) (k : kbufs)
  : M kbufs := λ self,
  match idxs with
  | [] => Ok (k, self)
  | i :: rest =>
      '(k', self') ← body i k self;
      for_loop body rest k' self'
  end.

Definition solve : M unit := λ self,
  kreal ← np_empty2 3 4 (nx self);
  kimag ← np_empty2 4 4 (nx self);
  '(_, self) ← for_loop solve_body (py_range 0 (nt self - 1)) (kreal, kimag) self;
  Ok ((), self).

(** *** [prob] *)
Definition prob (i : Z) : M (list Qc) := λ self,
  re ← getitem (real self) i;
  im ← getitem (imag self) i;
  p ← vadd (vsquare re) (vsquare im);
  Ok (p, self).

End Solver.

(** ** Closed forms

    The values the statements of [deriv] leave in [df] when [order = 4],
    [dirichlet = True] and [psi] has at least three samples; the evaluation
    lemma [deriv4_eval] below relates them to [deriv]. *)

(** Right-hand side of the assignment to [df[2:-2]]. *)
Definition stencil5 (psi : list Qc) : list Qc :=
  let m := (length psi - 4)%nat in
  zip_with Qcminus
    (zip_with Qcplus
       (zip_with Qcminus
          (zip_with Qcplus (vneg (take m psi))
             (vscale (Qc_of_Z 16) (take m (drop 1 psi))))
          (vscale (Qc_of_Z 30) (take m (drop 2 psi))))
       (vscale (Qc_of_Z 16) (take m (drop 3 psi))))
    (drop 4 psi).

(** [df] after the assignments to [df[2:-2]], [df[1]] and [df[-2]]. *)
Definition df_interior (df0 psi : list Qc) : list Qc :=
  let n := length psi in
  let df1 := take 2 df0 ++ vdiv (stencil5 psi) (Qc_of_Z 12)
             ++ drop (2 + (n - 4)) df0 in
  let df2 := <[1%nat := psi !!! 0%nat - 2 * psi !!! 1%nat + psi !!! 2%nat]> df1 in
  <[(n - 2)%nat := psi !!! (n - 1)%nat - 2 * psi !!! (n - 2)%nat
                   + psi !!! (n - 3)%nat]> df2.

(** [df] after the Dirichlet assignments to [df[0]] and [df[-1]]. *)
Definition df_dirichlet (df0 psi : list Qc) : list Qc :=
  <[(length psi - 1)%nat := 0]> (<[0%nat := 0]> (df_interior df0 psi)).

(** A row after [_setbcs]: first entry [b0], last entry [b1] (the last
    assignment wins on a row of one entry). *)
Definition pin_row (b0 b1 : Qc) (row : list Qc) : list Qc :=
  <[(length row - 1)%nat := b1]> (<[0%nat := b0]> row).

(** [self.deriv(psi)] as [solve] calls it (default [order] and [dirichlet]),
    in closed form. *)
Definition deriv4 (junk : nat → nat → nat → Qc) (self : Wavefunction)
    (psi : list Qc) : list Qc :=
  vdiv (df_dirichlet (np_empty_like junk psi) psi) (dx2 self).

(** Sum of two arrays of the same length. *)
Definition vplus : list Qc → list Qc → list Qc := zip_with Qcplus.

(** The four stage vectors and the new row, in the shape of the expressions
    of [solve]: [c] is [- 0.5] for [kreal] and [0.5] for [kimag], [u] is the
    row the derivative is taken of. *)
Section Stages.
Variable D : list Qc → list Qc.
Variable h : Qc.

Definition stage_first (c : Qc) (u : list Qc) : list Qc :=
  vscale c (D u).
Definition stage_half (c : Qc) (u k : list Qc) : list Qc :=
  vscale c (D (vplus u (vdiv (vscale h k) 2))).
Definition stage_full (c : Qc) (u k : list Qc) : list Qc :=
  vscale c (D (vplus u (vscale h k))).

Definition code_stages (c : Qc) (u : list Qc) : list (list Qc) :=
  let k0 := stage_first c u in
  let k1 := stage_half c u k0 in
  let k2 := stage_half c u k1 in
  let k3 := stage_full c u k2 in
  [k0; k1; k2; k3].

Definition weighted_sum (v k0 k1 k2 k3 : list Qc) : list Qc :=
  vplus v
    (vscale h
       (vplus (vplus (vplus (vscale sixth k0) (vscale third k1))
                 (vscale third k2))
          (vscale sixth k3))).

(** The row written to [v[i + 1]], where the stages were computed from [u]. *)
Definition code_next (c : Qc) (u v : list Qc) : list Qc :=
  let k0 := stage_first c u in
  let k1 := stage_half c u k0 in
  let k2 := stage_half c u k1 in
  let k3 := stage_full c u k2 in
  weighted_sum v k0 k1 k2 k3.

End Stages.

(** ** The advance step as the specification writes it

    [D] is the derivative operator; the stage vectors and the new rows follow
    the recurrence of the specification literally: half steps are
    [dt/2 * k], the update is [dt * (k0 + 2 k1 + 2 k2 + k3) / 6]. *)

Record rk4_step : Type := mk_rk4_step {
  k_real : list (list Qc);
  k_imag : list (list Qc);
  real_next : list Qc;
  imag_next : list Qc
}.

Definition spec_advance (D : list Qc → result (list Qc)) (dt : Qc)
    (real_i imag_i : list Qc) : result rk4_step :=
  d ← D imag_i; let kr0 := vscale (- half) d in
  d ← D real_i; let ki0 := vscale half d in
  d ← D (vplus imag_i (vscale (dt / 2) kr0)); let kr1 := vscale (- half) d in
  d ← D (vplus real_i (vscale (dt / 2) ki0)); let ki1 := vscale half d in
  d ← D (vplus imag_i (vscale (dt / 2) kr1)); let kr2 := vscale (- half) d in
  d ← D (vplus real_i (vscale (dt / 2) ki1)); let ki2 := vscale half d in
  d ← D (vplus imag_i (vscale dt kr2)); let kr3 := vscale (- half) d in
  d ← D (vplus real_i (vscale dt ki2)); let ki3 := vscale half d in
  Ok (mk_rk4_step [kr0; kr1; kr2; kr3] [ki0; ki1; ki2; ki3]
        (vplus real_i
           (vdiv (vscale dt (vplus (vplus (vplus kr0 (vscale 2 kr1))
                                      (vscale 2 kr2)) kr3))
              (Qc_of_Z 6)))
        (vplus imag_i
           (vdiv (vscale dt (vplus (vplus (vplus ki0 (vscale 2 ki1))
                                      (vscale 2 ki2)) ki3))
              (Qc_of_Z 6)))).

(** The array [np.empty([rows, cols])] returns for non-negative dimensions. *)
Definition empty2 (junk : nat → nat → nat → Qc) (site : nat) (rows cols : Z)
  : list (list Qc) :=
  (λ i, junk site i <$> seq 0 (Z.to_nat cols)) <$> seq 0 (Z.to_nat rows).

(** [int(round((range[1] - range[0])/(step)))] for a non-zero [step], on
    the exact quotient. *)
Definition grid_count (step : Qc) (range : Qc * Qc) : Z :=
  py_round ((range.2 - range.1) / step).

(** The object [__init__] builds when it completes: [xs] and [ts] are the
    two [linspace] results, [r0] and [m0] the real and imaginary parts of
    [initial(x)] as stored in row 0 before [_setbcs(0)]. *)
Definition init_value (junk : nat → nat → nat → Qc) (dx dt : Qc)
    (xrange trange : Qc * Qc) (boundaries : complex * complex)
    (xs ts r0 m0 : list Qc) : Wavefunction :=
  let nx := grid_count dx xrange in
  let nt := grid_count dt trange in
  mkWavefunction (dx * dx) dt (dt / (2 * (dx * dx))) nx nt
    (<[0%nat := pin_row (creal boundaries.1) (creal boundaries.2) r0]>
       (empty2 junk 0 nt nx))
    (<[0%nat := pin_row (cimag boundaries.1) (cimag boundaries.2) m0]>
       (empty2 junk 1 nt nx))
    (nt, nx) xs ts boundaries.

(** ** Invariants of the field *)

(** [a] has [n] rows of width [w]. *)
Definition has_shape (n w : nat) (a : list (list Qc)) : Prop :=
  length a = n ∧ Forall (λ r, length r = w) a.

(** The first entry of [r] is [b0] and the last one is [b1]. *)
Definition row_pinned (b0 b1 : Qc) (r : list Qc) : Prop :=
  r !! 0%nat = Some b0 ∧ r !! (length r - 1)%nat = Some b1.

(** Rows [0..k] of both arrays carry the boundary values. *)
Definition pinned_upto (k : nat) (self : Wavefunction) : Prop :=
  (∀ j r, (j ≤ k)%nat → real self !! j = Some r →
     row_pinned (creal (boundaries self).1) (creal (boundaries self).2) r)
  ∧ (∀ j m, (j ≤ k)%nat → imag self !! j = Some m →
       row_pinned (cimag (boundaries self).1) (cimag (boundaries self).2) m).

(** The configuration fields, which no method assigns after [__init__]. *)
Definition same_config (s s' : Wavefunction) : Prop :=
  dx2 s' = dx2 s ∧ dt s' = dt s ∧ mu s' = mu s ∧ nx s' = nx s
  ∧ nt s' = nt s ∧ shape s' = shape s ∧ x s' = x s ∧ t s' = t s
  ∧ boundaries s' = boundaries s.

(** The samples of [np.linspace(start, stop, num)] before the last one is
    overwritten by [stop]. *)
Definition linspace_ramp (start stop : Qc) (num : Z) : list Qc :=
  (λ u, u + start)
    <$> (if decide (0 < num - 1)%Z
         then vscale ((stop - start) / Qc_of_Z (num - 1))
                (Qc_of_Z <$> py_range 0 num)
         else vscale (stop - start) (Qc_of_Z <$> py_range 0 num)).

(** The object in the pass of the loop of [solve] for row [i], after the
    two assignments to row [i + 1] and before [_setbcs(i)]; [re] and [im]
    are rows [i] of [real] and [imag]. *)
Definition pass_mid (junk : nat → nat → nat → Qc) (self : Wavefunction)
    (i : nat) (re im : list Qc) : Wavefunction :=
  set_imag
    (set_real self
       (<[S i := code_next (deriv4 junk self) (dt self) (- half) im re]>
          (real self)))
    (<[S i := code_next (deriv4 junk self) (dt self) half re im]>
       (imag self)).

(** ** [deriv] on buffers

    To speak about what [deriv] writes, arrays are placed in a store: an
    address is an index into the list of buffers, [np.empty_like] and the
    final [df / self.dx2] allocate a new buffer at the end, the slices of
    [psi] are views that are only read, and every assignment to [df] writes
    the buffer of [df].  Temporaries of the right-hand sides are values. *)

Abbreviation store := (list (list Qc)).

Definition load (σ : store) (a : nat) : result (list Qc) :=
  match σ !! a with
  | Some v => Ok v
  | None => Raise IndexError
  end.

Definition store_at (σ : store) (a : nat) (v : list Qc) : store := <[a := v]> σ.

Definition alloc (σ : store) (v : list Qc) : nat * store := (length σ, σ ++ [v]).

Section DerivMem.
Variable junk : nat → nat → nat → Qc.

Definition deriv_mem (self : Wavefunction) (psi : nat) (order : Z)
    (dirichlet : bool) (σ : store) : result (nat * store) :=
  (* df = np.empty_like(psi) *)
  p ← load σ psi;
  let '(df, σ) := alloc σ (np_empty_like junk p) in
  σ ← (if decide (order = 2)%Z then
         (* df[1:-1] = (psi[2:] - 2*psi[1:-1] + psi[0:-2]) *)
         p ← load σ psi;
         a ← vsub (py_slice (Some 2%Z) None p)
                  (vscale 2 (py_slice (Some 1%Z) (Some (-1)%Z) p));
         b ← vadd a (py_slice (Some 0%Z) (Some (-2)%Z) p);
         d ← load σ df;
         d ← set_slice (Some 1%Z) (Some (-1)%Z) b d;
         Ok (store_at σ df d)
       else if decide (order = 4)%Z then
         p ← load σ psi;
         a ← vadd (vneg (py_slice None (Some (-4)%Z) p))
                  (vscale (Qc_of_Z 16) (py_slice (Some 1%Z) (Some (-3)%Z) p));
         b ← vsub a (vscale (Qc_of_Z 30) (py_slice (Some 2%Z) (Some (-2)%Z) p));
         c ← vadd b (vscale (Qc_of_Z 16) (py_slice (Some 3%Z) (Some (-1)%Z) p));
         e ← vsub c (py_slice (Some 4%Z) None p);
         d ← load σ df;
         d ← set_slice (Some 2%Z) (Some (-2)%Z) (vdiv e (Qc_of_Z 12)) d;
         let σ := store_at σ df d in
         (* df[1] = psi[0] - 2*psi[1] + psi[2] *)
         p ← load σ psi;
         p0 ← getitem p 0; p1 ← getitem p 1; p2 ← getitem p 2;
         d ← load σ df;
         d ← setitem d 1 (p0 - 2 * p1 + p2);
         let σ := store_at σ df d in
         (* df[-2] = psi[-1] - 2*psi[-2] + psi[-3] *)
         p ← load σ psi;
         q1 ← getitem p (-1); q2 ← getitem p (-2); q3 ← getitem p (-3);
         d ← load σ df;
         d ← setitem d (-2) (q1 - 2 * q2 + q3);
         Ok (store_at σ df d)
       else Ok σ);
  σ ← (if dirichlet then
         (* df[0] = 0; df[-1] = 0 *)
         d ← load σ df;
         d ← setitem d 0 0;
         let σ := store_at σ df d in
         d ← load σ df;
         d ← setitem d (-1) 0;
         Ok (store_at σ df d)
       else
         p ← load σ psi;
         p0 ← getitem p 0; p1 ← getitem p 1;
         p2 ← getitem p 2; p3 ← getitem p 3;
         d ← load σ df;
         d ← setitem d 0
                (-1 * p0 + Qc_of_Z 4 * p1 - Qc_of_Z 5 * p2 + 2 * p3);
         let σ := store_at σ df d in
         p ← load σ psi;
         q1 ← getitem p (-1); q2 ← getitem p (-2);
         q3 ← getitem p (-3); q4 ← getitem p (-4);
         d ← load σ df;
         d ← setitem d (-1)
                (-1 * q1 + Qc_of_Z 4 * q2 - Qc_of_Z 5 * q3 + 2 * q4);
         Ok (store_at σ df d));
  (* return df / self.dx2 *)
  d ← load σ df;
  let '(r, σ) := alloc σ (vdiv d (dx2 self)) in
  Ok (r, σ).

End DerivMem.

(** ** Example inputs *)

Definition zero_junk : nat → nat → nat → Qc := λ _ _ _, 0.

(** [initial(x) = x**2 + 1j*x] *)
Definition example_initial (xs : list Qc) : list complex :=
  (λ u, Complex (u * u) u) <$> xs.

(** The samples of [x**2] at [x = 1..6]. *)
Definition example_psi : list Qc := Qc_of_Z <$> [1; 4; 9; 16; 25; 36]%Z.

(** An object with two rows of five samples, [dx = 1/5], [dt = 1/4]. *)
Definition example_self : Wavefunction :=
  mkWavefunction (Q2Qc (1 # 25)) (Q2Qc (1 # 4)) (Q2Qc (25 # 8)) 5 2
    [Qc_of_Z <$> [1; 4; 9; 16; 0]%Z; Qc_of_Z <$> [7; 7; 7; 7; 7]%Z]
    [Qc_of_Z <$> [0; 1; 2; 3; 0]%Z; Qc_of_Z <$> [7; 7; 7; 7; 7]%Z]
    (2%Z, 5%Z) (Q2Qc <$> [0; 1 # 4; 1 # 2; 3 # 4; 1]%Q) [0; 1]
    (Complex 1 0, Complex 0 0).

Definition example_kbuf : list (list Qc) := replicate 4 (replicate 5 0).

(** [boundaries=(1+0j, 0+0j)] *)
Definition example_boundaries : complex * complex :=
  (Complex 1 0, Complex 0 0).

(** Steps that give three grid points and two time rows on the default
    ranges. *)
Definition example_dx : Qc := Q2Qc (1 # 3).
Definition example_dt : Qc := Q2Qc (1 # 2).

(** An object like [example_self] whose row 0 does not carry the boundary
    values at its ends. *)
Definition example_unpinned : Wavefunction :=
  mkWavefunction (Q2Qc (1 # 25)) (Q2Qc (1 # 4)) (Q2Qc (25 # 8)) 5 2
    [Qc_of_Z <$> [5; 4; 9; 16; 3]%Z; Qc_of_Z <$> [7; 7; 7; 7; 7]%Z]
    [Qc_of_Z <$> [2; 1; 2; 3; 4]%Z; Qc_of_Z <$> [7; 7; 7; 7; 7]%Z]
    (2%Z, 5%Z) (Q2Qc <$> [0; 1 # 4; 1 # 2; 3 # 4; 1]%Q) [0; 1]
    (Complex 1 0, Complex 0 0).

(** ** Closed forms for the other branches of [deriv] *)

(** Right-hand side of the assignment to [df[1:-1]] when [order = 2]. *)
Definition stencil3 (psi : list Qc) : list Qc :=
  let m := (length psi - 2)%nat in
  zip_with Qcplus
    (zip_with Qcminus (drop 2 psi) (vscale 2 (take m (drop 1 psi))))
    (take m psi).

(** [df] after the assignment to [df[1:-1]] and the Dirichlet assignments,
    when [order = 2]. *)
Definition df2_dirichlet (df0 psi : list Qc) : list Qc :=
  let n := length psi in
  <[(n - 1)%nat := 0]>
    (<[0%nat := 0]> (take 1 df0 ++ stencil3 psi ++ drop (1 + (n - 2)) df0)).

(** The two halves of the body of [deriv], as functions of the buffer [df]:
    the branch on [order], which fills the interior, and the branch on
    [dirichlet], which sets the two end entries.  [deriv_split] below shows
    that [deriv] is their composition on the buffer [np.empty_like] returns,
    followed by the division by [dx2]. *)
Definition deriv_fill (order : Z) (psi df : list Qc) : result (list Qc) :=
  if decide (order = 2)%Z then
    a ← vsub (py_slice (Some 2%Z) None psi)
             (vscale 2 (py_slice (Some 1%Z) (Some (-1)%Z) psi));
    b ← vadd a (py_slice (Some 0%Z) (Some (-2)%Z) psi);
    set_slice (Some 1%Z) (Some (-1)%Z) b df
  else if decide (order = 4)%Z then
    a ← vadd (vneg (py_slice None (Some (-4)%Z) psi))
             (vscale (Qc_of_Z 16) (py_slice (Some 1%Z) (Some (-3)%Z) psi));
    b ← vsub a (vscale (Qc_of_Z 30) (py_slice (Some 2%Z) (Some (-2)%Z) psi));
    c ← vadd b (vscale (Qc_of_Z 16) (py_slice (Some 3%Z) (Some (-1)%Z) psi));
    d ← vsub c (py_slice (Some 4%Z) None psi);
    df ← set_slice (Some 2%Z) (Some (-2)%Z) (vdiv d (Qc_of_Z 12)) df;
    p0 ← getitem psi 0; p1 ← getitem psi 1; p2 ← getitem psi 2;
    df ← setitem df 1 (p0 - 2 * p1 + p2);
    q1 ← getitem psi (-1); q2 ← getitem psi (-2); q3 ← getitem psi (-3);
    setitem df (-2) (q1 - 2 * q2 + q3)
  else Ok df.

Definition deriv_ends (dirichlet : bool) (psi df : list Qc)
  : result (list Qc) :=
  if dirichlet then
    df ← setitem df 0 0;
    setitem df (-1) 0
  else
    p0 ← getitem psi 0; p1 ← getitem psi 1;
    p2 ← getitem psi 2; p3 ← getitem psi 3;
    df ← setitem df 0 (-1 * p0 + Qc_of_Z 4 * p1 - Qc_of_Z 5 * p2 + 2 * p3);
    q1 ← getitem psi (-1); q2 ← getitem psi (-2);
    q3 ← getitem psi (-3); q4 ← getitem psi (-4);
    setitem df (-1) (-1 * q1 + Qc_of_Z 4 * q2 - Qc_of_Z 5 * q3 + 2 * q4).

(** The one-sided estimates [deriv] stores at the two ends when
    [dirichlet = False]. *)
Definition left_estimate (psi : list Qc) : Qc :=
  -1 * psi !!! 0%nat + Qc_of_Z 4 * psi !!! 1%nat - Qc_of_Z 5 * psi !!! 2%nat
  + 2 * psi !!! 3%nat.
Definition right_estimate (psi : list Qc) : Qc :=
  let n := length psi in
  -1 * psi !!! (n - 1)%nat + Qc_of_Z 4 * psi !!! (n - 2)%nat
  - Qc_of_Z 5 * psi !!! (n - 3)%nat + 2 * psi !!! (n - 4)%nat.

(** [df] after the assignment to [df[1:-1]], when [order = 2]. *)
Definition df2_interior (df0 psi : list Qc) : list Qc :=
  take 1 df0 ++ stencil3 psi ++ drop (1 + (length psi - 2)) df0.

(** The buffer after the branch on [order], for inputs on which it does not
    raise. *)
Definition filled (order : Z) (df0 psi : list Qc) : list Qc :=
  if decide (order = 2)%Z then df2_interior df0 psi
  else if decide (order = 4)%Z then df_interior df0 psi
  else df0.

(** The buffer after the branch on [dirichlet]. *)
Definition ended (dirichlet : bool) (psi df : list Qc) : list Qc :=
  if dirichlet then <[(length df - 1)%nat := 0]> (<[0%nat := 0]> df)
  else <[(length df - 1)%nat := right_estimate psi]>
         (<[0%nat := left_estimate psi]> df).

(** The value [a + b*z + c*z**2]. *)
Definition quadratic (a b c : Qc) (z : Z) : Qc :=
  a + b * Qc_of_Z z + c * (Qc_of_Z z * Qc_of_Z z).

(** Samples [a + b*j + c*j**2] for [j = 0..n-1]. *)
Definition quadratic_samples (a b c : Qc) (n : nat) : list Qc :=
  (λ j : nat, quadratic a b c (Z.of_nat j)) <$> seq 0 n.

(** ** The stored trajectory *)

(** Rows [1..k] of the two arrays each are the new row of the pass of the
    loop of [solve] on the row before, for the derivative operator [D] and
    the step [h]. *)
Definition advanced (D : list Qc → list Qc) (h : Qc)
    (re_ im_ : list (list Qc)) (k : nat) : Prop :=
  ∀ j re im, (j < k)%nat → re_ !! j = Some re → im_ !! j = Some im →
    re_ !! S j = Some (code_next D h (- half) im re)
    ∧ im_ !! S j = Some (code_next D h half re im).

(** A time range longer than the default [xrange]. *)
Definition example_long_trange : Qc * Qc := (0, Q2Qc (3 # 2)).

(** An [initial] that returns a single sample, whatever the grid is. *)
Definition single_initial (xs : list Qc) : list complex :=
  [Complex (Qc_of_Z 7) (Qc_of_Z 3)].

(** The value the stencils of [deriv] (default arguments) give at index
    [j] of an input of at least three samples, before the division by
    [dx2]. *)
Definition entry4 (psi : list Qc) (j : nat) : Qc :=
  let n := length psi in
  if decide (j = 0%nat ∨ j = (n - 1)%nat) then 0
  else if decide (j = 1%nat) then
    psi !!! 0%nat - 2 * psi !!! 1%nat + psi !!! 2%nat
  else if decide (j = (n - 2)%nat) then
    psi !!! (n - 1)%nat - 2 * psi !!! (n - 2)%nat + psi !!! (n - 3)%nat
  else
    (- psi !!! (j - 2)%nat + Qc_of_Z 16 * psi !!! (j - 1)%nat
     - Qc_of_Z 30 * psi !!! j + Qc_of_Z 16 * psi !!! (j + 1)%nat
     - psi !!! (j + 2)%nat) / Qc_of_Z 12.

(** * Properties *)

(** ** The exception monad *)

Lemma bind_Ok {A B} (f : A → result B) (a : A) : (Ok a ≫= f) = f a.
Proof. reflexivity. Qed.

Lemma bind_Raise {A B} (f : A → result B) (e : exn) :
  (Raise e ≫= f) = Raise e.
Proof. reflexivity. Qed.

(** Replace the computation at the head of a chain of binds by its value. *)
Ltac ok_step := rewrite bind_Ok; cbv beta.

(** ** Indexing *)

Lemma py_index_nat (n i : nat) :
  (i < n)%nat → py_index n (Z.of_nat i) = Ok i.
Proof.
  intros Hi. unfold py_index.
  rewrite decide_True by lia. by rewrite Nat2Z.id.
Qed.

Lemma py_index_neg (n k : nat) :
  (0 < k ≤ n)%nat → py_index n (- Z.of_nat k) = Ok (n - k)%nat.
Proof.
  intros Hk. unfold py_index.
  rewrite decide_False by lia. rewrite decide_True by lia.
  f_equal. lia.
Qed.

Lemma py_index_Ok (n : nat) (k : Z) (i : nat) :
  py_index n k = Ok i →
  (i < n)%nat ∧ (k = Z.of_nat i ∨ k = (Z.of_nat i - Z.of_nat n)%Z).
Proof.
  unfold py_index. repeat case_decide; intros [= <-]; lia.
Qed.

Lemma getitem_nat {A} (l : list A) (i : nat) (a : A) :
  l !! i = Some a → getitem l (Z.of_nat i) = Ok a.
Proof.
  intros Hl. unfold getitem.
  rewrite py_index_nat by (by eapply lookup_lt_Some). cbn. by rewrite Hl.
Qed.

Lemma getitem_neg {A} (l : list A) (k : nat) (a : A) :
  (0 < k ≤ length l)%nat → l !! (length l - k)%nat = Some a →
  getitem l (- Z.of_nat k) = Ok a.
Proof.
  intros Hk Hl. unfold getitem.
  rewrite py_index_neg by lia. cbn. by rewrite Hl.
Qed.

Lemma getitem_Ok {A} (l : list A) (k : Z) (a : A) :
  getitem l k = Ok a →
  ∃ i, py_index (length l) k = Ok i ∧ l !! i = Some a.
Proof.
  unfold getitem. destruct (py_index (length l) k) as [i|] eqn:Hi; [|done].
  cbn. destruct (l !! i) eqn:Hl; [|done]. intros [= <-]. eauto.
Qed.

Lemma setitem_nat {A} (l : list A) (i : nat) (a : A) :
  (i < length l)%nat → setitem l (Z.of_nat i) a = Ok (<[i := a]> l).
Proof. intros Hi. unfold setitem. by rewrite py_index_nat. Qed.

Lemma setitem_neg {A} (l : list A) (k : nat) (a : A) :
  (0 < k ≤ length l)%nat →
  setitem l (- Z.of_nat k) a = Ok (<[(length l - k)%nat := a]> l).
Proof. intros Hk. unfold setitem. by rewrite py_index_neg. Qed.

Lemma setitem_Ok {A} (l l' : list A) (k : Z) (a : A) :
  setitem l k a = Ok l' →
  ∃ i, py_index (length l) k = Ok i ∧ l' = <[i := a]> l.
Proof.
  unfold setitem. destruct (py_index (length l) k) as [i|]; [|done].
  cbn. intros [= <-]. eauto.
Qed.

Lemma broadcast_to_same {A} (m : nat) (v : list A) :
  length v = m → broadcast_to m v = Ok v.
Proof. intros Hv. unfold broadcast_to. by rewrite decide_True. Qed.

Lemma broadcast_to_length {A} (m : nat) (v v' : list A) :
  broadcast_to m v = Ok v' → length v' = m.
Proof.
  unfold broadcast_to. case_decide; [by intros [= <-]|].
  destruct v as [|a [|??]]; [done| |done].
  intros [= <-]. apply length_replicate.
Qed.

Lemma elementwise_same (f : Qc → Qc → Qc) (a b : list Qc) :
  length a = length b → elementwise f a b = Ok (zip_with f a b).
Proof. intros H. unfold elementwise. by rewrite decide_True. Qed.

Lemma assign_row_nat (a : list (list Qc)) (i : nat) (row v : list Qc) :
  a !! i = Some row → length v = length row →
  assign_row a (Z.of_nat i) v = Ok (<[i := v]> a).
Proof.
  intros Ha Hv. unfold assign_row.
  rewrite (getitem_nat _ _ _ Ha). cbn.
  rewrite broadcast_to_same by done. cbn.
  apply setitem_nat. by eapply lookup_lt_Some.
Qed.

Lemma setitem2_nat (a : list (list Qc)) (i j : nat) (row : list Qc) (v : Qc) :
  a !! i = Some row → (j < length row)%nat →
  setitem2 a (Z.of_nat i) (Z.of_nat j) v = Ok (<[i := <[j := v]> row]> a).
Proof.
  intros Ha Hj. unfold setitem2.
  rewrite (getitem_nat _ _ _ Ha). cbn.
  rewrite setitem_nat by done. cbn.
  apply setitem_nat. by eapply lookup_lt_Some.
Qed.

Lemma setitem2_last (a : list (list Qc)) (i : nat) (row : list Qc) (v : Qc) :
  a !! i = Some row → (0 < length row)%nat →
  setitem2 a (Z.of_nat i) (-1) v = Ok (<[i := <[(length row - 1)%nat := v]> row]> a).
Proof.
  intros Ha Hj. unfold setitem2.
  rewrite (getitem_nat _ _ _ Ha). cbn.
  change (-1)%Z with (- Z.of_nat 1)%Z.
  rewrite setitem_neg by lia. cbn.
  apply setitem_nat. by eapply lookup_lt_Some.
Qed.

(** Indexing by a literal: non-negative from the front, negative from the
    back. *)
Lemma getitem_front (l : list Qc) (k : Z) :
  (0 ≤ k < Z.of_nat (length l))%Z → getitem l k = Ok (l !!! Z.to_nat k).
Proof.
  intros Hk. rewrite <- (Z2Nat.id k) at 1 by lia.
  apply getitem_nat, list_lookup_lookup_total_lt. lia.
Qed.

Lemma getitem_back (l : list Qc) (k : Z) :
  (- Z.of_nat (length l) ≤ k < 0)%Z →
  getitem l k = Ok (l !!! (length l - Z.to_nat (- k))%nat).
Proof.
  intros Hk. replace k with (- Z.of_nat (Z.to_nat (- k)))%Z at 1 by lia.
  apply getitem_neg; [lia|]. apply list_lookup_lookup_total_lt. lia.
Qed.

Lemma setitem_front {A} (l : list A) (k : Z) (a : A) :
  (0 ≤ k < Z.of_nat (length l))%Z → setitem l k a = Ok (<[Z.to_nat k := a]> l).
Proof.
  intros Hk. rewrite <- (Z2Nat.id k) at 1 by lia. apply setitem_nat. lia.
Qed.

Lemma setitem_back {A} (l : list A) (k : Z) (a : A) :
  (- Z.of_nat (length l) ≤ k < 0)%Z →
  setitem l k a = Ok (<[(length l - Z.to_nat (- k))%nat := a]> l).
Proof.
  intros Hk. replace k with (- Z.of_nat (Z.to_nat (- k)))%Z at 1 by lia.
  apply setitem_neg. lia.
Qed.

(** ** Slices *)

Lemma py_slice_inner {A} (l : list A) (a b : Z) :
  (0 ≤ a)%Z → (b < 0)%Z →
  py_slice (Some a) (Some b) l
  = take (length l - Z.to_nat (- b) - Z.to_nat a) (drop (Z.to_nat a) l).
Proof.
  intros Ha Hb. unfold py_slice, slice_len, slice_start, slice_bound.
  rewrite (decide_False (P := (a < 0)%Z)) by lia.
  rewrite (decide_True (P := (b < 0)%Z)) by lia.
  destruct (decide (Z.to_nat a ≤ length l)%nat) as [Hle|Hgt].
  - f_equal; [lia|]. f_equal. lia.
  - rewrite !drop_ge by lia. by rewrite !take_nil.
Qed.

Lemma py_slice_prefix {A} (l : list A) (b : Z) :
  (b < 0)%Z → py_slice None (Some b) l = take (length l - Z.to_nat (- b)) l.
Proof.
  intros Hb. unfold py_slice, slice_len, slice_start, slice_bound.
  rewrite (decide_True (P := (b < 0)%Z)) by lia.
  rewrite drop_0. f_equal. lia.
Qed.

Lemma py_slice_suffix {A} (l : list A) (a : Z) :
  (0 ≤ a)%Z → py_slice (Some a) None l = drop (Z.to_nat a) l.
Proof.
  intros Ha. unfold py_slice, slice_len, slice_start, slice_bound.
  rewrite (decide_False (P := (a < 0)%Z)) by lia.
  destruct (decide (Z.to_nat a ≤ length l)%nat) as [Hle|Hgt].
  - replace (Z.to_nat (Z.of_nat (length l) `min` (0 `max` a))) with (Z.to_nat a) by lia.
    apply take_ge. rewrite length_drop. lia.
  - rewrite !drop_ge by lia. by rewrite take_nil.
Qed.

Lemma set_slice_inner {A} (l v : list A) (a b : Z) :
  (0 ≤ a)%Z → (b < 0)%Z →
  length v = (length l - Z.to_nat (- b) - Z.to_nat a)%nat →
  (Z.to_nat a ≤ length l)%nat →
  set_slice (Some a) (Some b) v l
  = Ok (take (Z.to_nat a) l ++ v ++ drop (Z.to_nat a + length v) l).
Proof.
  intros Ha Hb Hv Hle. unfold set_slice, slice_len, slice_start, slice_bound.
  rewrite (decide_False (P := (a < 0)%Z)) by lia.
  rewrite (decide_True (P := (b < 0)%Z)) by lia.
  rewrite broadcast_to_same by lia. cbn.
  do 2 f_equal; [f_equal; lia|]. do 2 f_equal. lia.
Qed.

Section Deriv.
Variable junk : nat → nat → nat → Qc.

Lemma length_np_empty_like (psi : list Qc) :
  length (np_empty_like junk psi) = length psi.
Proof. unfold np_empty_like, np_empty. by rewrite length_fmap, length_seq. Qed.

Lemma length_stencil5 (psi : list Qc) :
  length (stencil5 psi) = (length psi - 4)%nat.
Proof.
  unfold stencil5. rewrite !length_zip_with. unfold vneg, vscale.
  rewrite !length_fmap, !length_take, !length_drop. lia.
Qed.

(** Lengths of the intermediate values of [df]. *)
Ltac solve_length :=
  unfold vdiv, vscale, vneg;
  rewrite ?length_insert, ?length_app, ?length_take, ?length_drop,
    ?length_fmap, ?length_stencil5, ?length_np_empty_like;
  lia.

(** The five operand slices of the order-4 stencil all have the same length,
    so no elementwise operation of [deriv] raises. *)
Lemma deriv4_slices_aligned (psi : list Qc) :
  let m := (length psi - 4)%nat in
  length (py_slice None (Some (-4)%Z) psi) = m
  ∧ length (py_slice (Some 1%Z) (Some (-3)%Z) psi) = m
  ∧ length (py_slice (Some 2%Z) (Some (-2)%Z) psi) = m
  ∧ length (py_slice (Some 3%Z) (Some (-1)%Z) psi) = m
  ∧ length (py_slice (Some 4%Z) None psi) = m.
Proof.
  intros m. rewrite py_slice_prefix, !py_slice_inner, py_slice_suffix by lia.
  rewrite !length_take, !length_drop. subst m. repeat split; lia.
Qed.

Lemma length_df_interior (df0 psi : list Qc) :
  length df0 = length psi → (3 ≤ length psi)%nat →
  length (df_interior df0 psi) = length psi.
Proof.
  intros H0 Hn. unfold df_interior. rewrite !length_insert, !length_app.
  rewrite length_take, length_drop. unfold vdiv.
  rewrite length_fmap, length_stencil5. lia.
Qed.

Lemma length_df_dirichlet (df0 psi : list Qc) :
  length df0 = length psi → (3 ≤ length psi)%nat →
  length (df_dirichlet df0 psi) = length psi.
Proof.
  intros H0 Hn. unfold df_dirichlet. rewrite !length_insert.
  by apply length_df_interior.
Qed.

(** [deriv] with [order = 4] and [dirichlet = True], evaluated statement by
    statement on an input of at least three samples. *)
Lemma deriv4_eval (self : Wavefunction) (psi : list Qc) :
  (3 ≤ length psi)%nat →
  deriv junk self psi 4 true
  = Ok (vdiv (df_dirichlet (np_empty_like junk psi) psi) (dx2 self)).
Proof.
  intros Hn.
  destruct (deriv4_slices_aligned psi) as (L0 & L1 & L2 & L3 & L4).
  pose proof (length_np_empty_like psi) as Hdf0.
  pose proof (length_df_interior _ _ Hdf0 Hn) as Hdf3.
  pose proof (length_stencil5 psi) as Hd.
  unfold deriv. rewrite decide_False by done. rewrite decide_True by done.
  unfold vadd, vsub.
  rewrite elementwise_same
    by (unfold vneg, vscale; rewrite !length_fmap; congruence).
  ok_step.
  rewrite elementwise_same
    by (rewrite length_zip_with; unfold vneg, vscale; rewrite !length_fmap;
        rewrite L0, L1, L2; lia).
  ok_step.
  rewrite elementwise_same
    by (rewrite !length_zip_with; unfold vneg, vscale; rewrite !length_fmap;
        rewrite L0, L1, L2, L3; lia).
  ok_step.
  rewrite elementwise_same
    by (rewrite !length_zip_with; unfold vneg, vscale; rewrite !length_fmap;
        rewrite L0, L1, L2, L3, L4; lia).
  ok_step.
  rewrite py_slice_prefix, !py_slice_inner, py_slice_suffix by lia.
  change (Z.to_nat (- -4)) with 4%nat. change (Z.to_nat (- -3)) with 3%nat.
  change (Z.to_nat (- -2)) with 2%nat. change (Z.to_nat (- -1)) with 1%nat.
  change (Z.to_nat 1) with 1%nat. change (Z.to_nat 2) with 2%nat.
  change (Z.to_nat 3) with 3%nat. change (Z.to_nat 4) with 4%nat.
  replace (length psi - 3 - 1)%nat with (length psi - 4)%nat by lia.
  replace (length psi - 2 - 2)%nat with (length psi - 4)%nat by lia.
  replace (length psi - 1 - 3)%nat with (length psi - 4)%nat by lia.
  replace (take (length psi - 4) (drop 4 psi)) with (drop 4 psi)
    by (symmetry; apply take_ge; rewrite length_drop; lia).
  fold (stencil5 psi).
  rewrite set_slice_inner
    by (unfold vdiv; rewrite ?length_fmap, ?Hdf0, ?Hd; lia).
  ok_step.
  change (Z.to_nat 2) with 2%nat.
  replace (2 + length (vdiv (stencil5 psi) (Qc_of_Z 12)))%nat
    with (2 + (length psi - 4))%nat
    by (unfold vdiv; rewrite length_fmap, Hd; lia).
  rewrite (getitem_front psi 0), (getitem_front psi 1), (getitem_front psi 2)
    by lia.
  do 3 ok_step.
  rewrite setitem_front
    by (rewrite !length_app, length_take, Hdf0; lia).
  ok_step.
  rewrite (getitem_back psi (-1)), (getitem_back psi (-2)),
    (getitem_back psi (-3)) by lia.
  do 3 ok_step.
  change (Z.to_nat 0) with 0%nat. change (Z.to_nat 1) with 1%nat.
  change (Z.to_nat 2) with 2%nat.
  change (Z.to_nat (- -1)) with 1%nat. change (Z.to_nat (- -2)) with 2%nat.
  change (Z.to_nat (- -3)) with 3%nat.
  unfold df_dirichlet, df_interior.
  rewrite setitem_back by solve_length. ok_step.
  change (Z.to_nat (- -2)) with 2%nat.
  replace (length (<[1%nat:=psi !!! 0%nat - 2 * psi !!! 1%nat + psi !!! 2%nat]>
            (take 2 (np_empty_like junk psi)
             ++ vdiv (stencil5 psi) (Qc_of_Z 12)
             ++ drop (2 + (length psi - 4)) (np_empty_like junk psi))))
    with (length psi) by solve_length.
  rewrite setitem_front by solve_length. ok_step.
  rewrite setitem_back by solve_length. ok_step.
  change (Z.to_nat 0) with 0%nat. change (Z.to_nat (- -1)) with 1%nat.
  do 3 f_equal. solve_length.
Qed.

End Deriv.

(** ** What [deriv] returns, entry by entry *)

Lemma lookup_zip_with_both {A B C} (f : A → B → C) (l : list A) (k : list B)
    (i : nat) (a : A) (b : B) :
  l !! i = Some a → k !! i = Some b → zip_with f l k !! i = Some (f a b).
Proof. intros Hl Hk. rewrite lookup_zip_with, Hl. cbn. by rewrite Hk. Qed.

Lemma lookup_window (psi : list Qc) (m a i : nat) :
  (i < m)%nat → (a + i < length psi)%nat →
  take m (drop a psi) !! i = Some (psi !!! (a + i)%nat).
Proof.
  intros Hi Ha. rewrite lookup_take_lt, lookup_drop by done.
  by apply list_lookup_lookup_total_lt.
Qed.

Lemma lookup_stencil5 (psi : list Qc) (i : nat) :
  (i + 4 < length psi)%nat →
  stencil5 psi !! i
  = Some (- psi !!! i + Qc_of_Z 16 * psi !!! (1 + i)%nat
          - Qc_of_Z 30 * psi !!! (2 + i)%nat
          + Qc_of_Z 16 * psi !!! (3 + i)%nat - psi !!! (4 + i)%nat).
Proof.
  intros Hi. unfold stencil5, vneg, vscale.
  repeat apply lookup_zip_with_both.
  - rewrite list_lookup_fmap, lookup_take_lt by lia.
    by rewrite (list_lookup_lookup_total_lt psi i) by lia.
  - rewrite list_lookup_fmap, lookup_window by lia. done.
  - rewrite list_lookup_fmap, lookup_window by lia. done.
  - rewrite list_lookup_fmap, lookup_window by lia. done.
  - rewrite lookup_drop. apply list_lookup_lookup_total_lt. lia.
Qed.

Section DerivEntries.
Variable df0 psi : list Qc.
Hypothesis Hdf0 : length df0 = length psi.
Hypothesis Hn : (3 ≤ length psi)%nat.

Local Abbreviation n := (length psi).

Ltac solve_length :=
  unfold vdiv, vscale, vneg;
  rewrite ?length_insert, ?length_app, ?length_take, ?length_drop,
    ?length_fmap, ?length_stencil5, ?Hdf0;
  lia.

Lemma df_dirichlet_first : df_dirichlet df0 psi !! 0%nat = Some 0.
Proof.
  unfold df_dirichlet. rewrite list_lookup_insert_ne by lia.
  apply list_lookup_insert_eq. rewrite length_df_interior by done. lia.
Qed.

Lemma df_dirichlet_last : df_dirichlet df0 psi !! (n - 1)%nat = Some 0.
Proof.
  unfold df_dirichlet. apply list_lookup_insert_eq.
  rewrite length_insert, length_df_interior by done. lia.
Qed.

Lemma df_dirichlet_near_right :
  df_dirichlet df0 psi !! (n - 2)%nat
  = Some (psi !!! (n - 1)%nat - 2 * psi !!! (n - 2)%nat + psi !!! (n - 3)%nat).
Proof.
  unfold df_dirichlet. rewrite !list_lookup_insert_ne by lia.
  unfold df_interior. apply list_lookup_insert_eq. solve_length.
Qed.

Lemma df_dirichlet_near_left :
  df_dirichlet df0 psi !! 1%nat
  = Some (psi !!! 0%nat - 2 * psi !!! 1%nat + psi !!! 2%nat).
Proof.
  destruct (decide (n = 3)) as [H3|H3].
  - replace 1%nat with (n - 2)%nat at 1 by lia.
    rewrite df_dirichlet_near_right. f_equal.
    replace (n - 1)%nat with 2%nat by lia.
    replace (n - 2)%nat with 1%nat by lia.
    replace (n - 3)%nat with 0%nat by lia. ring.
  - unfold df_dirichlet. rewrite !list_lookup_insert_ne by lia.
    unfold df_interior. rewrite list_lookup_insert_ne by lia.
    apply list_lookup_insert_eq. solve_length.
Qed.

Lemma df_dirichlet_inner (j : nat) :
  (2 ≤ j)%nat → (j + 3 ≤ n)%nat →
  df_dirichlet df0 psi !! j
  = Some ((- psi !!! (j - 2)%nat + Qc_of_Z 16 * psi !!! (j - 1)%nat
           - Qc_of_Z 30 * psi !!! j
           + Qc_of_Z 16 * psi !!! (j + 1)%nat - psi !!! (j + 2)%nat)
          / Qc_of_Z 12).
Proof.
  intros H2 H3. unfold df_dirichlet. rewrite !list_lookup_insert_ne by lia.
  unfold df_interior. rewrite !list_lookup_insert_ne by lia.
  rewrite lookup_app_r by solve_length.
  rewrite lookup_app_l by solve_length.
  rewrite length_take, Hdf0. replace (j - 2 `min` n)%nat with (j - 2)%nat by lia.
  unfold vdiv. rewrite list_lookup_fmap, lookup_stencil5 by lia. cbn.
  repeat f_equal; lia.
Qed.

End DerivEntries.

(** ** [_setbcs] *)

Lemma setbcs_eval (self : Wavefunction) (i : nat) (r m : list Qc) :
  real self !! i = Some r → imag self !! i = Some m →
  (0 < length r)%nat → (0 < length m)%nat →
  _setbcs (Z.of_nat i) self
  = Ok ((), set_imag
              (set_real self
                 (<[i := pin_row (creal (boundaries self).1)
                                 (creal (boundaries self).2) r]> (real self)))
              (<[i := pin_row (cimag (boundaries self).1)
                              (cimag (boundaries self).2) m]> (imag self))).
Proof.
  intros Hr Hm Hlr Hlm. unfold _setbcs, c_to_tup.
  change 0%Z with (Z.of_nat 0).
  rewrite (setitem2_nat _ _ _ _ _ Hr) by done. ok_step.
  cbn [real imag boundaries set_real set_imag].
  rewrite (setitem2_nat _ _ _ _ _ Hm) by done. ok_step.
  cbn [real imag boundaries set_real set_imag].
  assert (Hi : (i < length (real self))%nat) by (by eapply lookup_lt_Some).
  assert (Hi' : (i < length (imag self))%nat) by (by eapply lookup_lt_Some).
  rewrite (setitem2_last (<[i := <[0%nat := creal (boundaries self).1]> r]> (real self)) i
             (<[0%nat := creal (boundaries self).1]> r))
    by (rewrite ?length_insert; try done; by apply list_lookup_insert_eq).
  ok_step. cbn [real imag boundaries set_real set_imag].
  rewrite (setitem2_last (<[i := <[0%nat := cimag (boundaries self).1]> m]> (imag self)) i
             (<[0%nat := cimag (boundaries self).1]> m))
    by (rewrite ?length_insert; try done; by apply list_lookup_insert_eq).
  ok_step. cbn [real imag boundaries set_real set_imag].
  rewrite !list_insert_insert_eq, !length_insert.
  reflexivity.
Qed.

(** ** One pass through the loop body *)

Lemma getitem_lit {A} (l : list A) (k : Z) (a : A) :
  (0 ≤ k)%Z → l !! Z.to_nat k = Some a → getitem l k = Ok a.
Proof.
  intros Hk Hl. rewrite <- (Z2Nat.id k) by done. by apply getitem_nat.
Qed.

Lemma assign_row_lit (a : list (list Qc)) (k : Z) (row v : list Qc) :
  (0 ≤ k)%Z → a !! Z.to_nat k = Some row → length v = length row →
  assign_row a k v = Ok (<[Z.to_nat k := v]> a).
Proof.
  intros Hk Hl Hv. rewrite <- (Z2Nat.id k) at 1 by done.
  by eapply assign_row_nat.
Qed.

Lemma length_vscale (c : Qc) (v : list Qc) : length (vscale c v) = length v.
Proof. apply length_fmap. Qed.

Lemma length_vdiv (v : list Qc) (c : Qc) : length (vdiv v c) = length v.
Proof. apply length_fmap. Qed.

Lemma length_vplus (a b : list Qc) :
  length a = length b → length (vplus a b) = length a.
Proof. intros H. unfold vplus. rewrite length_zip_with. lia. Qed.

Lemma vadd_same (a b : list Qc) :
  length a = length b → vadd a b = Ok (vplus a b).
Proof. apply elementwise_same. Qed.

Lemma length_deriv4 junk (self : Wavefunction) (psi : list Qc) :
  (3 ≤ length psi)%nat → length (deriv4 junk self psi) = length psi.
Proof.
  intros Hn. unfold deriv4. rewrite length_vdiv.
  apply length_df_dirichlet; [apply length_np_empty_like | done].
Qed.

Lemma deriv4_code junk (self : Wavefunction) (psi : list Qc) :
  (3 ≤ length psi)%nat →
  deriv junk self psi 4 true = Ok (deriv4 junk self psi).
Proof. apply deriv4_eval. Qed.

Section StageLengths.
Variable D : list Qc → list Qc.
Variable h : Qc.
Variable w : nat.
Hypothesis HD : ∀ psi, length psi = w → length (D psi) = w.

Lemma length_stage_first c u : length u = w → length (stage_first D c u) = w.
Proof. intros. unfold stage_first. rewrite length_vscale. auto. Qed.

Lemma length_stage_half c u k :
  length u = w → length k = w → length (stage_half D h c u k) = w.
Proof.
  intros Hu Hk. unfold stage_half. rewrite length_vscale. apply HD.
  rewrite length_vplus; rewrite ?length_vdiv, ?length_vscale; congruence.
Qed.

Lemma length_stage_full c u k :
  length u = w → length k = w → length (stage_full D h c u k) = w.
Proof.
  intros Hu Hk. unfold stage_full. rewrite length_vscale. apply HD.
  rewrite length_vplus; rewrite ?length_vscale; congruence.
Qed.

Lemma length_weighted_sum v k0 k1 k2 k3 :
  length v = w → length k0 = w → length k1 = w → length k2 = w →
  length k3 = w → length (weighted_sum h v k0 k1 k2 k3) = w.
Proof.
  intros. unfold weighted_sum.
  repeat (rewrite length_vplus || rewrite length_vscale); congruence.
Qed.

Lemma length_code_next c u v :
  length u = w → length v = w → length (code_next D h c u v) = w.
Proof.
  intros Hu Hv. unfold code_next.
  pose proof (length_stage_first c u Hu) as H0.
  pose proof (length_stage_half c u _ Hu H0) as H1.
  pose proof (length_stage_half c u _ Hu H1) as H2.
  pose proof (length_stage_full c u _ Hu H2) as H3.
  by apply length_weighted_sum.
Qed.

End StageLengths.

(** Width bookkeeping: every intermediate array of the loop body has the
    width [w] of the rows. *)

Lemma width_vscale c v w : length v = w → length (vscale c v) = w.
Proof. by rewrite length_vscale. Qed.
Lemma width_vdiv v c w : length v = w → length (vdiv v c) = w.
Proof. by rewrite length_vdiv. Qed.
Lemma width_vplus a b w :
  length a = w → length b = w → length (vplus a b) = w.
Proof. intros Ha Hb. rewrite length_vplus; congruence. Qed.
Lemma width_deriv4 junk self psi w :
  (3 ≤ w)%nat → length psi = w → length (deriv4 junk self psi) = w.
Proof. intros Hw <-. by apply length_deriv4. Qed.

Lemma width_ge3 (u : list Qc) w :
  (3 ≤ w)%nat → length u = w → (3 ≤ length u)%nat.
Proof. by intros ? <-. Qed.

Ltac width_eq :=
  lazymatch goal with
  | |- length (vscale _ _) = _ => apply width_vscale; width_eq
  | |- length (vdiv _ _) = _ => apply width_vdiv; width_eq
  | |- length (vplus _ _) = _ => apply width_vplus; width_eq
  | |- length (deriv4 _ _ _) = _ => apply width_deriv4; [assumption | width_eq]
  | |- _ => assumption
  end.

Ltac width :=
  lazymatch goal with
  | H : (3 ≤ ?w)%nat |- length _ = length _ =>
      transitivity w; [width_eq | symmetry; width_eq]
  | |- (3 ≤ length _)%nat =>
      eapply width_ge3; [eassumption | width_eq]
  | |- length _ = _ => width_eq
  end.

Section LoopBody.
Variable junk : nat → nat → nat → Qc.
Variable self : Wavefunction.
Variables (i w : nat) (re im re1 im1 : list Qc).
Hypothesis Hw : (3 ≤ w)%nat.
Hypothesis Hre : real self !! i = Some re.
Hypothesis Him : imag self !! i = Some im.
Hypothesis Hre1 : real self !! S i = Some re1.
Hypothesis Him1 : imag self !! S i = Some im1.
Hypothesis Lre : length re = w.
Hypothesis Lim : length im = w.
Hypothesis Lre1 : length re1 = w.
Hypothesis Lim1 : length im1 = w.

Local Abbreviation D := (deriv4 junk self).
Local Abbreviation h := (dt self).

Lemma solve_body_eval (kreal kimag : list (list Qc)) :
  length kreal = 4%nat → Forall (λ r, length r = w) kreal →
  length kimag = 4%nat → Forall (λ r, length r = w) kimag →
  solve_body junk (Z.of_nat i) (kreal, kimag) self
  = Ok ((code_stages D h (- half) im, code_stages D h half re),
        set_imag
          (set_real self
             (<[i := pin_row (creal (boundaries self).1)
                             (creal (boundaries self).2) re]>
                (<[S i := code_next D h (- half) im re]> (real self))))
          (<[i := pin_row (cimag (boundaries self).1)
                          (cimag (boundaries self).2) im]>
             (<[S i := code_next D h half re im]> (imag self)))).
Proof.
  intros Lkr Fkr Lki Fki.
  destruct kreal as [|a0 [|a1 [|a2 [|a3 [|]]]]]; try done.
  destruct kimag as [|b0 [|b1 [|b2 [|b3 [|]]]]]; try done.
  pose proof (Forall_lookup_1 _ _ 0%nat a0 Fkr eq_refl) as La0.
  pose proof (Forall_lookup_1 _ _ 1%nat a1 Fkr eq_refl) as La1.
  pose proof (Forall_lookup_1 _ _ 2%nat a2 Fkr eq_refl) as La2.
  pose proof (Forall_lookup_1 _ _ 3%nat a3 Fkr eq_refl) as La3.
  pose proof (Forall_lookup_1 _ _ 0%nat b0 Fki eq_refl) as Lb0.
  pose proof (Forall_lookup_1 _ _ 1%nat b1 Fki eq_refl) as Lb1.
  pose proof (Forall_lookup_1 _ _ 2%nat b2 Fki eq_refl) as Lb2.
  pose proof (Forall_lookup_1 _ _ 3%nat b3 Fki eq_refl) as Lb3.
  cbv beta in La0, La1, La2, La3, Lb0, Lb1, Lb2, Lb3.
  clear Fkr Fki Lkr Lki.
  unfold solve_body.
  replace (Z.of_nat i + 1)%Z with (Z.of_nat (S i)) by lia.
  rewrite (getitem_nat _ _ _ Him), (getitem_nat _ _ _ Hre).
  (* kreal[0], kimag[0] *)
  ok_step. rewrite (deriv4_code junk self im) by width. ok_step.
  rewrite (assign_row_lit _ 0 a0) by (done || width). ok_step.
  ok_step. rewrite (deriv4_code junk self re) by width. ok_step.
  rewrite (assign_row_lit _ 0 b0) by (done || width). ok_step.
  change (Z.to_nat 0) with 0%nat. cbn [insert list_insert].
  fold (stage_first D (- half) im). fold (stage_first D half re).
  set (kr0 := stage_first D (- half) im). set (ki0 := stage_first D half re).
  assert (Lkr0 : length kr0 = w) by (subst kr0 ki0; apply length_stage_first; [intros; width | done]).
  assert (Lki0 : length ki0 = w) by (subst kr0 ki0; apply length_stage_first; [intros; width | done]).
  (* kreal[1], kimag[1] *)
  ok_step. rewrite (getitem_lit [kr0; a1; a2; a3] 0 kr0) by done. ok_step.
  rewrite vadd_same by width. ok_step.
  rewrite deriv4_code by width. ok_step.
  rewrite (assign_row_lit [kr0; a1; a2; a3] 1 a1) by (done || width). ok_step.
  ok_step. rewrite (getitem_lit [ki0; b1; b2; b3] 0 ki0) by done. ok_step.
  rewrite vadd_same by width. ok_step.
  rewrite deriv4_code by width. ok_step.
  rewrite (assign_row_lit [ki0; b1; b2; b3] 1 b1) by (done || width). ok_step.
  change (Z.to_nat 1) with 1%nat. cbn [insert list_insert].
  fold (stage_half D h (- half) im kr0). fold (stage_half D h half re ki0).
  set (kr1 := stage_half D h (- half) im kr0).
  set (ki1 := stage_half D h half re ki0).
  assert (Lkr1 : length kr1 = w)
    by (apply length_stage_half; [intros; width | done | done]).
  assert (Lki1 : length ki1 = w)
    by (apply length_stage_half; [intros; width | done | done]).
  (* kreal[2], kimag[2] *)
  ok_step. rewrite (getitem_lit [kr0; kr1; a2; a3] 1 kr1) by done. ok_step.
  rewrite vadd_same by width. ok_step.
  rewrite deriv4_code by width. ok_step.
  rewrite (assign_row_lit [kr0; kr1; a2; a3] 2 a2) by (done || width). ok_step.
  ok_step. rewrite (getitem_lit [ki0; ki1; b2; b3] 1 ki1) by done. ok_step.
  rewrite vadd_same by width. ok_step.
  rewrite deriv4_code by width. ok_step.
  rewrite (assign_row_lit [ki0; ki1; b2; b3] 2 b2) by (done || width). ok_step.
  change (Z.to_nat 2) with 2%nat. cbn [insert list_insert].
  fold (stage_half D h (- half) im kr1). fold (stage_half D h half re ki1).
  set (kr2 := stage_half D h (- half) im kr1).
  set (ki2 := stage_half D h half re ki1).
  assert (Lkr2 : length kr2 = w)
    by (apply length_stage_half; [intros; width | done | done]).
  assert (Lki2 : length ki2 = w)
    by (apply length_stage_half; [intros; width | done | done]).
  (* kreal[3], kimag[3] *)
  ok_step. rewrite (getitem_lit [kr0; kr1; kr2; a3] 2 kr2) by done. ok_step.
  rewrite vadd_same by width. ok_step.
  rewrite deriv4_code by width. ok_step.
  rewrite (assign_row_lit [kr0; kr1; kr2; a3] 3 a3) by (done || width). ok_step.
  ok_step. rewrite (getitem_lit [ki0; ki1; ki2; b3] 2 ki2) by done. ok_step.
  rewrite vadd_same by width. ok_step.
  rewrite deriv4_code by width. ok_step.
  rewrite (assign_row_lit [ki0; ki1; ki2; b3] 3 b3) by (done || width). ok_step.
  change (Z.to_nat 3) with 3%nat. cbn [insert list_insert].
  fold (stage_full D h (- half) im kr2). fold (stage_full D h half re ki2).
  set (kr3 := stage_full D h (- half) im kr2).
  set (ki3 := stage_full D h half re ki2).
  assert (Lkr3 : length kr3 = w)
    by (apply length_stage_full; [intros; width | done | done]).
  assert (Lki3 : length ki3 = w)
    by (apply length_stage_full; [intros; width | done | done]).
  (* real[i + 1] *)
  ok_step.
  rewrite (getitem_lit [kr0; kr1; kr2; kr3] 0 kr0),
    (getitem_lit [kr0; kr1; kr2; kr3] 1 kr1),
    (getitem_lit [kr0; kr1; kr2; kr3] 2 kr2),
    (getitem_lit [kr0; kr1; kr2; kr3] 3 kr3) by done.
  do 4 ok_step.
  rewrite vadd_same by width. ok_step.
  rewrite vadd_same by width. ok_step.
  rewrite vadd_same by width. ok_step.
  rewrite vadd_same by width. ok_step.
  fold (weighted_sum h re kr0 kr1 kr2 kr3).
  assert (Lnr : length (weighted_sum h re kr0 kr1 kr2 kr3) = w)
    by (by apply length_weighted_sum).
  rewrite (assign_row_nat _ _ _ _ Hre1) by (etrans; [exact Lnr | by symmetry]).
  ok_step.
  cbn [real imag boundaries dt set_real set_imag].
  rewrite (getitem_nat _ _ _ Him). ok_step.
  rewrite (getitem_lit [ki0; ki1; ki2; ki3] 0 ki0),
    (getitem_lit [ki0; ki1; ki2; ki3] 1 ki1),
    (getitem_lit [ki0; ki1; ki2; ki3] 2 ki2),
    (getitem_lit [ki0; ki1; ki2; ki3] 3 ki3) by done.
  do 4 ok_step.
  rewrite vadd_same by width. ok_step.
  rewrite vadd_same by width. ok_step.
  rewrite vadd_same by width. ok_step.
  rewrite vadd_same by width. ok_step.
  fold (weighted_sum h im ki0 ki1 ki2 ki3).
  assert (Lni : length (weighted_sum h im ki0 ki1 ki2 ki3) = w)
    by (by apply length_weighted_sum).
  rewrite (assign_row_nat _ _ _ _ Him1) by (etrans; [exact Lni | by symmetry]).
  ok_step.
  (* _setbcs(i) *)
  rewrite (setbcs_eval _ i re im).
  - ok_step. reflexivity.
  - cbn [real imag set_real set_imag]. by rewrite list_lookup_insert_ne by lia.
  - cbn [real imag set_real set_imag]. by rewrite list_lookup_insert_ne by lia.
  - rewrite Lre. lia.
  - rewrite Lim. lia.
Qed.

End LoopBody.

(** ** Endpoints of the stage vectors *)

Lemma Qcdiv_0_l (d : Qc) : 0 / d = 0.
Proof. unfold Qcdiv. ring. Qed.

Lemma deriv4_first junk (self : Wavefunction) (psi : list Qc) :
  (3 ≤ length psi)%nat → deriv4 junk self psi !! 0%nat = Some 0.
Proof.
  intros Hn. unfold deriv4, vdiv.
  rewrite list_lookup_fmap, df_dirichlet_first
    by (done || apply length_np_empty_like).
  cbn. by rewrite Qcdiv_0_l.
Qed.

Lemma deriv4_last junk (self : Wavefunction) (psi : list Qc) :
  (3 ≤ length psi)%nat →
  deriv4 junk self psi !! (length psi - 1)%nat = Some 0.
Proof.
  intros Hn. unfold deriv4, vdiv.
  rewrite list_lookup_fmap, df_dirichlet_last
    by (done || apply length_np_empty_like).
  cbn. by rewrite Qcdiv_0_l.
Qed.

(** [deriv] raises [IndexError] on fewer than three samples. *)
Lemma deriv4_short junk (self : Wavefunction) (psi : list Qc) :
  (length psi < 3)%nat → deriv junk self psi 4 true = Raise IndexError.
Proof.
  intros Hn. destruct psi as [|a [|b [|c psi]]]; [done..|].
  cbn in Hn. lia.
Qed.

Section StageEndpoints.
Variable D : list Qc → list Qc.
Variable h : Qc.
Variable w e : nat.
Hypothesis HD : ∀ psi, length psi = w → length (D psi) = w.
Hypothesis HDe : ∀ psi, length psi = w → D psi !! e = Some 0.

Lemma vscale_zero_at (c : Qc) (v : list Qc) :
  v !! e = Some 0 → vscale c v !! e = Some 0.
Proof.
  intros Hv. unfold vscale. rewrite list_lookup_fmap, Hv. cbn.
  f_equal. ring.
Qed.

Lemma stage_first_zero c u : length u = w → stage_first D c u !! e = Some 0.
Proof. intros Hu. apply vscale_zero_at. auto. Qed.

Lemma stage_half_zero c u k :
  length u = w → length k = w → stage_half D h c u k !! e = Some 0.
Proof.
  intros Hu Hk. apply vscale_zero_at, HDe.
  rewrite length_vplus; rewrite ?length_vdiv, ?length_vscale; congruence.
Qed.

Lemma stage_full_zero c u k :
  length u = w → length k = w → stage_full D h c u k !! e = Some 0.
Proof.
  intros Hu Hk. apply vscale_zero_at, HDe.
  rewrite length_vplus; rewrite ?length_vscale; congruence.
Qed.

Lemma weighted_sum_zero_at (v k0 k1 k2 k3 : list Qc) (a : Qc) :
  v !! e = Some a → k0 !! e = Some 0 → k1 !! e = Some 0 →
  k2 !! e = Some 0 → k3 !! e = Some 0 →
  weighted_sum h v k0 k1 k2 k3 !! e = Some a.
Proof.
  intros Hv H0 H1 H2 H3. unfold weighted_sum, vplus, vscale.
  rewrite lookup_zip_with, Hv. cbn.
  rewrite list_lookup_fmap, !lookup_zip_with, !list_lookup_fmap.
  rewrite H0, H1, H2, H3. cbn. f_equal. ring.
Qed.

(** The new row keeps the entry of the old row wherever the derivative
    operator returns zero. *)
Lemma code_next_keeps c u v a :
  length u = w → v !! e = Some a → code_next D h c u v !! e = Some a.
Proof.
  intros Hu Hv. unfold code_next.
  pose proof (length_stage_first D w HD c u Hu) as L0.
  pose proof (length_stage_half D h w HD c u _ Hu L0) as L1.
  pose proof (length_stage_half D h w HD c u _ Hu L1) as L2.
  apply weighted_sum_zero_at; first done.
  - by apply stage_first_zero.
  - by apply stage_half_zero.
  - by apply stage_half_zero.
  - by apply stage_full_zero.
Qed.

End StageEndpoints.

(** ** [np.linspace] and [range] *)

Lemma bind_Ok_inv {A B} (m : result A) (f : A → result B) (b : B) :
  m ≫= f = Ok b → ∃ a, m = Ok a ∧ f a = Ok b.
Proof. destruct m as [a|e]; [eauto | done]. Qed.

Lemma length_py_range (lo hi : Z) :
  length (py_range lo hi) = Z.to_nat (hi - lo).
Proof. unfold py_range. by rewrite length_fmap, length_seq. Qed.

Lemma lookup_py_range (lo hi : Z) (k : nat) :
  (k < Z.to_nat (hi - lo))%nat →
  py_range lo hi !! k = Some (lo + Z.of_nat k)%Z.
Proof.
  intros Hk. unfold py_range.
  by rewrite list_lookup_fmap, lookup_seq_lt.
Qed.

Lemma affine_at_end (a b q : Qc) : q ≠ 0 → b = a + q * (b - a) / q.
Proof. intros. field. done. Qed.

Lemma affine_at (a b c q : Qc) :
  q ≠ 0 → (b - a) / q * c + a = a + c * (b - a) / q.
Proof. intros. field. done. Qed.

Section Linspace.
Variables (start stop : Qc) (num : Z).
Hypothesis Hnum : (0 ≤ num)%Z.

Local Abbreviation ramp := (linspace_ramp start stop num).

Lemma length_ramp : length ramp = Z.to_nat num.
Proof.
  unfold linspace_ramp. rewrite length_fmap.
  case_decide; unfold vscale; rewrite !length_fmap, length_py_range;
    f_equal; lia.
Qed.

Lemma linspace_eval :
  linspace start stop num
  = Ok (if decide (1 < num)%Z
        then <[(Z.to_nat num - 1)%nat := stop]> ramp else ramp).
Proof.
  unfold linspace. rewrite decide_False by lia. fold (linspace_ramp start stop num).
  case_decide; [|done].
  rewrite setitem_back by (rewrite length_ramp; lia).
  by rewrite length_ramp.
Qed.

Lemma linspace_length (xs : list Qc) :
  linspace start stop num = Ok xs → length xs = Z.to_nat num.
Proof.
  rewrite linspace_eval. intros [= <-].
  case_decide; rewrite ?length_insert; apply length_ramp.
Qed.

Lemma linspace_lookup (xs : list Qc) (k : nat) :
  linspace start stop num = Ok xs → (2 ≤ num)%Z → (Z.of_nat k < num)%Z →
  xs !! k
  = Some (start + Qc_of_Z (Z.of_nat k) * (stop - start) / Qc_of_Z (num - 1)).
Proof.
  rewrite linspace_eval. intros [= <-] H2 Hk.
  rewrite decide_True by lia.
  assert (Hne : Qc_of_Z (num - 1) ≠ 0).
  { rewrite <- Z2Qc_inj_0. intros H%Z2Qc_inj. lia. }
  destruct (decide (k = Z.to_nat num - 1)%nat) as [->|Hne'].
  - rewrite list_lookup_insert_eq by (rewrite length_ramp; lia).
    replace (Z.of_nat (Z.to_nat num - 1)) with (num - 1)%Z by lia.
    f_equal. by apply affine_at_end.
  - rewrite list_lookup_insert_ne by done.
    unfold linspace_ramp. rewrite decide_True by lia. unfold vscale.
    rewrite !list_lookup_fmap, lookup_py_range by lia. cbn.
    f_equal. by apply affine_at.
Qed.

End Linspace.

(** A single sample is [start]. *)
Lemma linspace_one (start stop : Qc) : linspace start stop 1 = Ok [start].
Proof.
  rewrite linspace_eval by done. rewrite decide_False by lia.
  unfold linspace_ramp. rewrite decide_False by lia. cbn.
  apply (f_equal Ok), (f_equal (λ u, [u])).
  change (Qc_of_Z (0 + Z.of_nat 0)) with (Qc_of_Z 0).
  rewrite Z2Qc_inj_0. ring.
Qed.

(** ** [__init__] *)

Lemma length_empty2 junk site rows cols :
  length (empty2 junk site rows cols) = Z.to_nat rows.
Proof. unfold empty2. by rewrite length_fmap, length_seq. Qed.

Lemma empty2_widths junk site rows cols :
  Forall (λ r, length r = Z.to_nat cols) (empty2 junk site rows cols).
Proof.
  unfold empty2. apply Forall_fmap, Forall_forall. intros i _. cbn.
  by rewrite length_fmap, length_seq.
Qed.

Lemma np_empty2_Ok junk site rows cols :
  (0 ≤ rows)%Z → (0 ≤ cols)%Z →
  np_empty2 junk site rows cols = Ok (empty2 junk site rows cols).
Proof. intros. unfold np_empty2. by rewrite decide_False by lia. Qed.

Lemma np_empty2_inv junk site rows cols a :
  np_empty2 junk site rows cols = Ok a →
  (0 ≤ rows)%Z ∧ (0 ≤ cols)%Z ∧ a = empty2 junk site rows cols.
Proof.
  unfold np_empty2. case_decide; [done|]. intros [= <-].
  repeat split; lia.
Qed.

Lemma py_div_Ok (a b c : Qc) : py_div a b = Ok c → b ≠ 0 ∧ c = a / b.
Proof. unfold py_div. case_decide; [done|]. by intros [= <-]. Qed.



Lemma square_nonzero_inv (d : Qc) : 2 * (d * d) ≠ 0 → d ≠ 0.
Proof. intros H ->. apply H. ring. Qed.

Lemma py_index_zero (n i : nat) : py_index n 0 = Ok i → i = 0%nat ∧ (0 < n)%nat.
Proof. unfold py_index. repeat case_decide; intros [= <-]; lia. Qed.

Lemma assign_row_inv (a a' : list (list Qc)) (k : Z) (v : list Qc) :
  assign_row a k v = Ok a' →
  ∃ i row v', py_index (length a) k = Ok i ∧ a !! i = Some row
    ∧ broadcast_to (length row) v = Ok v' ∧ a' = <[i := v']> a.
Proof.
  unfold assign_row. intros H.
  apply bind_Ok_inv in H as (row & Hrow & H).
  apply bind_Ok_inv in H as (v' & Hv & H).
  apply getitem_Ok in Hrow as (i & Hi & Hrow).
  apply setitem_Ok in H as (i' & Hi' & ->).
  rewrite Hi in Hi'. injection Hi' as <-. eauto 10.
Qed.

Lemma setitem2_Ok (a a' : list (list Qc)) (key col : Z) (v : Qc) :
  setitem2 a key col v = Ok a' →
  ∃ i row, a !! i = Some row ∧ (0 < length row)%nat.
Proof.
  unfold setitem2. intros H.
  apply bind_Ok_inv in H as (row & Hrow & H).
  apply bind_Ok_inv in H as (row' & Hrow' & H).
  apply getitem_Ok in Hrow as (i & Hi & Hrow).
  apply setitem_Ok in Hrow' as (j & Hj & _).
  apply py_index_Ok in Hj as [Hj _]. exists i, row. split; [done|lia].
Qed.

Lemma setbcs_inv_width (self self' : Wavefunction) (u : unit) :
  _setbcs 0 self = Ok (u, self') →
  ∃ r, real self !! 0%nat = Some r ∧ (0 < length r)%nat.
Proof.
  unfold _setbcs, c_to_tup. intros H.
  apply bind_Ok_inv in H as (a' & Ha' & _).
  unfold setitem2 in Ha'.
  apply bind_Ok_inv in Ha' as (row & Hrow & Ha').
  apply bind_Ok_inv in Ha' as (row' & Hrow' & _).
  apply getitem_Ok in Hrow as (i & Hi & Hrow).
  apply py_index_zero in Hi as [-> _].
  apply setitem_Ok in Hrow' as (j & Hj & _).
  apply py_index_Ok in Hj as [Hj _]. exists row. split; [done | lia].
Qed.

Lemma assign_row_bcast (a : list (list Qc)) (k : Z) (row v v' : list Qc) :
  (0 ≤ k)%Z → a !! Z.to_nat k = Some row →
  broadcast_to (length row) v = Ok v' →
  assign_row a k v = Ok (<[Z.to_nat k := v']> a).
Proof.
  intros Hk Ha Hv. unfold assign_row.
  rewrite (getitem_lit _ _ _ Hk Ha). ok_step. rewrite Hv. ok_step.
  apply setitem_front. apply lookup_lt_Some in Ha. lia.
Qed.

Section Init.
Variable junk : nat → nat → nat → Qc.
Variable initial : list Qc → list complex.
Variables (dx dt_ : Qc) (xrange trange : Qc * Qc).
Variable b : complex * complex.

Local Abbreviation nx_ := (grid_count dx xrange).
Local Abbreviation nt_ := (grid_count dt_ trange).
Local Abbreviation INIT := (__init__ junk initial dx dt_ xrange trange b).

(** The statements of [__init__] after the two counts are known. *)
Lemma init_tail_eval (NX NT : Z) (mu_ : Qc) (xs ts r0 m0 : list Qc) :
  (1 ≤ NX)%Z → (1 ≤ NT)%Z →
  broadcast_to (Z.to_nat NX) (np_real (initial xs)) = Ok r0 →
  broadcast_to (Z.to_nat NX) (np_imag (initial xs)) = Ok m0 →
  (real ← assign_row (empty2 junk 0 NT NX) 0 (np_real (initial xs));
   imag ← assign_row (empty2 junk 1 NT NX) 0 (np_imag (initial xs));
   '(_, self) ← _setbcs 0
     (mkWavefunction (dx * dx) dt_ mu_ NX NT real imag (NT, NX) xs ts b);
   Ok self)
  = Ok (mkWavefunction (dx * dx) dt_ mu_ NX NT
          (<[0%nat := pin_row (creal b.1) (creal b.2) r0]> (empty2 junk 0 NT NX))
          (<[0%nat := pin_row (cimag b.1) (cimag b.2) m0]> (empty2 junk 1 NT NX))
          (NT, NX) xs ts b).
Proof.
  intros Hnx Hnt Hr0 Hm0.
  assert (Hrow : ∀ site, ∃ row, empty2 junk site NT NX !! 0%nat = Some row
                                ∧ length row = Z.to_nat NX).
  { intros site.
    destruct (empty2 junk site NT NX !! 0%nat) as [row|] eqn:E.
    - exists row. split; [done|].
      by apply (Forall_lookup_1 _ _ _ _ (empty2_widths junk site NT NX) E).
    - apply lookup_ge_None in E. rewrite length_empty2 in E. lia. }
  destruct (Hrow 0%nat) as (row0 & E0 & L0).
  destruct (Hrow 1%nat) as (row1 & E1 & L1).
  assert (Lr0 : length r0 = Z.to_nat NX) by (by eapply broadcast_to_length).
  assert (Lm0 : length m0 = Z.to_nat NX) by (by eapply broadcast_to_length).
  rewrite (assign_row_bcast (empty2 junk 0 NT NX) 0 row0 _ r0)
    by (done || by rewrite L0).
  ok_step.
  rewrite (assign_row_bcast (empty2 junk 1 NT NX) 0 row1 _ m0)
    by (done || by rewrite L1).
  ok_step.
  rewrite (setbcs_eval _ 0 r0 m0).
  - ok_step. unfold set_real, set_imag.
    cbn [real imag boundaries dx2 dt mu nx nt shape x t].
    by rewrite !list_insert_insert_eq.
  - apply list_lookup_insert_eq. rewrite length_empty2. lia.
  - apply list_lookup_insert_eq. rewrite length_empty2. lia.
  - lia.
  - lia.
Qed.


(** Conversely, these conditions are all that a completed construction
    implies. *)
Lemma init_inv (w : Wavefunction) :
  INIT = Ok w →
  dx ≠ 0 ∧ dt_ ≠ 0 ∧ (1 ≤ nx_)%Z ∧ (1 ≤ nt_)%Z
  ∧ ∃ xs ts r0 m0,
      linspace xrange.1 xrange.2 nx_ = Ok xs
      ∧ linspace xrange.1 xrange.2 nt_ = Ok ts
      ∧ broadcast_to (Z.to_nat nx_) (np_real (initial xs)) = Ok r0
      ∧ broadcast_to (Z.to_nat nx_) (np_imag (initial xs)) = Ok m0
      ∧ w = init_value junk dx dt_ xrange trange b xs ts r0 m0.
Proof.
  unfold init_value, grid_count, __init__. intros H.
  apply bind_Ok_inv in H as (mu_ & Hmu & H).
  apply bind_Ok_inv in H as (qx & Hqx & H).
  apply bind_Ok_inv in H as (qt & Hqt & H).
  apply py_div_Ok in Hmu as [Hdx%square_nonzero_inv ->].
  apply py_div_Ok in Hqx as [_ ->]. apply py_div_Ok in Hqt as [Hdt ->].
  revert H.
  generalize (py_round ((xrange.2 - xrange.1) / dx)).
  generalize (py_round ((trange.2 - trange.1) / dt_)).
  intros NT NX H.
  apply bind_Ok_inv in H as (real0 & Hreal0 & H).
  apply bind_Ok_inv in H as (imag0 & Himag0 & H).
  apply np_empty2_inv in Hreal0 as (Hnt0 & Hnx0 & ->).
  apply np_empty2_inv in Himag0 as (_ & _ & ->).
  apply bind_Ok_inv in H as (xs & Hxs & H).
  apply bind_Ok_inv in H as (ts & Hts & H).
  pose proof H as H'.
  apply bind_Ok_inv in H as (real1 & Hreal1 & H).
  apply bind_Ok_inv in H as (imag1 & Himag1 & H).
  apply bind_Ok_inv in H as ([[] self] & Hbcs & H).
  apply assign_row_inv in Hreal1 as (i & row & r0 & Hi & Hrow & Hr0 & ->).
  apply assign_row_inv in Himag1 as (i' & row' & m0 & Hi' & Hrow' & Hm0 & ->).
  apply py_index_zero in Hi as [-> Hnt]. apply py_index_zero in Hi' as [-> _].
  rewrite length_empty2 in Hnt.
  pose proof (Forall_lookup_1 _ _ _ _ (empty2_widths junk 0 NT NX) Hrow)
    as Lrow.
  pose proof (Forall_lookup_1 _ _ _ _ (empty2_widths junk 1 NT NX) Hrow')
    as Lrow'.
  cbv beta in Lrow, Lrow'. rewrite Lrow in Hr0. rewrite Lrow' in Hm0.
  assert (Hnx : (1 ≤ NX)%Z).
  { apply setbcs_inv_width in Hbcs as (r & Hr & Hlen).
    cbn [real] in Hr.
    rewrite list_lookup_insert_eq in Hr by (rewrite length_empty2; lia).
    injection Hr as <-.
    erewrite broadcast_to_length in Hlen by done. lia. }
  repeat split; [done | done | done | lia |].
  exists xs, ts, r0, m0. repeat split; try done.
  rewrite (init_tail_eval NX NT _ xs ts r0 m0) in H' by (done || lia).
  by injection H'.
Qed.

End Init.

(** ** The loop of [solve] *)

Lemma pin_row_length b0 b1 r : length (pin_row b0 b1 r) = length r.
Proof. unfold pin_row. by rewrite !length_insert. Qed.

Lemma pin_row_last b0 b1 r :
  (0 < length r)%nat → pin_row b0 b1 r !! (length r - 1)%nat = Some b1.
Proof.
  intros. unfold pin_row. apply list_lookup_insert_eq.
  rewrite length_insert. lia.
Qed.

Lemma pin_row_first b0 b1 r :
  (2 ≤ length r)%nat → pin_row b0 b1 r !! 0%nat = Some b0.
Proof.
  intros. unfold pin_row. rewrite list_lookup_insert_ne by lia.
  apply list_lookup_insert_eq. lia.
Qed.

Lemma pin_row_inner b0 b1 r c :
  c ≠ 0%nat → c ≠ (length r - 1)%nat → pin_row b0 b1 r !! c = r !! c.
Proof.
  intros. unfold pin_row. by rewrite !list_lookup_insert_ne by done.
Qed.

Lemma pin_row_pinned b0 b1 r :
  (2 ≤ length r)%nat → row_pinned b0 b1 (pin_row b0 b1 r).
Proof.
  intros. split; [by apply pin_row_first|].
  rewrite pin_row_length. apply pin_row_last. lia.
Qed.

Lemma has_shape_lookup n w a (i : nat) :
  has_shape n w a → (i < n)%nat → ∃ r, a !! i = Some r ∧ length r = w.
Proof.
  intros [Hn Hw] Hi.
  destruct (lookup_lt_is_Some_2 a i) as [r Hr]; [lia|].
  exists r. split; [done|]. by apply (Forall_lookup_1 _ _ _ _ Hw Hr).
Qed.

Lemma has_shape_insert n w a (i : nat) r :
  has_shape n w a → length r = w → has_shape n w (<[i := r]> a).
Proof.
  intros [Hn Hw] Hr. split; [by rewrite length_insert|].
  by apply Forall_insert.
Qed.

Lemma same_config_refl s : same_config s s.
Proof. by repeat split. Qed.

Lemma same_config_trans s1 s2 s3 :
  same_config s1 s2 → same_config s2 s3 → same_config s1 s3.
Proof.
  unfold same_config. intros H1 H2.
  destruct H1 as (?&?&?&?&?&?&?&?&?), H2 as (?&?&?&?&?&?&?&?&?).
  repeat split; etrans; eauto.
Qed.

Lemma code_stages_shape (D : list Qc → list Qc) (h c : Qc) (w : nat) u :
  (∀ psi, length psi = w → length (D psi) = w) → length u = w →
  has_shape 4 w (code_stages D h c u).
Proof.
  intros HD Hu. split; [done|]. unfold code_stages.
  pose proof (length_stage_first D w HD c u Hu) as L0.
  pose proof (length_stage_half D h w HD c u _ Hu L0) as L1.
  pose proof (length_stage_half D h w HD c u _ Hu L1) as L2.
  pose proof (length_stage_full D h w HD c u _ Hu L2) as L3.
  repeat constructor; done.
Qed.

Section Loop.
Variable junk : nat → nat → nat → Qc.
Variables n w : nat.
Hypothesis Hw : (3 ≤ w)%nat.

Local Abbreviation Inv k self :=
  (has_shape n w (real self) ∧ has_shape n w (imag self)
   ∧ pinned_upto k self).

Lemma solve_body_step (k : nat) (kb : kbufs) (self : Wavefunction) :
  (S k < n)%nat → Inv k self →
  has_shape 4 w kb.1 → has_shape 4 w kb.2 →
  ∃ kb' self',
    solve_body junk (Z.of_nat k) kb self = Ok (kb', self')
    ∧ Inv (S k) self' ∧ has_shape 4 w kb'.1 ∧ has_shape 4 w kb'.2
    ∧ same_config self self'.
Proof.
  intros Hk (Sr & Si & Pr & Pi) [Lkr Fkr] [Lki Fki].
  destruct kb as [kreal kimag]. cbn [fst snd] in *.
  destruct (has_shape_lookup _ _ _ k Sr) as (re & Hre & Lre); [lia|].
  destruct (has_shape_lookup _ _ _ k Si) as (im & Him & Lim); [lia|].
  destruct (has_shape_lookup _ _ _ (S k) Sr) as (re1 & Hre1 & Lre1); [lia|].
  destruct (has_shape_lookup _ _ _ (S k) Si) as (im1 & Him1 & Lim1); [lia|].
  assert (HD : ∀ psi, length psi = w → length (deriv4 junk self psi) = w)
    by (intros; by apply width_deriv4).
  assert (HD0 : ∀ psi, length psi = w → deriv4 junk self psi !! 0%nat = Some 0)
    by (intros psi <-; by apply deriv4_first).
  assert (HD1 : ∀ psi, length psi = w →
                       deriv4 junk self psi !! (w - 1)%nat = Some 0)
    by (intros psi <-; by apply deriv4_last).
  eexists _, _. split.
  { by apply (solve_body_eval junk self k w re im re1 im1). }
  cbn [real imag boundaries fst snd set_real set_imag].
  destruct (Pr k re (le_n k) Hre) as [Pre0 Pre1].
  destruct (Pi k im (le_n k) Him) as [Pim0 Pim1].
  rewrite Lre in Pre1. rewrite Lim in Pim1.
  assert (Lnr : length (code_next (deriv4 junk self) (dt self) (- half) im re)
                = w) by (by apply length_code_next).
  assert (Lni : length (code_next (deriv4 junk self) (dt self) half re im) = w)
    by (by apply length_code_next).
  split_and!.
  - apply has_shape_insert; [by apply has_shape_insert|].
    by rewrite pin_row_length.
  - apply has_shape_insert; [by apply has_shape_insert|].
    by rewrite pin_row_length.
  - split.
    + intros j r Hj Hr. cbn [real imag boundaries set_real set_imag] in *.
      destruct (decide (j = k)) as [->|Hjk].
      { rewrite list_lookup_insert_eq in Hr
          by (rewrite length_insert, (proj1 Sr); lia).
        injection Hr as <-. apply pin_row_pinned. lia. }
      rewrite list_lookup_insert_ne in Hr by done.
      destruct (decide (j = S k)) as [->|HjS].
      { rewrite list_lookup_insert_eq in Hr by (rewrite (proj1 Sr); lia).
        injection Hr as <-. split.
        - by apply (code_next_keeps _ _ w 0).
        - rewrite Lnr. by apply (code_next_keeps _ _ w (w - 1)). }
      rewrite list_lookup_insert_ne in Hr by done.
      apply (Pr j); [lia | done].
    + intros j m Hj Hm. cbn [real imag boundaries set_real set_imag] in *.
      destruct (decide (j = k)) as [->|Hjk].
      { rewrite list_lookup_insert_eq in Hm
          by (rewrite length_insert, (proj1 Si); lia).
        injection Hm as <-. apply pin_row_pinned. lia. }
      rewrite list_lookup_insert_ne in Hm by done.
      destruct (decide (j = S k)) as [->|HjS].
      { rewrite list_lookup_insert_eq in Hm by (rewrite (proj1 Si); lia).
        injection Hm as <-. split.
        - by apply (code_next_keeps _ _ w 0).
        - rewrite Lni. by apply (code_next_keeps _ _ w (w - 1)). }
      rewrite list_lookup_insert_ne in Hm by done.
      apply (Pi j); [lia | done].
  - by apply code_stages_shape.
  - by apply code_stages_shape.
  - by repeat split.
Qed.

Lemma pinned_upto_config k s s' :
  real s' = real s → imag s' = imag s → boundaries s' = boundaries s →
  pinned_upto k s → pinned_upto k s'.
Proof. unfold pinned_upto. by intros -> -> ->. Qed.

Lemma for_loop_solve (m k : nat) (kb : kbufs) (self : Wavefunction) :
  (k + m < n)%nat → Inv k self →
  has_shape 4 w kb.1 → has_shape 4 w kb.2 →
  ∃ kb' self',
    for_loop (solve_body junk)
      ((λ j : nat, (0 + Z.of_nat j)%Z) <$> seq k m) kb self
    = Ok (kb', self')
    ∧ Inv (k + m) self' ∧ same_config self self'.
Proof.
  revert k kb self. induction m as [|m IH]; intros k kb self Hk HI Hkr Hki.
  - exists kb, self. rewrite Nat.add_0_r. cbn.
    split; [done|]. split; [done|]. apply same_config_refl.
  - destruct (solve_body_step k kb self) as (kb1 & s1 & E1 & I1 & K1 & K2 & C1);
      [lia | done..|].
    destruct (IH (S k) kb1 s1) as (kb2 & s2 & E2 & I2 & C2); [lia | done..|].
    exists kb2, s2. split.
    + cbn [seq fmap list_fmap for_loop].
      change (0 + Z.of_nat k)%Z with (Z.of_nat k). rewrite E1. ok_step.
      exact E2.
    + replace (k + S m)%nat with (S k + m)%nat by lia.
      split; [done|]. by eapply same_config_trans.
Qed.

End Loop.

Lemma py_range_seq (hi : Z) :
  py_range 0 hi = (λ j : nat, (0 + Z.of_nat j)%Z) <$> seq 0 (Z.to_nat hi).
Proof. unfold py_range. by rewrite Z.sub_0_r. Qed.

(** [solve] completes on every object whose arrays have [nt] rows of width
    [nx >= 3] with row 0 pinned, and leaves every row pinned. *)
Lemma solve_pins junk (self : Wavefunction) :
  (1 ≤ nt self)%Z → (3 ≤ nx self)%Z →
  has_shape (Z.to_nat (nt self)) (Z.to_nat (nx self)) (real self) →
  has_shape (Z.to_nat (nt self)) (Z.to_nat (nx self)) (imag self) →
  pinned_upto 0 self →
  ∃ self',
    solve junk self = Ok ((), self')
    ∧ has_shape (Z.to_nat (nt self)) (Z.to_nat (nx self)) (real self')
    ∧ has_shape (Z.to_nat (nt self)) (Z.to_nat (nx self)) (imag self')
    ∧ pinned_upto (Z.to_nat (nt self) - 1) self'
    ∧ same_config self self'.
Proof.
  intros Hnt Hnx Sr Si P0. unfold solve.
  rewrite !np_empty2_Ok by lia. do 2 ok_step.
  rewrite py_range_seq.
  destruct (for_loop_solve junk (Z.to_nat (nt self)) (Z.to_nat (nx self))
              ltac:(lia) (Z.to_nat (nt self - 1)) 0
              (empty2 junk 3 4 (nx self), empty2 junk 4 4 (nx self)) self)
    as (kb' & self' & E & (Sr' & Si' & P') & C).
  - lia.
  - done.
  - split; cbn [fst snd]; [by rewrite length_empty2 | apply empty2_widths].
  - split; cbn [fst snd]; [by rewrite length_empty2 | apply empty2_widths].
  - exists self'. rewrite E. ok_step. split; [done|].
    replace (Z.to_nat (nt self) - 1)%nat with (0 + Z.to_nat (nt self - 1))%nat
      by lia.
    done.
Qed.

(** ** The recurrence of the specification *)

Lemma Qc_two_nonzero : (2 : Qc) ≠ 0.
Proof. by intros H%(f_equal this). Qed.

Lemma Qc_six_nonzero : Qc_of_Z 6 ≠ 0.
Proof. rewrite <- Z2Qc_inj_0. by intros H%Z2Qc_inj. Qed.

Lemma half_step_scalar (h k : Qc) : h * k / 2 = h / 2 * k.
Proof. field. apply Qc_two_nonzero. Qed.

Lemma vdiv_vscale_half (h : Qc) (k : list Qc) :
  vdiv (vscale h k) 2 = vscale (h / 2) k.
Proof.
  unfold vdiv, vscale. rewrite <- list_fmap_compose.
  apply list_fmap_ext. intros i u _. cbn. apply half_step_scalar.
Qed.

Lemma weights_scalar (h v a0 a1 a2 a3 : Qc) :
  v + h * (sixth * a0 + third * a1 + third * a2 + sixth * a3)
  = v + h * (a0 + 2 * a1 + 2 * a2 + a3) / Qc_of_Z 6.
Proof.
  unfold sixth, third.
  assert (H3 : Qc_of_Z 3 ≠ 0)
    by (rewrite <- Z2Qc_inj_0; by intros H%Z2Qc_inj).
  assert (E : Qc_of_Z 6 = 2 * Qc_of_Z 3).
  { rewrite <- Z2Qc_inj_2, <- Z2Qc_inj_mul. done. }
  rewrite E. field. split; [done | apply Qc_two_nonzero].
Qed.

(** The coefficient form [(1/6) k0 + (1/3) k1 + (1/3) k2 + (1/6) k3] of
    [solve] is the weighted sum [(k0 + 2 k1 + 2 k2 + k3) / 6]. *)
Lemma weighted_sum_spec (h : Qc) (v k0 k1 k2 k3 : list Qc) :
  length k0 = length v → length k1 = length v → length k2 = length v →
  length k3 = length v →
  weighted_sum h v k0 k1 k2 k3
  = vplus v
      (vdiv (vscale h (vplus (vplus (vplus k0 (vscale 2 k1)) (vscale 2 k2)) k3))
         (Qc_of_Z 6)).
Proof.
  unfold weighted_sum, vplus, vscale, vdiv.
  revert k0 k1 k2 k3.
  induction v as [|a v IH]; intros [|a0 k0] [|a1 k1] [|a2 k2] [|a3 k3];
    try done.
  intros [= L0] [= L1] [= L2] [= L3].
  cbn [zip_with fmap list_fmap]. f_equal.
  - apply weights_scalar.
  - by apply IH.
Qed.

Section SpecAdvance.
Variable junk : nat → nat → nat → Qc.
Variable self : Wavefunction.
Variables (w : nat) (re im : list Qc).
Hypothesis Hw : (3 ≤ w)%nat.
Hypothesis Lre : length re = w.
Hypothesis Lim : length im = w.

Local Abbreviation D := (deriv4 junk self).
Local Abbreviation h := (dt self).

(** The recurrence of the specification, run with the derivative operator
    of the code, yields the values [solve] computes. *)
Lemma spec_advance_eval :
  spec_advance (λ psi, deriv junk self psi 4 true) h re im
  = Ok (mk_rk4_step (code_stages D h (- half) im) (code_stages D h half re)
          (code_next D h (- half) im re) (code_next D h half re im)).
Proof.
  assert (HD : ∀ psi, length psi = w → length (D psi) = w)
    by (intros; by apply width_deriv4).
  pose proof (length_stage_first D w HD (- half) im Lim) as Lkr0.
  pose proof (length_stage_first D w HD half re Lre) as Lki0.
  pose proof (length_stage_half D h w HD (- half) im _ Lim Lkr0) as Lkr1.
  pose proof (length_stage_half D h w HD half re _ Lre Lki0) as Lki1.
  pose proof (length_stage_half D h w HD (- half) im _ Lim Lkr1) as Lkr2.
  pose proof (length_stage_half D h w HD half re _ Lre Lki1) as Lki2.
  pose proof (length_stage_full D h w HD (- half) im _ Lim Lkr2) as Lkr3.
  pose proof (length_stage_full D h w HD half re _ Lre Lki2) as Lki3.
  unfold spec_advance.
  rewrite (deriv4_code junk self im) by width. ok_step. cbv zeta.
  rewrite (deriv4_code junk self re) by width. ok_step. cbv zeta.
  fold (stage_first D (- half) im). fold (stage_first D half re).
  rewrite <- !vdiv_vscale_half.
  rewrite (deriv4_code junk self
             (vplus im (vdiv (vscale h (stage_first D (- half) im)) 2)))
    by (apply width_ge3 with w; [done | width_eq]).
  ok_step.
  rewrite (deriv4_code junk self
             (vplus re (vdiv (vscale h (stage_first D half re)) 2)))
    by (apply width_ge3 with w; [done | width_eq]).
  ok_step.
  fold (stage_half D h (- half) im (stage_first D (- half) im)).
  fold (stage_half D h half re (stage_first D half re)).
  rewrite <- !vdiv_vscale_half.
  rewrite (deriv4_code junk self
             (vplus im (vdiv (vscale h
                (stage_half D h (- half) im (stage_first D (- half) im))) 2)))
    by (apply width_ge3 with w; [done | width_eq]).
  ok_step.
  rewrite (deriv4_code junk self
             (vplus re (vdiv (vscale h
                (stage_half D h half re (stage_first D half re))) 2)))
    by (apply width_ge3 with w; [done | width_eq]).
  ok_step.
  fold (stage_half D h (- half) im
          (stage_half D h (- half) im (stage_first D (- half) im))).
  fold (stage_half D h half re (stage_half D h half re (stage_first D half re))).
  rewrite (deriv4_code junk self
             (vplus im (vscale h (stage_half D h (- half) im
                (stage_half D h (- half) im (stage_first D (- half) im))))))
    by (apply width_ge3 with w; [done | width_eq]).
  ok_step.
  rewrite (deriv4_code junk self
             (vplus re (vscale h (stage_half D h half re
                (stage_half D h half re (stage_first D half re))))))
    by (apply width_ge3 with w; [done | width_eq]).
  ok_step.
  fold (stage_full D h (- half) im (stage_half D h (- half) im
          (stage_half D h (- half) im (stage_first D (- half) im)))).
  fold (stage_full D h half re (stage_half D h half re
          (stage_half D h half re (stage_first D half re)))).
  unfold code_next, code_stages. cbv zeta.
  rewrite !weighted_sum_spec by congruence.
  reflexivity.
Qed.

End SpecAdvance.

(** ** The object after [__init__] *)

Section AfterInit.
Variable junk : nat → nat → nat → Qc.
Variable initial : list Qc → list complex.
Variables (dx dt_ : Qc) (xrange trange : Qc * Qc).
Variable b : complex * complex.
Variable self : Wavefunction.
Hypothesis Hinit : __init__ junk initial dx dt_ xrange trange b = Ok self.

Lemma init_counts :
  nx self = grid_count dx xrange ∧ nt self = grid_count dt_ trange
  ∧ (1 ≤ nx self)%Z ∧ (1 ≤ nt self)%Z.
Proof.
  destruct (init_inv _ _ _ _ _ _ _ _ Hinit)
    as (_ & _ & Hnx & Hnt & xs & ts & r0 & m0 & _ & _ & _ & _ & ->).
  by cbn.
Qed.

Lemma init_config :
  dx2 self = dx * dx ∧ dx2 self ≠ 0 ∧ dt self = dt_ ∧ dt self ≠ 0
  ∧ boundaries self = b ∧ shape self = (nt self, nx self).
Proof.
  destruct (init_inv _ _ _ _ _ _ _ _ Hinit)
    as (Hdx & Hdt & _ & _ & xs & ts & r0 & m0 & _ & _ & _ & _ & ->).
  cbn. split_and!; try done.
  intros H. by apply Qcmult_integral in H as [H|H].
Qed.

Lemma init_axes :
  linspace xrange.1 xrange.2 (nx self) = Ok (x self)
  ∧ linspace xrange.1 xrange.2 (nt self) = Ok (t self).
Proof.
  destruct (init_inv _ _ _ _ _ _ _ _ Hinit)
    as (_ & _ & _ & _ & xs & ts & r0 & m0 & Hxs & Hts & _ & _ & ->).
  by cbn.
Qed.

Lemma init_shape :
  has_shape (Z.to_nat (nt self)) (Z.to_nat (nx self)) (real self)
  ∧ has_shape (Z.to_nat (nt self)) (Z.to_nat (nx self)) (imag self).
Proof.
  destruct (init_inv _ _ _ _ _ _ _ _ Hinit)
    as (_ & _ & _ & _ & xs & ts & r0 & m0 & _ & _ & Hr0 & Hm0 & ->).
  apply broadcast_to_length in Hr0, Hm0.
  cbn [init_value real imag nx nt].
  split; (apply has_shape_insert;
          [split; [apply length_empty2 | apply empty2_widths]
          | by rewrite pin_row_length]).
Qed.

(** Row 0 holds the second boundary value in its last entry, and the first
    one in its first entry when the grid has at least two points. *)
Lemma init_row0 :
  ∃ r m, real self !! 0%nat = Some r ∧ imag self !! 0%nat = Some m
    ∧ length r = Z.to_nat (nx self) ∧ length m = Z.to_nat (nx self)
    ∧ r !! (Z.to_nat (nx self) - 1)%nat = Some (creal b.2)
    ∧ m !! (Z.to_nat (nx self) - 1)%nat = Some (cimag b.2)
    ∧ ((2 ≤ nx self)%Z →
       r !! 0%nat = Some (creal b.1) ∧ m !! 0%nat = Some (cimag b.1)).
Proof.
  destruct (init_inv _ _ _ _ _ _ _ _ Hinit)
    as (_ & _ & Hnx & Hnt & xs & ts & r0 & m0 & _ & _ & Hr0 & Hm0 & ->).
  apply broadcast_to_length in Hr0, Hm0.
  cbn [init_value real imag nx nt boundaries].
  eexists _, _. split_and!.
  - apply list_lookup_insert_eq. rewrite length_empty2. lia.
  - apply list_lookup_insert_eq. rewrite length_empty2. lia.
  - by rewrite pin_row_length.
  - by rewrite pin_row_length.
  - rewrite <- Hr0. apply pin_row_last. lia.
  - rewrite <- Hm0. apply pin_row_last. lia.
  - intros H2. split; apply pin_row_first; lia.
Qed.

Lemma init_pinned : (2 ≤ nx self)%Z → pinned_upto 0 self.
Proof.
  intros H2.
  destruct init_row0 as (r & m & Hr & Hm & Lr & Lm & Er & Em & E0).
  destruct (E0 H2) as [Er0 Em0].
  destruct init_config as (_ & _ & _ & _ & Hb & _).
  unfold pinned_upto. rewrite Hb.
  split; intros j u Hj Hu; assert (j = 0%nat) as -> by lia.
  - rewrite Hr in Hu. injection Hu as <-. split; [done|]. by rewrite Lr.
  - rewrite Hm in Hu. injection Hu as <-. split; [done|]. by rewrite Lm.
Qed.

End AfterInit.

(** ** [solve] on degenerate shapes *)

(** With a single time row the loop does not run. *)
Lemma solve_one_row junk (self : Wavefunction) :
  nt self = 1%Z → (0 ≤ nx self)%Z → solve junk self = Ok ((), self).
Proof.
  intros Hnt Hnx. unfold solve. rewrite !np_empty2_Ok by lia. do 2 ok_step.
  by rewrite Hnt.
Qed.

(** With a second row to fill and fewer than three grid points, the first
    call of [deriv] raises [IndexError]. *)
Lemma solve_narrow junk (self : Wavefunction) :
  (2 ≤ nt self)%Z → (0 ≤ nx self < 3)%Z →
  has_shape (Z.to_nat (nt self)) (Z.to_nat (nx self)) (imag self) →
  solve junk self = Raise IndexError.
Proof.
  intros Hnt Hnx Si. unfold solve. rewrite !np_empty2_Ok by lia. do 2 ok_step.
  rewrite py_range_seq.
  destruct (Z.to_nat (nt self - 1)) as [|m] eqn:E; [lia|].
  cbn [seq fmap list_fmap for_loop].
  destruct (has_shape_lookup _ _ _ 0 Si) as (im & Him & Lim); [lia|].
  unfold solve_body. change (0 + Z.of_nat 0)%Z with (Z.of_nat 0).
  rewrite (getitem_nat _ _ _ Him). ok_step.
  rewrite deriv4_short by lia. reflexivity.
Qed.

(** ** [deriv] on buffers agrees with [deriv] on values *)

Lemma load_Some (σ : store) (a : nat) (v : list Qc) :
  σ !! a = Some v → load σ a = Ok v.
Proof. unfold load. by intros ->. Qed.

Section StoreCell.
Variables (σ : store) (psi : nat) (p : list Qc).
Hypothesis Hp : σ !! psi = Some p.

Lemma load_old (d : list Qc) : load (σ ++ [d]) psi = Ok p.
Proof. unfold load. by rewrite (lookup_app_l_Some _ _ _ _ Hp). Qed.

Lemma load_new (d : list Qc) : load (σ ++ [d]) (length σ) = Ok d.
Proof.
  unfold load. rewrite lookup_app_r by lia. by rewrite Nat.sub_diag.
Qed.

Lemma store_new (d d' : list Qc) :
  store_at (σ ++ [d]) (length σ) d' = σ ++ [d'].
Proof.
  unfold store_at. rewrite insert_app_r_alt by lia.
  by rewrite Nat.sub_diag.
Qed.

End StoreCell.

(** The computation at the head of a chain of binds. *)
Ltac head_of m :=
  lazymatch m with
  | @mbind result _ _ _ _ ?m' => head_of m'
  | _ => m
  end.

Ltac case_head :=
  match goal with
  | |- match ?s with Ok _ => _ | Raise _ => _ end =>
      let h := head_of s in
      lazymatch h with
      | Ok _ => fail
      | Raise _ => fail
      | _ => let E := fresh "E" in destruct h eqn:E
      end
  end.

Lemma deriv_mem_sim junk (self : Wavefunction) (σ : store) (psi : nat)
    (p : list Qc) (order : Z) (dirichlet : bool) :
  σ !! psi = Some p →
  match deriv junk self p order dirichlet with
  | Ok r => ∃ d, deriv_mem junk self psi order dirichlet σ
                 = Ok (S (length σ), σ ++ [d; r])
  | Raise e => deriv_mem junk self psi order dirichlet σ = Raise e
  end.
Proof.
  intros Hp. unfold deriv_mem, deriv, alloc.
  rewrite (load_Some σ psi p Hp). ok_step.
  destruct dirichlet; repeat case_decide;
    repeat first
      [ rewrite bind_Ok
      | rewrite bind_Raise
      | rewrite (load_old σ psi p Hp)
      | rewrite load_new
      | rewrite store_new
      | progress cbv beta iota zeta
      | match goal with E : ?h = Ok _ |- _ => rewrite E end
      | match goal with E : ?h = Raise _ |- _ => rewrite E end
      | case_head ].
  all: try reflexivity.
  all: eexists; rewrite length_app, Nat.add_1_r, <- app_assoc; reflexivity.
Qed.

(** ** [prob] *)

Lemma Qc_square_nonneg (a : Qc) : 0 ≤ a * a.
Proof.
  destruct (Qclt_le_dec a 0) as [Hneg|Hpos].
  - replace (a * a) with ((- a) * (- a)) by ring.
    assert (0 ≤ - a).
    { apply Qclt_le_weak in Hneg. apply Qcopp_le_compat in Hneg.
      by replace (- 0) with 0 in Hneg by ring. }
    by apply Qcmult_nonneg_nonneg.
  - by apply Qcmult_nonneg_nonneg.
Qed.

Lemma prob_eval (self : Wavefunction) (i : nat) (re im : list Qc) :
  real self !! i = Some re → imag self !! i = Some im →
  length re = length im →
  prob (Z.of_nat i) self
  = Ok (zip_with (λ a c, a * a + c * c) re im, self).
Proof.
  intros Hre Him Hlen. unfold prob.
  rewrite (getitem_nat _ _ _ Hre). ok_step.
  rewrite (getitem_nat _ _ _ Him). ok_step.
  unfold vadd, vsquare. rewrite elementwise_same by (by rewrite !length_fmap).
  ok_step. do 2 f_equal.
  by rewrite zip_with_fmap_l, zip_with_fmap_r.
Qed.

(** An index outside [-nt..nt-1] raises [IndexError]. *)
Lemma prob_out_of_range (self : Wavefunction) (i : Z) :
  (i < - Z.of_nat (length (real self)) ∨ Z.of_nat (length (real self)) ≤ i)%Z →
  prob i self = Raise IndexError.
Proof.
  intros Hi. unfold prob.
  assert (E : getitem (real self) i = Raise IndexError).
  { unfold getitem, py_index. by rewrite !decide_False by lia. }
  by rewrite E.
Qed.

(** ** One pass of the loop on a well-shaped object *)

Section LoopPass.
Variable junk : nat → nat → nat → Qc.
Variable self : Wavefunction.
Variables (i n w : nat) (kb : kbufs) (re im : list Qc).
Hypothesis Hw : (3 ≤ w)%nat.
Hypothesis Hi : (S i < n)%nat.
Hypothesis Sr : has_shape n w (real self).
Hypothesis Si : has_shape n w (imag self).
Hypothesis Kr : has_shape 4 w kb.1.
Hypothesis Ki : has_shape 4 w kb.2.
Hypothesis Hre : real self !! i = Some re.
Hypothesis Him : imag self !! i = Some im.

Local Abbreviation D := (deriv4 junk self).
Local Abbreviation h := (dt self).

Lemma pass_widths : length re = w ∧ length im = w.
Proof.
  destruct Sr as [_ Fr], Si as [_ Fi].
  split; [exact (Forall_lookup_1 _ _ _ _ Fr Hre)
         | exact (Forall_lookup_1 _ _ _ _ Fi Him)].
Qed.

Lemma solve_body_pass :
  solve_body junk (Z.of_nat i) kb self
  = Ok ((code_stages D h (- half) im, code_stages D h half re),
        set_imag
          (set_real self
             (<[i := pin_row (creal (boundaries self).1)
                             (creal (boundaries self).2) re]>
                (<[S i := code_next D h (- half) im re]> (real self))))
          (<[i := pin_row (cimag (boundaries self).1)
                          (cimag (boundaries self).2) im]>
             (<[S i := code_next D h half re im]> (imag self)))).
Proof.
  destruct pass_widths as [Lre Lim].
  destruct kb as [kreal kimag]. cbn [fst snd] in Kr, Ki.
  destruct Kr as [Lkr Fkr], Ki as [Lki Fki].
  destruct (has_shape_lookup _ _ _ (S i) Sr) as (re1 & Hre1 & Lre1); [lia|].
  destruct (has_shape_lookup _ _ _ (S i) Si) as (im1 & Him1 & Lim1); [lia|].
  by apply (solve_body_eval junk self i w re im re1 im1).
Qed.

Lemma setbcs_pass_mid :
  _setbcs (Z.of_nat i) (pass_mid junk self i re im)
  = Ok ((), set_imag
          (set_real self
             (<[i := pin_row (creal (boundaries self).1)
                             (creal (boundaries self).2) re]>
                (<[S i := code_next D h (- half) im re]> (real self))))
          (<[i := pin_row (cimag (boundaries self).1)
                          (cimag (boundaries self).2) im]>
             (<[S i := code_next D h half re im]> (imag self)))).
Proof.
  destruct pass_widths as [Lre Lim].
  rewrite (setbcs_eval (pass_mid junk self i re im) i re im).
  - reflexivity.
  - unfold pass_mid. cbn [real imag set_real set_imag].
    by rewrite list_lookup_insert_ne by lia.
  - unfold pass_mid. cbn [real imag set_real set_imag].
    by rewrite list_lookup_insert_ne by lia.
  - lia.
  - lia.
Qed.

End LoopPass.

(** * The claims *)

(** ** The derivative operator *)

(** C5. With [order = 4] and [dirichlet = True], on an input of [n >= 3]
    samples [deriv] returns an array of [n] entries: the five-point central
    value divided by 12 and by [dx2] at the interior indices [2..n-3], the
    three-point value divided by [dx2] at indices [1] and [n-2], and
    [0 / dx2 = 0] at indices [0] and [n-1]. *)
Theorem deriv_order4_dirichlet_entries junk (self : Wavefunction)
    (psi : list Qc) :
  (3 ≤ length psi)%nat → dx2 self ≠ 0 →
  let n := length psi in
  ∃ df,
    deriv junk self psi 4 true = Ok df ∧ length df = n
    ∧ (∀ j, (2 ≤ j)%nat → (j + 3 ≤ n)%nat →
         df !! j
         = Some ((- psi !!! (j - 2)%nat + Qc_of_Z 16 * psi !!! (j - 1)%nat
                  - Qc_of_Z 30 * psi !!! j
                  + Qc_of_Z 16 * psi !!! (j + 1)%nat - psi !!! (j + 2)%nat)
                 / Qc_of_Z 12 / dx2 self))
    ∧ df !! 1%nat
      = Some ((psi !!! 0%nat - 2 * psi !!! 1%nat + psi !!! 2%nat) / dx2 self)
    ∧ df !! (n - 2)%nat
      = Some ((psi !!! (n - 3)%nat - 2 * psi !!! (n - 2)%nat
               + psi !!! (n - 1)%nat) / dx2 self)
    ∧ df !! 0%nat = Some (0 / dx2 self)
    ∧ df !! (n - 1)%nat = Some (0 / dx2 self)
    ∧ 0 / dx2 self = 0.
Proof.
  intros Hn Hdx n. subst n.
  pose proof (length_np_empty_like junk psi) as L0.
  exists (deriv4 junk self psi). split; [by apply deriv4_code|].
  split; [by apply length_deriv4|].
  unfold deriv4, vdiv. split_and!.
  - intros j H2 H3. by rewrite list_lookup_fmap, df_dirichlet_inner.
  - by rewrite list_lookup_fmap, df_dirichlet_near_left.
  - rewrite list_lookup_fmap, df_dirichlet_near_right by done. cbn.
    do 2 f_equal. ring.
  - by rewrite list_lookup_fmap, df_dirichlet_first.
  - by rewrite list_lookup_fmap, df_dirichlet_last.
  - apply Qcdiv_0_l.
Qed.

Lemma deriv_order4_dirichlet_entries_witness :
  (3 ≤ length example_psi)%nat ∧ dx2 example_self ≠ 0
  ∧ ∃ df, deriv zero_junk example_self example_psi 4 true = Ok df
          ∧ df !! 2%nat = Some (Qc_of_Z 50).
Proof.
  assert (H3 : (3 ≤ length example_psi)%nat) by (cbn; lia).
  assert (Hd : dx2 example_self ≠ 0) by (by intros H%(f_equal this)).
  split; [exact H3|]. split; [exact Hd|].
  destruct (deriv_order4_dirichlet_entries zero_junk example_self example_psi
              H3 Hd) as (df & E & _ & Hin & _).
  exists df. split; [exact E|].
  rewrite (Hin 2%nat) by (cbn; lia).
  f_equal. apply Qc_is_canon. reflexivity.
Defined.

(** C9. [deriv] does not write its input: run on a store in which [psi]
    is the buffer at address [a], whatever [order] and [dirichlet] are, it
    leaves that buffer and every other buffer of the store as it was, and
    returns its result in a buffer that did not exist before. *)
Theorem deriv_leaves_input junk (self : Wavefunction) (σ σ' : store)
    (a q : nat) (psi : list Qc) (order : Z) (dirichlet : bool) :
  σ !! a = Some psi →
  deriv_mem junk self a order dirichlet σ = Ok (q, σ') →
  σ' !! a = Some psi
  ∧ (∀ c v, σ !! c = Some v → σ' !! c = Some v)
  ∧ σ !! q = None
  ∧ ∃ r, σ' !! q = Some r ∧ deriv junk self psi order dirichlet = Ok r.
Proof.
  intros Ha H.
  pose proof (deriv_mem_sim junk self σ a psi order dirichlet Ha) as Hsim.
  destruct (deriv junk self psi order dirichlet) as [r|e].
  - destruct Hsim as [d Hsim]. rewrite Hsim in H. injection H as <- <-.
    split_and!.
    + by apply lookup_app_l_Some.
    + intros c v Hc. by apply lookup_app_l_Some.
    + apply lookup_ge_None. lia.
    + exists r. split; [|done].
      rewrite lookup_app_r by lia.
      by replace (S (length σ) - length σ)%nat with 1%nat by lia.
  - by rewrite Hsim in H.
Qed.

Lemma deriv_leaves_input_witness :
  ∃ q σ',
    [example_psi] !! 0%nat = Some example_psi
    ∧ deriv_mem zero_junk example_self 0 2 false [example_psi] = Ok (q, σ')
    ∧ σ' !! 0%nat = Some example_psi.
Proof.
  eexists _, _. split; [reflexivity|]. split; [vm_compute; reflexivity|].
  refine (proj1 (deriv_leaves_input zero_junk example_self [example_psi] _
                   0 _ example_psi 2 false _ _)).
  - reflexivity.
  - vm_compute. reflexivity.
Defined.

(** ** The probability view *)

(** C8. For a row index [i] of the field, [prob(i)] returns the entries
    [real[i][j]**2 + imag[i][j]**2], one per grid point and none of them
    negative, and the object is the same after the call. *)
Theorem prob_squares_rows (self : Wavefunction) (i w : nat) :
  (Z.of_nat i < nt self)%Z →
  has_shape (Z.to_nat (nt self)) w (real self) →
  has_shape (Z.to_nat (nt self)) w (imag self) →
  ∃ re im p,
    real self !! i = Some re ∧ imag self !! i = Some im
    ∧ prob (Z.of_nat i) self = Ok (p, self)
    ∧ length p = w
    ∧ (∀ j a c, re !! j = Some a → im !! j = Some c →
         p !! j = Some (a * a + c * c))
    ∧ Forall (λ v, 0 ≤ v) p.
Proof.
  intros Hi Sr Si.
  destruct (has_shape_lookup _ _ _ i Sr) as (re & Hre & Lre); [lia|].
  destruct (has_shape_lookup _ _ _ i Si) as (im & Him & Lim); [lia|].
  exists re, im, (zip_with (λ a c, a * a + c * c) re im). split_and!.
  - done.
  - done.
  - apply prob_eval; congruence.
  - rewrite length_zip_with. lia.
  - intros j a c Ha Hc.
    by apply (lookup_zip_with_both (λ a c : Qc, a * a + c * c)).
  - apply Forall_lookup_2.
    intros j v (a & c & -> & _ & _)%lookup_zip_with_Some.
    apply Qcplus_nonneg_nonneg; apply Qc_square_nonneg.
Qed.

Lemma prob_squares_rows_witness :
  (Z.of_nat 0 < nt example_self)%Z
  ∧ has_shape (Z.to_nat (nt example_self)) 5 (real example_self)
  ∧ has_shape (Z.to_nat (nt example_self)) 5 (imag example_self)
  ∧ ∃ p, prob 0 example_self = Ok (p, example_self)
         ∧ p !! 2%nat = Some (Qc_of_Z 9 * Qc_of_Z 9 + Qc_of_Z 2 * Qc_of_Z 2).
Proof.
  assert (H0 : (Z.of_nat 0 < nt example_self)%Z) by (cbn; lia).
  assert (Hr : has_shape (Z.to_nat (nt example_self)) 5 (real example_self))
    by (split; [reflexivity | repeat constructor]).
  assert (Hi : has_shape (Z.to_nat (nt example_self)) 5 (imag example_self))
    by (split; [reflexivity | repeat constructor]).
  split; [exact H0|]. split; [exact Hr|]. split; [exact Hi|].
  destruct (prob_squares_rows example_self 0 5 H0 Hr Hi)
    as (re & im & p & Hre & Him & Hp & _ & Hj & _).
  exists p. split; [exact Hp|].
  injection Hre as <-. injection Him as <-. by apply Hj.
Defined.

(** ** The grid and the time axis *)



(** C3, evaluated on the code: with [trange = (0, 1/5)], [dt = 1/10] and
    [xrange = (0, 1)] the constructor computes [nt = 2] from [trange], but
    the stored time axis is [linspace(0, 1, 2) = [0, 1]]: it ends at
    [xrange[1] = 1], not at [trange[1] = 1/5]. *)
Theorem time_axis_ends_at_xrange :
  ∃ self,
    __init__ zero_junk example_initial (Q2Qc (1 # 5)) (Q2Qc (1 # 10))
      (0, 1) (0, Q2Qc (1 # 5)) default_boundaries = Ok self
    ∧ nt self = 2%Z
    ∧ nt self = grid_count (Q2Qc (1 # 10)) (0, Q2Qc (1 # 5))
    ∧ t self = [0; 1]
    ∧ t self !! (length (t self) - 1)%nat = Some 1
    ∧ (1 : Qc) ≠ Q2Qc (1 # 5).
Proof.
  eexists. split; [vm_compute; reflexivity|].
  split; [reflexivity|]. split; [by vm_compute|].
  split; [reflexivity|]. split; [reflexivity|].
  by intros H%(f_equal this).
Qed.

(** ** Construction *)








(** ** Boundary rows *)

(** C1, for grids of at least two points.  On an object built by
    [__init__] with [nx >= 2], whenever [solve] completes, every row
    [0 <= i < nt] of the stored field has the first boundary value at index
    [0] and the second one at index [nx - 1], in both arrays; and [solve]
    does complete when [nx >= 3]. *)
Theorem boundary_rows_after_solve junk (initial : list Qc → list complex)
    (dx dt_ : Qc) (xrange trange : Qc * Qc) (b : complex * complex)
    (self : Wavefunction) :
  __init__ junk initial dx dt_ xrange trange b = Ok self →
  (2 ≤ nx self)%Z →
  ((3 ≤ nx self)%Z → ∃ self', solve junk self = Ok ((), self'))
  ∧ ∀ self', solve junk self = Ok ((), self') →
      ∀ i, (0 ≤ i < nt self)%Z →
        ∃ re im,
          getitem (real self') i = Ok re ∧ getitem (imag self') i = Ok im
          ∧ getitem re 0 = Ok (creal b.1) ∧ getitem im 0 = Ok (cimag b.1)
          ∧ getitem re (nx self - 1) = Ok (creal b.2)
          ∧ getitem im (nx self - 1) = Ok (cimag b.2).
Proof.
  intros Hinit H2.
  destruct (init_counts _ _ _ _ _ _ _ _ Hinit) as (_ & _ & Hnx & Hnt).
  destruct (init_config _ _ _ _ _ _ _ _ Hinit) as (_ & _ & _ & _ & Hb & _).
  destruct (init_shape _ _ _ _ _ _ _ _ Hinit) as [Sr Si].
  pose proof (init_pinned _ _ _ _ _ _ _ _ Hinit H2) as P0.
  split.
  { intros H3.
    destruct (solve_pins junk self Hnt H3 Sr Si P0) as (s0 & E & _).
    by exists s0. }
  intros self' E i Hi.
  assert (Hall :
            has_shape (Z.to_nat (nt self)) (Z.to_nat (nx self)) (real self')
            ∧ has_shape (Z.to_nat (nt self)) (Z.to_nat (nx self)) (imag self')
            ∧ pinned_upto (Z.to_nat (nt self) - 1) self'
            ∧ boundaries self' = b).
  { destruct (decide (3 ≤ nx self)%Z) as [H3|H3].
    - destruct (solve_pins junk self Hnt H3 Sr Si P0)
        as (s0 & E0 & Sr0 & Si0 & P & C).
      rewrite E0 in E. injection E as <-.
      destruct C as (_ & _ & _ & _ & _ & _ & _ & _ & ->). done.
    - destruct (decide (nt self = 1%Z)) as [H1|H1].
      + rewrite solve_one_row in E by lia. injection E as <-.
        split_and!; try done. by rewrite H1.
      + by rewrite solve_narrow in E by (done || lia). }
  destruct Hall as (Sr' & Si' & [Pr Pi] & Hb').
  rewrite Hb' in Pr, Pi.
  destruct (has_shape_lookup _ _ _ (Z.to_nat i) Sr') as (re & Hre & Lre);
    [lia|].
  destruct (has_shape_lookup _ _ _ (Z.to_nat i) Si') as (im & Him & Lim);
    [lia|].
  destruct (Pr (Z.to_nat i) re ltac:(lia) Hre) as [Pre0 Pre1].
  destruct (Pi (Z.to_nat i) im ltac:(lia) Him) as [Pim0 Pim1].
  rewrite Lre in Pre1. rewrite Lim in Pim1.
  exists re, im.
  replace i with (Z.of_nat (Z.to_nat i)) at 1 2 by lia.
  replace (nx self - 1)%Z with (Z.of_nat (Z.to_nat (nx self) - 1)) by lia.
  change 0%Z with (Z.of_nat 0).
  split_and!; by apply getitem_nat.
Qed.

Lemma boundary_rows_after_solve_witness :
  ∃ self self',
    __init__ zero_junk example_initial example_dx example_dt default_xrange
      default_trange example_boundaries = Ok self
    ∧ (2 ≤ nx self)%Z
    ∧ solve zero_junk self = Ok ((), self')
    ∧ (0 ≤ 1 < nt self)%Z
    ∧ ∃ re, getitem (real self') 1 = Ok re ∧ getitem re 0 = Ok 1.
Proof.
  eexists _, _.
  split; [by vm_compute|]. split; [by vm_compute|].
  split; [by vm_compute|]. split; [by vm_compute|].
  edestruct (proj2 (boundary_rows_after_solve zero_junk example_initial
                      example_dx example_dt default_xrange default_trange
                      example_boundaries _ ltac:(by vm_compute)
                      ltac:(by vm_compute)) _ ltac:(by vm_compute)
               1%Z ltac:(by vm_compute))
    as (re & im & Hre & _ & H0 & _).
  exists re. split; [exact Hre | exact H0].
Defined.

(** On a grid of a single point index [0] and index [-1] are the same
    entry, and [_setbcs] writes the second boundary value last: with
    [boundaries=(1+0j, 0+0j)] row 0 holds [0], not [1], after [solve]. *)
Lemma boundary_row_single_point :
  ∃ self self' re,
    __init__ zero_junk example_initial 1 1 default_xrange default_trange
      example_boundaries = Ok self
    ∧ solve zero_junk self = Ok ((), self')
    ∧ nx self = 1%Z ∧ nt self = 1%Z
    ∧ getitem (real self') 0 = Ok re
    ∧ getitem re 0 = Ok 0
    ∧ getitem re 0 ≠ Ok (creal example_boundaries.1).
Proof.
  eexists _, _, _.
  split; [by vm_compute|]. split; [by vm_compute|].
  split; [by vm_compute|]. split; [by vm_compute|].
  split; [by vm_compute|]. split; [by vm_compute|].
  vm_compute. intros H. discriminate H.
Qed.

(** ** The advance step *)

(** C2. On an object with rows of width [w >= 3] and a row [i + 1] to
    fill, one pass of the loop of [solve] computes the stage vectors of the
    recurrence of the specification, run with [deriv] at its default
    [order] and [dirichlet] as the derivative operator, and stores the
    recurrence's new rows in [real[i + 1]] and [imag[i + 1]]: the weights
    [1/6, 1/3, 1/3, 1/6] of the code give the same sum as
    [(k0 + 2 k1 + 2 k2 + k3)/6]. *)
Theorem solve_body_is_rk4 junk (self : Wavefunction) (i n w : nat)
    (kb : kbufs) (re im : list Qc) :
  (3 ≤ w)%nat → (S i < n)%nat → dx2 self ≠ 0 →
  has_shape n w (real self) → has_shape n w (imag self) →
  has_shape 4 w kb.1 → has_shape 4 w kb.2 →
  real self !! i = Some re → imag self !! i = Some im →
  ∃ st self',
    spec_advance (λ psi, deriv junk self psi 4 true) (dt self) re im = Ok st
    ∧ solve_body junk (Z.of_nat i) kb self = Ok ((k_real st, k_imag st), self')
    ∧ real self' !! S i = Some (real_next st)
    ∧ imag self' !! S i = Some (imag_next st).
Proof.
  intros Hw Hi _ Sr Si Kr Ki Hre Him.
  destruct (pass_widths self i n w re im Sr Si Hre Him) as [Lre Lim].
  eexists _, _. split_and!.
  - by apply (spec_advance_eval junk self w re im).
  - by apply (solve_body_pass junk self i n w kb re im).
  - cbn [real imag set_real set_imag k_real k_imag real_next imag_next].
    rewrite list_lookup_insert_ne by lia.
    apply list_lookup_insert_eq. rewrite (proj1 Sr). lia.
  - cbn [real imag set_real set_imag k_real k_imag real_next imag_next].
    rewrite list_lookup_insert_ne by lia.
    apply list_lookup_insert_eq. rewrite (proj1 Si). lia.
Qed.

Lemma solve_body_is_rk4_witness :
  (3 ≤ 5)%nat ∧ (1 < 2)%nat ∧ dx2 example_self ≠ 0
  ∧ has_shape 2 5 (real example_self) ∧ has_shape 2 5 (imag example_self)
  ∧ has_shape 4 5 example_kbuf
  ∧ ∃ st self',
      spec_advance (λ psi, deriv zero_junk example_self psi 4 true)
        (dt example_self) (Qc_of_Z <$> [1; 4; 9; 16; 0]%Z)
        (Qc_of_Z <$> [0; 1; 2; 3; 0]%Z) = Ok st
      ∧ solve_body zero_junk 0 (example_kbuf, example_kbuf) example_self
        = Ok ((k_real st, k_imag st), self')
      ∧ real self' !! 1%nat = Some (real_next st).
Proof.
  assert (Hw : (3 ≤ 5)%nat) by lia.
  assert (Hi : (1 < 2)%nat) by lia.
  assert (Hd : dx2 example_self ≠ 0) by (by intros H%(f_equal this)).
  assert (Sr : has_shape 2 5 (real example_self))
    by (split; [reflexivity | repeat constructor]).
  assert (Si : has_shape 2 5 (imag example_self))
    by (split; [reflexivity | repeat constructor]).
  assert (Sk : has_shape 4 5 example_kbuf)
    by (split; [reflexivity | repeat constructor]).
  split; [exact Hw|]. split; [exact Hi|]. split; [exact Hd|].
  split; [exact Sr|]. split; [exact Si|]. split; [exact Sk|].
  destruct (solve_body_is_rk4 zero_junk example_self 0 2 5
              (example_kbuf, example_kbuf) (Qc_of_Z <$> [1; 4; 9; 16; 0]%Z)
              (Qc_of_Z <$> [0; 1; 2; 3; 0]%Z) Hw Hi Hd Sr Si Sk Sk
              eq_refl eq_refl) as (st & self' & E1 & E2 & E3 & _).
  exists st, self'. split; [exact E1|]. split; [exact E2 | exact E3].
Defined.

(** C4. In one pass of the loop for row [i], the rows the advance step
    computes from rows [i] are written to [real[i + 1]] and [imag[i + 1]]
    first, and then [_setbcs] runs with key [i]: the pass ends in the state
    [_setbcs(i)] returns on the object that holds the new rows.  Against the
    object before the pass, rows other than [i] and [i + 1] are the same,
    row [i] differs at most in its first and last entry, which hold the
    boundary values, and row [i + 1] holds the new row exactly as the
    advance step computed it: its two end entries are those row [i] had
    before the pass, not the boundary values.  The configuration fields
    are the same. *)
Theorem solve_body_touches_two_rows junk (self : Wavefunction) (i n w : nat)
    (kb : kbufs) (re im : list Qc) :
  (3 ≤ w)%nat → (S i < n)%nat → dx2 self ≠ 0 →
  has_shape n w (real self) → has_shape n w (imag self) →
  has_shape 4 w kb.1 → has_shape 4 w kb.2 →
  real self !! i = Some re → imag self !! i = Some im →
  ∃ st mid self' re' im',
    spec_advance (λ psi, deriv junk self psi 4 true) (dt self) re im = Ok st
    ∧ real mid = <[S i := real_next st]> (real self)
    ∧ imag mid = <[S i := imag_next st]> (imag self)
    ∧ same_config self mid
    ∧ _setbcs (Z.of_nat i) mid = Ok ((), self')
    ∧ solve_body junk (Z.of_nat i) kb self
      = Ok ((k_real st, k_imag st), self')
    ∧ real self' !! S i = Some (real_next st)
    ∧ imag self' !! S i = Some (imag_next st)
    ∧ real_next st !! 0%nat = re !! 0%nat
    ∧ real_next st !! (w - 1)%nat = re !! (w - 1)%nat
    ∧ imag_next st !! 0%nat = im !! 0%nat
    ∧ imag_next st !! (w - 1)%nat = im !! (w - 1)%nat
    ∧ (∀ j, j ≠ i → j ≠ S i →
         real self' !! j = real self !! j ∧ imag self' !! j = imag self !! j)
    ∧ real self' !! i = Some re' ∧ imag self' !! i = Some im'
    ∧ (∀ c, c ≠ 0%nat → c ≠ (w - 1)%nat →
         re' !! c = re !! c ∧ im' !! c = im !! c)
    ∧ re' !! 0%nat = Some (creal (boundaries self).1)
    ∧ im' !! 0%nat = Some (cimag (boundaries self).1)
    ∧ re' !! (w - 1)%nat = Some (creal (boundaries self).2)
    ∧ im' !! (w - 1)%nat = Some (cimag (boundaries self).2)
    ∧ same_config self self'.
Proof.
  intros Hw Hi _ Sr Si Kr Ki Hre Him.
  destruct (pass_widths self i n w re im Sr Si Hre Him) as [Lre Lim].
  pose proof (proj1 Sr) as Nr. pose proof (proj1 Si) as Ni.
  assert (HD : ∀ psi, length psi = w → length (deriv4 junk self psi) = w)
    by (intros; by apply width_deriv4).
  assert (HD0 : ∀ psi, length psi = w → deriv4 junk self psi !! 0%nat = Some 0)
    by (intros psi <-; by apply deriv4_first).
  assert (HD1 : ∀ psi, length psi = w →
                       deriv4 junk self psi !! (w - 1)%nat = Some 0)
    by (intros psi <-; by apply deriv4_last).
  destruct (lookup_lt_is_Some_2 re 0) as [r0 Hr0]; [lia|].
  destruct (lookup_lt_is_Some_2 re (w - 1)) as [r1 Hr1]; [lia|].
  destruct (lookup_lt_is_Some_2 im 0) as [m0 Hm0]; [lia|].
  destruct (lookup_lt_is_Some_2 im (w - 1)) as [m1 Hm1]; [lia|].
  eexists _, (pass_mid junk self i re im), _, _, _.
  split; [by apply (spec_advance_eval junk self w re im)|].
  cbn [k_real k_imag real_next imag_next].
  split; [reflexivity|]. split; [reflexivity|].
  split; [by repeat split|].
  split; [by apply (setbcs_pass_mid junk self i n w re im)|].
  split; [by apply (solve_body_pass junk self i n w kb re im)|].
  cbn [real imag set_real set_imag].
  split.
  { rewrite list_lookup_insert_ne by lia. apply list_lookup_insert_eq. lia. }
  split.
  { rewrite list_lookup_insert_ne by lia. apply list_lookup_insert_eq. lia. }
  split; [rewrite Hr0; by apply (code_next_keeps _ _ w 0)|].
  split; [rewrite Hr1; by apply (code_next_keeps _ _ w (w - 1))|].
  split; [rewrite Hm0; by apply (code_next_keeps _ _ w 0)|].
  split; [rewrite Hm1; by apply (code_next_keeps _ _ w (w - 1))|].
  split.
  { intros j Hj HjS. by rewrite !list_lookup_insert_ne by done. }
  split; [apply list_lookup_insert_eq; rewrite length_insert; lia|].
  split; [apply list_lookup_insert_eq; rewrite length_insert; lia|].
  split; [intros c H0 H1; split; apply pin_row_inner; congruence|].
  split; [apply pin_row_first; lia|].
  split; [apply pin_row_first; lia|].
  split; [rewrite <- Lre; apply pin_row_last; lia|].
  split; [rewrite <- Lim; apply pin_row_last; lia|].
  by repeat split.
Qed.

Lemma solve_body_touches_two_rows_witness :
  (3 ≤ 5)%nat ∧ (1 < 2)%nat ∧ dx2 example_unpinned ≠ 0
  ∧ has_shape 2 5 (real example_unpinned)
  ∧ has_shape 2 5 (imag example_unpinned)
  ∧ has_shape 4 5 example_kbuf
  ∧ ∃ kb' self' nr re',
      solve_body zero_junk 0 (example_kbuf, example_kbuf) example_unpinned
      = Ok (kb', self')
      ∧ real self' !! 1%nat = Some nr
      ∧ nr !! 0%nat = Some (Qc_of_Z 5)
      ∧ real self' !! 0%nat = Some re'
      ∧ re' !! 0%nat = Some 1
      ∧ re' !! 2%nat = Some (Qc_of_Z 9).
Proof.
  assert (Hw : (3 ≤ 5)%nat) by lia.
  assert (Hi : (1 < 2)%nat) by lia.
  assert (Hd : dx2 example_unpinned ≠ 0) by (by intros H%(f_equal this)).
  assert (Sr : has_shape 2 5 (real example_unpinned))
    by (split; [reflexivity | repeat constructor]).
  assert (Si : has_shape 2 5 (imag example_unpinned))
    by (split; [reflexivity | repeat constructor]).
  assert (Sk : has_shape 4 5 example_kbuf)
    by (split; [reflexivity | repeat constructor]).
  split; [exact Hw|]. split; [exact Hi|]. split; [exact Hd|].
  split; [exact Sr|]. split; [exact Si|]. split; [exact Sk|].
  destruct (solve_body_touches_two_rows zero_junk example_unpinned 0 2 5
              (example_kbuf, example_kbuf) (Qc_of_Z <$> [5; 4; 9; 16; 3]%Z)
              (Qc_of_Z <$> [2; 1; 2; 3; 4]%Z) Hw Hi Hd Sr Si Sk Sk
              eq_refl eq_refl)
    as (st & mid & self' & re' & im' & _ & _ & _ & _ & _ & E & Hn & _ & Hn0
        & _ & _ & _ & _ & Hr' & _ & Hin & Hb0 & _).
  exists (k_real st, k_imag st), self', (real_next st), re'.
  split; [exact E|]. split; [exact Hn|]. split; [exact Hn0|].
  split; [exact Hr'|]. split; [exact Hb0|].
  rewrite (proj1 (Hin 2%nat ltac:(done) ltac:(done))). reflexivity.
Defined.

(** C6. In one pass of the loop for row [i], every stage vector is zero
    at index [0] and at index [w - 1], because [deriv] returns zero there,
    and the rows written to [real[i + 1]] and [imag[i + 1]] have at those two
    indices the entries rows [i] had when the pass began. *)
Theorem solve_body_keeps_endpoints junk (self : Wavefunction) (i n w : nat)
    (kb : kbufs) (re im : list Qc) :
  (3 ≤ w)%nat → (S i < n)%nat → dx2 self ≠ 0 →
  has_shape n w (real self) → has_shape n w (imag self) →
  has_shape 4 w kb.1 → has_shape 4 w kb.2 →
  real self !! i = Some re → imag self !! i = Some im →
  (∀ psi, length psi = w →
     ∃ df, deriv junk self psi 4 true = Ok df
           ∧ df !! 0%nat = Some 0 ∧ df !! (w - 1)%nat = Some 0)
  ∧ ∃ kb' self' nr ni,
      solve_body junk (Z.of_nat i) kb self = Ok (kb', self')
      ∧ Forall (λ k, k !! 0%nat = Some 0 ∧ k !! (w - 1)%nat = Some 0)
          (kb'.1 ++ kb'.2)
      ∧ real self' !! S i = Some nr ∧ imag self' !! S i = Some ni
      ∧ nr !! 0%nat = re !! 0%nat ∧ nr !! (w - 1)%nat = re !! (w - 1)%nat
      ∧ ni !! 0%nat = im !! 0%nat ∧ ni !! (w - 1)%nat = im !! (w - 1)%nat.
Proof.
  intros Hw Hi _ Sr Si Kr Ki Hre Him.
  destruct (pass_widths self i n w re im Sr Si Hre Him) as [Lre Lim].
  pose proof (proj1 Sr) as Nr. pose proof (proj1 Si) as Ni.
  assert (HD : ∀ psi, length psi = w → length (deriv4 junk self psi) = w)
    by (intros; by apply width_deriv4).
  assert (HD0 : ∀ psi, length psi = w → deriv4 junk self psi !! 0%nat = Some 0)
    by (intros psi <-; by apply deriv4_first).
  assert (HD1 : ∀ psi, length psi = w →
                       deriv4 junk self psi !! (w - 1)%nat = Some 0)
    by (intros psi <-; by apply deriv4_last).
  destruct (lookup_lt_is_Some_2 re 0) as [r0 Hr0]; [lia|].
  destruct (lookup_lt_is_Some_2 re (w - 1)) as [r1 Hr1]; [lia|].
  destruct (lookup_lt_is_Some_2 im 0) as [m0 Hm0]; [lia|].
  destruct (lookup_lt_is_Some_2 im (w - 1)) as [m1 Hm1]; [lia|].
  split.
  { intros psi Hpsi. exists (deriv4 junk self psi). split_and!; auto.
    apply deriv4_code. lia. }
  eexists _, _, _, _. split_and!.
  - by apply (solve_body_pass junk self i n w kb re im).
  - cbn [fst snd]. unfold code_stages.
    pose proof (length_stage_first _ w HD (- half) im Lim) as La0.
    pose proof (length_stage_half _ (dt self) w HD (- half) im _ Lim La0)
      as La1.
    pose proof (length_stage_half _ (dt self) w HD (- half) im _ Lim La1)
      as La2.
    pose proof (length_stage_first _ w HD half re Lre) as Lb0.
    pose proof (length_stage_half _ (dt self) w HD half re _ Lre Lb0) as Lb1.
    pose proof (length_stage_half _ (dt self) w HD half re _ Lre Lb1) as Lb2.
    repeat apply Forall_cons_2; try apply Forall_nil_2;
      (split;
       [ first [ by apply (stage_first_zero _ w 0 HD0)
               | by apply (stage_half_zero _ (dt self) w 0 HD0)
               | by apply (stage_full_zero _ (dt self) w 0 HD0) ]
       | first [ by apply (stage_first_zero _ w (w - 1) HD1)
               | by apply (stage_half_zero _ (dt self) w (w - 1) HD1)
               | by apply (stage_full_zero _ (dt self) w (w - 1) HD1) ] ]).
  - cbn [real imag set_real set_imag].
    rewrite list_lookup_insert_ne by lia.
    apply list_lookup_insert_eq. lia.
  - cbn [real imag set_real set_imag].
    rewrite list_lookup_insert_ne by lia.
    apply list_lookup_insert_eq. lia.
  - rewrite Hr0. by apply (code_next_keeps _ _ w 0).
  - rewrite Hr1. by apply (code_next_keeps _ _ w (w - 1)).
  - rewrite Hm0. by apply (code_next_keeps _ _ w 0).
  - rewrite Hm1. by apply (code_next_keeps _ _ w (w - 1)).
Qed.

Lemma solve_body_keeps_endpoints_witness :
  (3 ≤ 5)%nat ∧ (1 < 2)%nat ∧ dx2 example_self ≠ 0
  ∧ has_shape 2 5 (real example_self) ∧ has_shape 2 5 (imag example_self)
  ∧ has_shape 4 5 example_kbuf
  ∧ ∃ kb' self' nr,
      solve_body zero_junk 0 (example_kbuf, example_kbuf) example_self
      = Ok (kb', self')
      ∧ real self' !! 1%nat = Some nr
      ∧ nr !! 0%nat = Some (Qc_of_Z 1).
Proof.
  assert (Hw : (3 ≤ 5)%nat) by lia.
  assert (Hi : (1 < 2)%nat) by lia.
  assert (Hd : dx2 example_self ≠ 0) by (by intros H%(f_equal this)).
  assert (Sr : has_shape 2 5 (real example_self))
    by (split; [reflexivity | repeat constructor]).
  assert (Si : has_shape 2 5 (imag example_self))
    by (split; [reflexivity | repeat constructor]).
  assert (Sk : has_shape 4 5 example_kbuf)
    by (split; [reflexivity | repeat constructor]).
  split; [exact Hw|]. split; [exact Hi|]. split; [exact Hd|].
  split; [exact Sr|]. split; [exact Si|]. split; [exact Sk|].
  destruct (proj2 (solve_body_keeps_endpoints zero_junk example_self 0 2 5
                     (example_kbuf, example_kbuf)
                     (Qc_of_Z <$> [1; 4; 9; 16; 0]%Z)
                     (Qc_of_Z <$> [0; 1; 2; 3; 0]%Z) Hw Hi Hd Sr Si Sk Sk
                     eq_refl eq_refl))
    as (kb' & self' & nr & ni & E & _ & Hnr & _ & H0 & _).
  exists kb', self', nr. split; [exact E|]. split; [exact Hnr|].
  rewrite H0. reflexivity.
Defined.

(** * Further properties of the code *)

(** ** The two halves of [deriv] *)

Lemma deriv_split junk (self : Wavefunction) (psi : list Qc) (order : Z)
    (dirichlet : bool) :
  deriv junk self psi order dirichlet
  = (df ← deriv_fill order psi (np_empty_like junk psi);
     df ← deriv_ends dirichlet psi df;
     Ok (vdiv df (dx2 self))).
Proof. reflexivity. Qed.

Lemma length_stencil3 (psi : list Qc) :
  length (stencil3 psi) = (length psi - 2)%nat.
Proof.
  unfold stencil3. rewrite !length_zip_with. unfold vscale.
  rewrite !length_fmap, !length_take, !length_drop. lia.
Qed.

Lemma length_df2_interior (df0 psi : list Qc) :
  length df0 = length psi → length (df2_interior df0 psi) = length psi.
Proof.
  intros H0. unfold df2_interior.
  rewrite !length_app, length_take, length_drop, length_stencil3. lia.
Qed.

Lemma deriv_fill_2 (psi df0 : list Qc) :
  length df0 = length psi →
  deriv_fill 2 psi df0 = Ok (df2_interior df0 psi).
Proof.
  intros Hdf0.
  pose proof (length_stencil3 psi) as Hs.
  unfold deriv_fill. rewrite decide_True by done.
  rewrite py_slice_suffix, !py_slice_inner by lia.
  change (Z.to_nat (- -1)) with 1%nat. change (Z.to_nat (- -2)) with 2%nat.
  change (Z.to_nat 0) with 0%nat. change (Z.to_nat 1) with 1%nat.
  change (Z.to_nat 2) with 2%nat.
  replace (length psi - 1 - 1)%nat with (length psi - 2)%nat by lia.
  replace (length psi - 2 - 0)%nat with (length psi - 2)%nat by lia.
  rewrite drop_0.
  unfold vadd, vsub.
  rewrite elementwise_same
    by (unfold vscale; rewrite length_fmap, length_take, !length_drop; lia).
  ok_step.
  rewrite elementwise_same
    by (rewrite length_zip_with; unfold vscale;
        rewrite length_fmap, !length_take, !length_drop; lia).
  ok_step.
  fold (stencil3 psi).
  destruct (decide (1 ≤ length psi)%nat) as [Hn|Hn].
  - rewrite set_slice_inner by (rewrite ?Hs, ?Hdf0; lia).
    change (Z.to_nat 1) with 1%nat. by rewrite Hs.
  - destruct psi; [|cbn in Hn; lia]. by destruct df0.
Qed.

Lemma deriv_fill_4 (psi df0 : list Qc) :
  length df0 = length psi → (3 ≤ length psi)%nat →
  deriv_fill 4 psi df0 = Ok (df_interior df0 psi).
Proof.
  intros Hdf0 Hn.
  destruct (deriv4_slices_aligned psi) as (L0 & L1 & L2 & L3 & L4).
  pose proof (length_stencil5 psi) as Hd.
  unfold deriv_fill. rewrite decide_False by done. rewrite decide_True by done.
  unfold vadd, vsub.
  rewrite elementwise_same
    by (unfold vneg, vscale; rewrite !length_fmap; congruence).
  ok_step.
  rewrite elementwise_same
    by (rewrite length_zip_with; unfold vneg, vscale; rewrite !length_fmap;
        rewrite L0, L1, L2; lia).
  ok_step.
  rewrite elementwise_same
    by (rewrite !length_zip_with; unfold vneg, vscale; rewrite !length_fmap;
        rewrite L0, L1, L2, L3; lia).
  ok_step.
  rewrite elementwise_same
    by (rewrite !length_zip_with; unfold vneg, vscale; rewrite !length_fmap;
        rewrite L0, L1, L2, L3, L4; lia).
  ok_step.
  rewrite py_slice_prefix, !py_slice_inner, py_slice_suffix by lia.
  change (Z.to_nat (- -4)) with 4%nat. change (Z.to_nat (- -3)) with 3%nat.
  change (Z.to_nat (- -2)) with 2%nat. change (Z.to_nat (- -1)) with 1%nat.
  change (Z.to_nat 1) with 1%nat. change (Z.to_nat 2) with 2%nat.
  change (Z.to_nat 3) with 3%nat. change (Z.to_nat 4) with 4%nat.
  replace (length psi - 3 - 1)%nat with (length psi - 4)%nat by lia.
  replace (length psi - 2 - 2)%nat with (length psi - 4)%nat by lia.
  replace (length psi - 1 - 3)%nat with (length psi - 4)%nat by lia.
  replace (take (length psi - 4) (drop 4 psi)) with (drop 4 psi)
    by (symmetry; apply take_ge; rewrite length_drop; lia).
  fold (stencil5 psi).
  rewrite set_slice_inner
    by (unfold vdiv; rewrite ?length_fmap, ?Hdf0, ?Hd; lia).
  ok_step.
  change (Z.to_nat 2) with 2%nat.
  replace (2 + length (vdiv (stencil5 psi) (Qc_of_Z 12)))%nat
    with (2 + (length psi - 4))%nat
    by (unfold vdiv; rewrite length_fmap, Hd; lia).
  rewrite (getitem_front psi 0), (getitem_front psi 1), (getitem_front psi 2)
    by lia.
  do 3 ok_step.
  rewrite setitem_front
    by (rewrite !length_app, length_take, Hdf0; lia).
  ok_step.
  rewrite (getitem_back psi (-1)), (getitem_back psi (-2)),
    (getitem_back psi (-3)) by lia.
  do 3 ok_step.
  change (Z.to_nat 0) with 0%nat. change (Z.to_nat 1) with 1%nat.
  change (Z.to_nat 2) with 2%nat.
  change (Z.to_nat (- -1)) with 1%nat. change (Z.to_nat (- -2)) with 2%nat.
  change (Z.to_nat (- -3)) with 3%nat.
  unfold df_interior.
  rewrite setitem_back
    by (unfold vdiv; rewrite length_insert, !length_app, length_take,
          length_drop, length_fmap, Hd, Hdf0; lia).
  change (Z.to_nat (- -2)) with 2%nat.
  do 2 f_equal.
  unfold vdiv; rewrite length_insert, !length_app, length_take,
    length_drop, length_fmap, Hd, Hdf0. lia.
Qed.

(** The branch on [order] never raises on three samples or more, and only
    the order-4 branch can raise at all. *)
Lemma deriv_fill_Ok (order : Z) (psi df0 : list Qc) :
  length df0 = length psi → (order = 4%Z → (3 ≤ length psi)%nat) →
  deriv_fill order psi df0 = Ok (filled order df0 psi).
Proof.
  intros Hdf0 Hn. unfold filled.
  destruct (decide (order = 2%Z)) as [->|H2]; [by apply deriv_fill_2|].
  destruct (decide (order = 4%Z)) as [->|H4]; [by apply deriv_fill_4; auto|].
  unfold deriv_fill. by rewrite !decide_False by done.
Qed.

Lemma length_filled (order : Z) (psi df0 : list Qc) :
  length df0 = length psi → (order = 4%Z → (3 ≤ length psi)%nat) →
  length (filled order df0 psi) = length psi.
Proof.
  intros Hdf0 Hn. unfold filled. repeat case_decide.
  - by apply length_df2_interior.
  - apply length_df_interior; auto.
  - done.
Qed.

Lemma deriv_ends_Ok (dirichlet : bool) (psi df : list Qc) :
  length df = length psi → (1 ≤ length psi)%nat →
  (dirichlet = false → (4 ≤ length psi)%nat) →
  deriv_ends dirichlet psi df = Ok (ended dirichlet psi df).
Proof.
  intros Hdf H1 H4. unfold deriv_ends, ended. destruct dirichlet.
  - rewrite setitem_front by lia. ok_step.
    rewrite setitem_back by (rewrite length_insert; lia).
    by rewrite length_insert.
  - specialize (H4 eq_refl).
    rewrite (getitem_front psi 0), (getitem_front psi 1),
      (getitem_front psi 2), (getitem_front psi 3) by lia.
    do 4 ok_step.
    rewrite setitem_front by lia. ok_step.
    rewrite (getitem_back psi (-1)), (getitem_back psi (-2)),
      (getitem_back psi (-3)), (getitem_back psi (-4)) by lia.
    do 4 ok_step.
    rewrite setitem_back by (rewrite length_insert; lia).
    by rewrite length_insert.
Qed.

Lemma length_ended (dirichlet : bool) (psi df : list Qc) :
  length (ended dirichlet psi df) = length df.
Proof. unfold ended. destruct dirichlet; by rewrite !length_insert. Qed.

(** [deriv] in closed form on every input on which it returns. *)
Lemma deriv_eval junk (self : Wavefunction) (psi : list Qc) (order : Z)
    (dirichlet : bool) :
  (1 ≤ length psi)%nat → (order = 4%Z → (3 ≤ length psi)%nat) →
  (dirichlet = false → (4 ≤ length psi)%nat) →
  deriv junk self psi order dirichlet
  = Ok (vdiv (ended dirichlet psi (filled order (np_empty_like junk psi) psi))
          (dx2 self)).
Proof.
  intros H1 H3 H4. rewrite deriv_split.
  pose proof (length_np_empty_like junk psi) as Hdf0.
  rewrite deriv_fill_Ok by done. ok_step.
  rewrite deriv_ends_Ok by (rewrite ?length_filled; done). by ok_step.
Qed.

(** ** Entries of the closed forms *)

Lemma lookup_stencil3 (psi : list Qc) (i : nat) :
  (i + 2 < length psi)%nat →
  stencil3 psi !! i
  = Some (psi !!! (2 + i)%nat - 2 * psi !!! (1 + i)%nat + psi !!! i).
Proof.
  intros Hi. unfold stencil3, vscale.
  repeat apply lookup_zip_with_both.
  - rewrite lookup_drop. apply list_lookup_lookup_total_lt. lia.
  - rewrite list_lookup_fmap, lookup_window by lia. done.
  - rewrite lookup_take_lt by lia. apply list_lookup_lookup_total_lt. lia.
Qed.

Lemma df2_interior_inner (df0 psi : list Qc) (j : nat) :
  length df0 = length psi → (1 ≤ j)%nat → (j + 2 ≤ length psi)%nat →
  df2_interior df0 psi !! j
  = Some (psi !!! (j + 1)%nat - 2 * psi !!! j + psi !!! (j - 1)%nat).
Proof.
  intros H0 H1 H2. unfold df2_interior.
  rewrite lookup_app_r by (rewrite length_take; lia).
  rewrite length_take, H0.
  replace (1 `min` length psi)%nat with 1%nat by lia.
  rewrite lookup_app_l by (rewrite length_stencil3; lia).
  rewrite lookup_stencil3 by lia.
  replace (2 + (j - 1))%nat with (j + 1)%nat by lia.
  by replace (1 + (j - 1))%nat with j by lia.
Qed.

Lemma df_interior_dirichlet (df0 psi : list Qc) (j : nat) :
  (0 < j)%nat → (j + 1 < length psi)%nat →
  df_interior df0 psi !! j = df_dirichlet df0 psi !! j.
Proof.
  intros H0 H1. unfold df_dirichlet. by rewrite !list_lookup_insert_ne by lia.
Qed.

(** Between the two ends, the buffer after the branch on a supported
    [order] holds nothing of what [np.empty_like] returned. *)
Lemma filled_inner_junk (order : Z) (df0 df0' psi : list Qc) (j : nat) :
  length df0 = length psi → length df0' = length psi →
  (order = 2%Z ∨ order = 4%Z ∧ (3 ≤ length psi)%nat) →
  (0 < j)%nat → (j + 1 < length psi)%nat →
  filled order df0 psi !! j = filled order df0' psi !! j.
Proof.
  intros H0 H0' Ho Hj0 Hj1. unfold filled.
  destruct Ho as [->|[-> Hn]].
  - rewrite !(decide_True (P := (2 = 2)%Z)) by done.
    rewrite (df2_interior_inner df0 psi j), (df2_interior_inner df0' psi j)
      by (done || lia).
    done.
  - rewrite !(decide_False (P := (4 = 2)%Z)) by done.
    rewrite !(decide_True (P := (4 = 4)%Z)) by done.
    rewrite !df_interior_dirichlet by lia.
    destruct (decide (j = 1%nat)) as [->|].
    { by rewrite !df_dirichlet_near_left. }
    destruct (decide (j = (length psi - 2)%nat)) as [->|].
    { by rewrite !df_dirichlet_near_right. }
    by rewrite !df_dirichlet_inner by (done || lia).
Qed.

Lemma ended_first (dirichlet : bool) (psi df : list Qc) :
  (2 ≤ length df)%nat →
  ended dirichlet psi df !! 0%nat
  = Some (if dirichlet then 0 else left_estimate psi).
Proof.
  intros Hn. unfold ended. destruct dirichlet;
    (rewrite list_lookup_insert_ne by lia; apply list_lookup_insert_eq; lia).
Qed.

Lemma ended_last (dirichlet : bool) (psi df : list Qc) :
  (1 ≤ length df)%nat →
  ended dirichlet psi df !! (length df - 1)%nat
  = Some (if dirichlet then 0 else right_estimate psi).
Proof.
  intros Hn. unfold ended. destruct dirichlet;
    (apply list_lookup_insert_eq; rewrite length_insert; lia).
Qed.

Lemma ended_inner (dirichlet : bool) (psi df : list Qc) (j : nat) :
  (0 < j)%nat → (j + 1 < length df)%nat →
  ended dirichlet psi df !! j = df !! j.
Proof.
  intros H0 H1. unfold ended.
  destruct dirichlet; by rewrite !list_lookup_insert_ne by lia.
Qed.

Lemma ended_filled_junk (order : Z) (dirichlet : bool)
    (df0 df0' psi : list Qc) :
  length df0 = length psi → length df0' = length psi →
  (order = 2%Z ∨ order = 4%Z ∧ (3 ≤ length psi)%nat) →
  ended dirichlet psi (filled order df0 psi)
  = ended dirichlet psi (filled order df0' psi).
Proof.
  intros H0 H0' Ho.
  assert (Hok : order = 4%Z → (3 ≤ length psi)%nat)
    by (intros ->; by destruct Ho as [|[_ ?]]).
  pose proof (length_filled order psi df0 H0 Hok) as L.
  pose proof (length_filled order psi df0' H0' Hok) as L'.
  apply list_eq. intros j.
  destruct (decide (j < length psi)%nat) as [Hj|Hj].
  - destruct (decide (j = (length psi - 1)%nat)) as [->|Hl].
    { assert (E : ∀ df, length df = length psi →
                ended dirichlet psi df !! (length psi - 1)%nat
                = Some (if dirichlet then 0 else right_estimate psi))
        by (intros df Hdf; rewrite <- Hdf; apply ended_last; lia).
      by rewrite (E _ L), (E _ L'). }
    destruct (decide (j = 0%nat)) as [->|Hf].
    { by rewrite !ended_first by lia. }
    rewrite !ended_inner by lia.
    apply filled_inner_junk; (done || lia).
  - rewrite !lookup_ge_None_2; [done|rewrite length_ended..]; lia.
Qed.

(** On an input too short for the index expressions of the branches taken,
    [deriv] raises [IndexError]. *)
Lemma deriv_too_short junk (self : Wavefunction) (psi : list Qc)
    (order : Z) (dirichlet : bool) :
  ¬ ((1 ≤ length psi)%nat ∧ (order = 4%Z → (3 ≤ length psi)%nat)
     ∧ (dirichlet = false → (4 ≤ length psi)%nat)) →
  deriv junk self psi order dirichlet = Raise IndexError.
Proof.
  intros Hno. rewrite deriv_split.
  destruct psi as [|a [|b [|c [|e psi]]]];
    (unfold deriv_fill; repeat case_decide; destruct dirichlet; try done;
     exfalso; apply Hno; cbn [length]; split_and!; intros;
     (lia || congruence)).
Qed.

(** ** Properties of [deriv] *)

(** X1.  [deriv] returns an array of the length of its input when the input
    is long enough for the index expressions of the branches taken (one
    sample, three for [order = 4], four for [dirichlet = False]); on every
    shorter input it raises [IndexError]. *)
Theorem deriv_returns_or_raises junk (self : Wavefunction) (psi : list Qc)
    (order : Z) (dirichlet : bool) :
  let long_enough :=
    (1 ≤ length psi)%nat ∧ (order = 4%Z → (3 ≤ length psi)%nat)
    ∧ (dirichlet = false → (4 ≤ length psi)%nat) in
  (long_enough →
   ∃ df, deriv junk self psi order dirichlet = Ok df
         ∧ length df = length psi)
  ∧ (¬ long_enough → deriv junk self psi order dirichlet = Raise IndexError).
Proof.
  intros long_enough. subst long_enough. split.
  - intros (H1 & H3 & H4). eexists. split; [by apply deriv_eval|].
    rewrite length_vdiv, length_ended, length_filled;
      [done | apply length_np_empty_like | done].
  - apply deriv_too_short.
Qed.

Lemma deriv_returns_or_raises_witness :
  (∃ df, deriv zero_junk example_self example_psi 4 true = Ok df
         ∧ length df = length example_psi)
  ∧ deriv zero_junk example_self (take 2 example_psi) 4 true
    = Raise IndexError.
Proof.
  split.
  - apply (proj1 (deriv_returns_or_raises zero_junk example_self example_psi
                    4 true)).
    cbn. split_and!; intros; (lia || done).
  - apply (proj2 (deriv_returns_or_raises zero_junk example_self
                    (take 2 example_psi) 4 true)).
    cbn. intros (_ & H & _). specialize (H eq_refl). lia.
Defined.

(** X2.  With [order = 2] and [dirichlet = True], [deriv] returns on every
    non-empty input: the three-point central value divided by [dx2] at the
    indices [1..n-2], and zero at both ends. *)
Theorem deriv_order2_entries junk (self : Wavefunction) (psi : list Qc) :
  (1 ≤ length psi)%nat → dx2 self ≠ 0 →
  ∃ df,
    deriv junk self psi 2 true = Ok df ∧ length df = length psi
    ∧ (∀ j, (1 ≤ j)%nat → (j + 2 ≤ length psi)%nat →
         df !! j
         = Some ((psi !!! (j + 1)%nat - 2 * psi !!! j + psi !!! (j - 1)%nat)
                 / dx2 self))
    ∧ df !! 0%nat = Some 0
    ∧ df !! (length psi - 1)%nat = Some 0.
Proof.
  intros Hn Hdx.
  pose proof (length_np_empty_like junk psi) as L0.
  pose proof (length_df2_interior _ _ L0) as L1.
  eexists. split; [by apply deriv_eval|].
  unfold filled. rewrite decide_True by done.
  split_and!.
  - by rewrite length_vdiv, length_ended.
  - intros j H1 H2. unfold vdiv.
    rewrite list_lookup_fmap, ended_inner by lia.
    by rewrite df2_interior_inner.
  - unfold vdiv, ended. rewrite list_lookup_fmap.
    destruct (decide (length psi = 1%nat)) as [E1|E1].
    + rewrite L1, E1. cbn [Nat.sub].
      rewrite list_lookup_insert_eq by (rewrite length_insert; lia).
      cbn. by rewrite Qcdiv_0_l.
    + rewrite list_lookup_insert_ne by lia.
      rewrite list_lookup_insert_eq by lia. cbn. by rewrite Qcdiv_0_l.
  - unfold vdiv. rewrite list_lookup_fmap. rewrite <- L1 at 1.
    rewrite ended_last by lia. cbn. by rewrite Qcdiv_0_l.
Qed.

Lemma deriv_order2_entries_witness :
  (1 ≤ length example_psi)%nat ∧ dx2 example_self ≠ 0
  ∧ ∃ df, deriv zero_junk example_self example_psi 2 true = Ok df
          ∧ df !! 1%nat = Some (Qc_of_Z 50).
Proof.
  assert (H1 : (1 ≤ length example_psi)%nat) by (cbn; lia).
  assert (Hd : dx2 example_self ≠ 0) by (by intros H%(f_equal this)).
  split; [exact H1|]. split; [exact Hd|].
  destruct (deriv_order2_entries zero_junk example_self example_psi H1 Hd)
    as (df & E & _ & Hin & _).
  exists df. split; [exact E|].
  rewrite (Hin 1%nat) by (cbn; lia).
  f_equal. apply Qc_is_canon. reflexivity.
Defined.

(** X3.  With [dirichlet = False] and a supported [order], on an input of at
    least four samples [deriv] stores the one-sided four-point estimates
    at the two ends, divided by [dx2], and agrees with the result of a
    call with [dirichlet = True] at every other index, whatever the buffers
    of the two calls held. *)
Theorem deriv_free_ends junk junk' (self : Wavefunction) (psi : list Qc)
    (order : Z) :
  order = 2%Z ∨ order = 4%Z → (4 ≤ length psi)%nat → dx2 self ≠ 0 →
  let n := length psi in
  ∃ df dfd,
    deriv junk self psi order false = Ok df
    ∧ deriv junk' self psi order true = Ok dfd
    ∧ length df = n
    ∧ df !! 0%nat
      = Some ((-1 * psi !!! 0%nat + Qc_of_Z 4 * psi !!! 1%nat
               - Qc_of_Z 5 * psi !!! 2%nat + 2 * psi !!! 3%nat) / dx2 self)
    ∧ df !! (n - 1)%nat
      = Some ((-1 * psi !!! (n - 1)%nat + Qc_of_Z 4 * psi !!! (n - 2)%nat
               - Qc_of_Z 5 * psi !!! (n - 3)%nat + 2 * psi !!! (n - 4)%nat)
              / dx2 self)
    ∧ ∀ j, (0 < j)%nat → (j + 1 < n)%nat → df !! j = dfd !! j.
Proof.
  intros Ho Hn Hdx n. subst n.
  pose proof (length_np_empty_like junk psi) as L0.
  pose proof (length_np_empty_like junk' psi) as L0'.
  assert (L1 : length (filled order (np_empty_like junk psi) psi)
               = length psi) by (apply length_filled; [done | lia]).
  assert (L1' : length (filled order (np_empty_like junk' psi) psi)
                = length psi) by (apply length_filled; [done | lia]).
  eexists _, _.
  split; [apply deriv_eval; (lia || done)|].
  split; [apply deriv_eval; (lia || done)|].
  split_and!.
  - by rewrite length_vdiv, length_ended.
  - unfold vdiv. rewrite list_lookup_fmap, ended_first by lia. done.
  - unfold vdiv. rewrite list_lookup_fmap. rewrite <- L1 at 1.
    rewrite ended_last by lia. done.
  - intros j H0 H1. unfold vdiv.
    rewrite !list_lookup_fmap, !ended_inner by lia.
    f_equal. apply filled_inner_junk; try done.
    destruct Ho as [->| ->]; [by left | right; split; [done | lia]].
Qed.

Lemma deriv_free_ends_witness :
  (4%Z = 2%Z ∨ 4%Z = 4%Z) ∧ (4 ≤ length example_psi)%nat
  ∧ dx2 example_self ≠ 0
  ∧ ∃ df, deriv zero_junk example_self example_psi 4 false = Ok df
          ∧ df !! 0%nat = Some (Qc_of_Z 50).
Proof.
  assert (Ho : 4%Z = 2%Z ∨ 4%Z = 4%Z) by (by right).
  assert (H4 : (4 ≤ length example_psi)%nat) by (cbn; lia).
  assert (Hd : dx2 example_self ≠ 0) by (by intros H%(f_equal this)).
  split; [exact Ho|]. split; [exact H4|]. split; [exact Hd|].
  destruct (deriv_free_ends zero_junk (λ _ _ _, 1) example_self example_psi 4
              Ho H4 Hd)
    as (df & dfd & E & _ & _ & H0 & _).
  exists df. split; [exact E|].
  rewrite H0. f_equal. apply Qc_is_canon. reflexivity.
Defined.

(** X4.  An [order] other than 2 and 4 is not rejected: [deriv] skips the
    stencil and, with [dirichlet = True], returns an array that is zero at
    the two ends and holds between them what [np.empty_like] returned,
    divided by [dx2]: no entry is computed from the samples of [psi]. *)
Theorem deriv_unsupported_order junk (self : Wavefunction)
    (psi : list Qc) (order : Z) :
  order ≠ 2%Z → order ≠ 4%Z → (1 ≤ length psi)%nat → dx2 self ≠ 0 →
  ∃ df,
    deriv junk self psi order true = Ok df
    ∧ length df = length psi
    ∧ df !! 0%nat = Some 0
    ∧ df !! (length psi - 1)%nat = Some 0
    ∧ ∀ j, (0 < j)%nat → (j + 1 < length psi)%nat →
        df !! j = Some (junk 2%nat 0%nat j / dx2 self).
Proof.
  intros H2 H4 Hn Hdx.
  pose proof (length_np_empty_like junk psi) as L0.
  eexists. split; [by apply deriv_eval|].
  unfold filled. rewrite decide_False, decide_False by done.
  split; [by rewrite length_vdiv, length_ended|].
  split.
  { unfold vdiv, ended. rewrite list_lookup_fmap, L0.
    destruct (decide (length psi = 1%nat)) as [E1|E1].
    - rewrite E1. cbn [Nat.sub].
      rewrite list_lookup_insert_eq by (rewrite length_insert; lia).
      cbn. by rewrite Qcdiv_0_l.
    - rewrite list_lookup_insert_ne by lia.
      rewrite list_lookup_insert_eq by lia. cbn. by rewrite Qcdiv_0_l. }
  split.
  { unfold vdiv. rewrite list_lookup_fmap. rewrite <- L0 at 1.
    rewrite ended_last by lia. cbn. by rewrite Qcdiv_0_l. }
  intros j Hj0 Hj1.
  unfold vdiv. rewrite list_lookup_fmap, ended_inner by lia.
  unfold np_empty_like, np_empty. rewrite list_lookup_fmap.
  rewrite lookup_seq_lt by lia. done.
Qed.

Lemma deriv_unsupported_order_witness :
  3%Z ≠ 2%Z ∧ 3%Z ≠ 4%Z ∧ (1 ≤ length example_psi)%nat
  ∧ dx2 example_self ≠ 0
  ∧ ∃ df, deriv (λ _ _ _, 1) example_self example_psi 3 true = Ok df
          ∧ df !! 2%nat = Some (1 / dx2 example_self).
Proof.
  assert (H2 : 3%Z ≠ 2%Z) by lia. assert (H4 : 3%Z ≠ 4%Z) by lia.
  assert (H1 : (1 ≤ length example_psi)%nat) by (cbn; lia).
  assert (Hd : dx2 example_self ≠ 0) by (by intros H%(f_equal this)).
  split; [exact H2|]. split; [exact H4|]. split; [exact H1|].
  split; [exact Hd|].
  destruct (deriv_unsupported_order (λ _ _ _, 1) example_self example_psi 3
              H2 H4 H1 Hd) as (df & E & _ & _ & _ & Hin).
  exists df. split; [exact E|]. apply (Hin 2%nat); cbn; lia.
Defined.

(** X5.  With a supported [order], every entry of the buffer [np.empty_like]
    returned is overwritten before [deriv] returns: the result is the same
    whatever that buffer held. *)
Theorem deriv_overwrites_buffer junk junk' (self : Wavefunction)
    (psi : list Qc) (order : Z) (dirichlet : bool) :
  order = 2%Z ∨ order = 4%Z →
  deriv junk self psi order dirichlet = deriv junk' self psi order dirichlet.
Proof.
  intros Ho.
  destruct (decide ((1 ≤ length psi)%nat
                    ∧ (order = 4%Z → (3 ≤ length psi)%nat)
                    ∧ (dirichlet = false → (4 ≤ length psi)%nat)))
    as [(H1 & H3 & H4)|Hno].
  - rewrite !deriv_eval by done. do 2 f_equal.
    apply ended_filled_junk; try apply length_np_empty_like.
    destruct Ho as [->| ->]; [by left | right; auto].
  - by rewrite !deriv_too_short.
Qed.

Lemma deriv_overwrites_buffer_witness :
  (4%Z = 2%Z ∨ 4%Z = 4%Z)
  ∧ deriv zero_junk example_self example_psi 4 true
    = deriv (λ _ _ _, 1) example_self example_psi 4 true.
Proof.
  assert (Ho : 4%Z = 2%Z ∨ 4%Z = 4%Z) by (by right).
  split; [exact Ho|].
  exact (deriv_overwrites_buffer zero_junk (λ _ _ _, 1) example_self
           example_psi 4 true Ho).
Defined.

(** ** What the stencils compute *)

Lemma lookup_total_quadratic (a b c : Qc) (n k : nat) :
  (k < n)%nat →
  quadratic_samples a b c n !!! k = quadratic a b c (Z.of_nat k).
Proof.
  intros Hk. apply list_lookup_total_correct. unfold quadratic_samples.
  rewrite list_lookup_fmap, lookup_seq_lt by done. done.
Qed.

Lemma Qc_twelve_nonzero : Qc_of_Z 12 ≠ 0.
Proof. rewrite <- Z2Qc_inj_0. by intros H%Z2Qc_inj. Qed.

(** The five-point and the three-point stencil are exact on quadratics. *)
Lemma five_point_quadratic (a b c : Qc) (z : Z) :
  (- quadratic a b c z + Qc_of_Z 16 * quadratic a b c (z + 1)
   - Qc_of_Z 30 * quadratic a b c (z + 2)
   + Qc_of_Z 16 * quadratic a b c (z + 3) - quadratic a b c (z + 4))
  / Qc_of_Z 12
  = 2 * c.
Proof.
  unfold quadratic. rewrite !Z2Qc_inj_add. rewrite Z2Qc_inj_1, Z2Qc_inj_2.
  assert (E3 : Qc_of_Z 3 = 2 + 1) by (by apply Qc_is_canon).
  assert (E4 : Qc_of_Z 4 = 2 * 2) by (by apply Qc_is_canon).
  assert (E12 : Qc_of_Z 12 = 2 * 2 * (2 + 1)) by (by apply Qc_is_canon).
  assert (E16 : Qc_of_Z 16 = 2 * 2 * 2 * 2) by (by apply Qc_is_canon).
  assert (E30 : Qc_of_Z 30 = 2 * (2 * 2 * 2 * 2 - 1))
    by (by apply Qc_is_canon).
  assert (N3 : (2 : Qc) + 1 ≠ 0) by (by intros H%(f_equal this)).
  rewrite E3, E4, E12, E16, E30. field.
  by intros H%(f_equal this).
Qed.

Lemma three_point_quadratic (a b c : Qc) (z : Z) :
  quadratic a b c (z + 2) - 2 * quadratic a b c (z + 1) + quadratic a b c z
  = 2 * c.
Proof.
  unfold quadratic. rewrite !Z2Qc_inj_add. rewrite Z2Qc_inj_1, Z2Qc_inj_2.
  ring.
Qed.

Lemma three_point_quadratic_rev (a b c : Qc) (z : Z) :
  quadratic a b c z - 2 * quadratic a b c (z + 1) + quadratic a b c (z + 2)
  = 2 * c.
Proof. rewrite <- (three_point_quadratic a b c z). ring. Qed.

(** X6.  On samples of a quadratic [a + b*j + c*j**2], [deriv] with its
    default arguments returns [2*c / dx2] at every index but the two ends:
    both stencils are exact there. *)
Theorem deriv_exact_on_quadratics junk (self : Wavefunction) (a b c : Qc)
    (n : nat) :
  (3 ≤ n)%nat → dx2 self ≠ 0 →
  ∃ df,
    deriv junk self (quadratic_samples a b c n) 4 true = Ok df
    ∧ length df = n
    ∧ ∀ j, (0 < j)%nat → (j + 1 < n)%nat → df !! j = Some (2 * c / dx2 self).
Proof.
  intros Hn Hdx.
  assert (Ln : length (quadratic_samples a b c n) = n)
    by (unfold quadratic_samples; by rewrite length_fmap, length_seq).
  pose proof (length_np_empty_like junk (quadratic_samples a b c n)) as L0.
  exists (deriv4 junk self (quadratic_samples a b c n)).
  split; [apply deriv4_code; lia|].
  split; [rewrite length_deriv4; lia|].
  intros j Hj0 Hj1. unfold deriv4, vdiv. rewrite list_lookup_fmap.
  destruct (decide (j = 1%nat)) as [->|H1].
  { rewrite df_dirichlet_near_left by (done || lia).
    rewrite !lookup_total_quadratic by lia. cbn [fmap option_fmap option_map].
    do 2 f_equal. apply (three_point_quadratic_rev a b c 0). }
  destruct (decide (j = (n - 2)%nat)) as [->|H2].
  { rewrite <- Ln at 1. rewrite df_dirichlet_near_right by (done || lia).
    rewrite Ln. rewrite !lookup_total_quadratic by lia.
    cbn [fmap option_fmap option_map]. do 2 f_equal.
    replace (Z.of_nat (n - 1)) with (Z.of_nat (n - 3) + 2)%Z by lia.
    replace (Z.of_nat (n - 2)) with (Z.of_nat (n - 3) + 1)%Z by lia.
    apply three_point_quadratic. }
  rewrite df_dirichlet_inner by (done || lia).
  rewrite !lookup_total_quadratic by lia.
  cbn [fmap option_fmap option_map]. do 2 f_equal.
  replace (Z.of_nat (j - 1)) with (Z.of_nat (j - 2) + 1)%Z by lia.
  replace (Z.of_nat j) with (Z.of_nat (j - 2) + 2)%Z by lia.
  replace (Z.of_nat (j + 1)) with (Z.of_nat (j - 2) + 3)%Z by lia.
  replace (Z.of_nat (j + 2)) with (Z.of_nat (j - 2) + 4)%Z by lia.
  apply five_point_quadratic.
Qed.

Lemma deriv_exact_on_quadratics_witness :
  (3 ≤ 7)%nat ∧ dx2 example_self ≠ 0
  ∧ ∃ df,
      deriv zero_junk example_self (quadratic_samples 1 2 1 7) 4 true = Ok df
      ∧ df !! 3%nat = Some (2 * 1 / dx2 example_self).
Proof.
  assert (H3 : (3 ≤ 7)%nat) by lia.
  assert (Hd : dx2 example_self ≠ 0) by (by intros H%(f_equal this)).
  split; [exact H3|]. split; [exact Hd|].
  destruct (deriv_exact_on_quadratics zero_junk example_self 1 2 1 7 H3 Hd)
    as (df & E & _ & Hin).
  exists df. split; [exact E|]. apply Hin; lia.
Defined.

(** ** The trajectory [solve] stores *)

Lemma pin_row_id (b0 b1 : Qc) (r : list Qc) :
  row_pinned b0 b1 r → pin_row b0 b1 r = r.
Proof.
  intros [H0 H1]. unfold pin_row.
  rewrite (list_insert_id r 0 b0) by done. by apply list_insert_id.
Qed.

Lemma deriv4_config junk (s s0 : Wavefunction) :
  dx2 s = dx2 s0 → deriv4 junk s = deriv4 junk s0.
Proof. intros H. unfold deriv4. by rewrite H. Qed.

Lemma set_rows_id (s : Wavefunction) :
  set_imag (set_real s (real s)) (imag s) = s.
Proof. by destruct s. Qed.

Section Trajectory.
Variable junk : nat → nat → nat → Qc.
Variables n w : nat.
Hypothesis Hw : (3 ≤ w)%nat.

Local Abbreviation Inv k self :=
  (has_shape n w (real self) ∧ has_shape n w (imag self)
   ∧ pinned_upto k self).

(** A pass for row [k] on an object whose row [k] carries the boundary
    values only writes row [k + 1]: [_setbcs(k)] stores what is there. *)
Lemma solve_body_pinned (k : nat) (kb : kbufs) (self : Wavefunction)
    (re im : list Qc) :
  (S k < n)%nat → Inv k self →
  has_shape 4 w kb.1 → has_shape 4 w kb.2 →
  real self !! k = Some re → imag self !! k = Some im →
  solve_body junk (Z.of_nat k) kb self
  = Ok ((code_stages (deriv4 junk self) (dt self) (- half) im,
         code_stages (deriv4 junk self) (dt self) half re),
        pass_mid junk self k re im).
Proof.
  intros Hk (Sr & Si & Pr & Pi) Kr Ki Hre Him.
  rewrite (solve_body_pass junk self k n w kb re im) by done.
  rewrite (pin_row_id _ _ re) by (by apply (Pr k)).
  rewrite (pin_row_id _ _ im) by (by apply (Pi k)).
  rewrite (list_insert_id _ k re) by (by rewrite list_lookup_insert_ne by lia).
  rewrite (list_insert_id _ k im) by (by rewrite list_lookup_insert_ne by lia).
  reflexivity.
Qed.

Lemma for_loop_trajectory (D : list Qc → list Qc) (h : Qc) (m k : nat)
    (kb : kbufs) (self : Wavefunction) :
  (k + m < n)%nat → Inv k self →
  has_shape 4 w kb.1 → has_shape 4 w kb.2 →
  deriv4 junk self = D → dt self = h →
  advanced D h (real self) (imag self) k →
  ∃ kb' self',
    for_loop (solve_body junk)
      ((λ j : nat, (0 + Z.of_nat j)%Z) <$> seq k m) kb self
    = Ok (kb', self')
    ∧ Inv (k + m) self' ∧ same_config self self'
    ∧ (∀ j, (j ≤ k)%nat →
         real self' !! j = real self !! j ∧ imag self' !! j = imag self !! j)
    ∧ advanced D h (real self') (imag self') (k + m).
Proof.
  revert k kb self.
  induction m as [|m IH]; intros k kb self Hk HI Hkr Hki HD Hh HA.
  - exists kb, self. rewrite Nat.add_0_r. cbn.
    split; [done|]. split; [done|]. split; [apply same_config_refl|].
    split; done.
  - destruct HI as (Sr & Si & P).
    destruct (has_shape_lookup _ _ _ k Sr) as (re & Hre & Lre); [lia|].
    destruct (has_shape_lookup _ _ _ k Si) as (im & Him & Lim); [lia|].
    destruct (solve_body_step junk n w Hw k kb self)
      as (kb1 & s1 & E1 & I1 & K1 & K2 & C1); [lia | done..|].
    pose proof E1 as E1'.
    rewrite (solve_body_pinned k kb self re im) in E1' by (done || lia).
    injection E1' as <- <-.
    destruct (IH (S k)
                (code_stages (deriv4 junk self) (dt self) (- half) im,
                 code_stages (deriv4 junk self) (dt self) half re)
                (pass_mid junk self k re im))
      as (kb2 & s2 & E2 & I2 & C2 & F2 & A2); try done.
    + lia.
    + intros j u v Hj Hu Hv. unfold pass_mid in Hu, Hv |- *.
      cbn [real imag set_real set_imag] in Hu, Hv |- *.
      destruct (decide (j = k)) as [->|Hjk].
      * rewrite list_lookup_insert_ne in Hu, Hv by lia.
        rewrite Hre in Hu. rewrite Him in Hv.
        injection Hu as <-. injection Hv as <-.
        rewrite <- HD, <- Hh.
        split; apply list_lookup_insert_eq;
          [rewrite (proj1 Sr) | rewrite (proj1 Si)]; lia.
      * rewrite list_lookup_insert_ne in Hu, Hv by lia.
        rewrite !list_lookup_insert_ne by lia.
        apply HA; (done || lia).
    + exists kb2, s2.
      split; [|split; [|split; [|split]]].
      * cbn [seq fmap list_fmap for_loop].
        change (0 + Z.of_nat k)%Z with (Z.of_nat k). rewrite E1. ok_step.
        exact E2.
      * by replace (k + S m)%nat with (S k + m)%nat by lia.
      * by eapply same_config_trans.
      * intros j Hj. destruct (F2 j ltac:(lia)) as [-> ->].
        unfold pass_mid. cbn [real imag set_real set_imag].
        by rewrite !list_lookup_insert_ne by lia.
      * by replace (k + S m)%nat with (S k + m)%nat by lia.
Qed.

End Trajectory.

Lemma advanced_0 (D : list Qc → list Qc) (h : Qc) (re_ im_ : list (list Qc)) :
  advanced D h re_ im_ 0.
Proof. intros j re im Hj. lia. Qed.

(** [solve] on an object with [nt >= 1] rows of width [nx >= 3] whose row 0
    carries the boundary values: it returns, keeps row 0, the shapes and
    the configuration, and leaves in each later row the new row of the
    pass on the row before. *)
Lemma solve_trajectory junk (self : Wavefunction) :
  (1 ≤ nt self)%Z → (3 ≤ nx self)%Z →
  has_shape (Z.to_nat (nt self)) (Z.to_nat (nx self)) (real self) →
  has_shape (Z.to_nat (nt self)) (Z.to_nat (nx self)) (imag self) →
  pinned_upto 0 self →
  ∃ self',
    solve junk self = Ok ((), self')
    ∧ has_shape (Z.to_nat (nt self)) (Z.to_nat (nx self)) (real self')
    ∧ has_shape (Z.to_nat (nt self)) (Z.to_nat (nx self)) (imag self')
    ∧ pinned_upto (Z.to_nat (nt self) - 1) self'
    ∧ same_config self self'
    ∧ real self' !! 0%nat = real self !! 0%nat
    ∧ imag self' !! 0%nat = imag self !! 0%nat
    ∧ advanced (deriv4 junk self) (dt self) (real self') (imag self')
        (Z.to_nat (nt self) - 1).
Proof.
  intros Hnt Hnx Sr Si P0. unfold solve.
  rewrite !np_empty2_Ok by lia. do 2 ok_step.
  rewrite py_range_seq.
  destruct (for_loop_trajectory junk (Z.to_nat (nt self))
              (Z.to_nat (nx self)) ltac:(lia) (deriv4 junk self) (dt self)
              (Z.to_nat (nt self - 1)) 0
              (empty2 junk 3 4 (nx self), empty2 junk 4 4 (nx self)) self)
    as (kb' & self' & E & (Sr' & Si' & P') & C & F & A).
  - lia.
  - done.
  - split; cbn [fst snd]; [by rewrite length_empty2 | apply empty2_widths].
  - split; cbn [fst snd]; [by rewrite length_empty2 | apply empty2_widths].
  - done.
  - done.
  - apply advanced_0.
  - exists self'. rewrite E. ok_step.
    replace (Z.to_nat (nt self) - 1)%nat with (0 + Z.to_nat (nt self - 1))%nat
      by lia.
    destruct (F 0%nat (le_n 0)) as [F0 F1].
    split; [done|]. split; [done|]. split; [done|]. split; [done|].
    split; [done|]. split; [done|]. split; done.
Qed.

(** On an object whose rows already follow one another, a pass of the
    loop writes to row [k + 1] what is there. *)
Lemma for_loop_fixed junk (n w : nat) (m k : nat) (kb : kbufs)
    (self : Wavefunction) :
  (3 ≤ w)%nat → (k + m < n)%nat →
  has_shape n w (real self) → has_shape n w (imag self) →
  pinned_upto (n - 1) self →
  advanced (deriv4 junk self) (dt self) (real self) (imag self) (n - 1) →
  has_shape 4 w kb.1 → has_shape 4 w kb.2 →
  ∃ kb',
    for_loop (solve_body junk)
      ((λ j : nat, (0 + Z.of_nat j)%Z) <$> seq k m) kb self
    = Ok (kb', self).
Proof.
  intros Hw. revert k kb.
  induction m as [|m IH]; intros k kb Hk Sr Si P A Kr Ki.
  - by exists kb.
  - destruct (has_shape_lookup _ _ _ k Sr) as (re & Hre & Lre); [lia|].
    destruct (has_shape_lookup _ _ _ k Si) as (im & Him & Lim); [lia|].
    destruct (A k re im ltac:(lia) Hre Him) as [Are Aim].
    assert (Pk : pinned_upto k self).
    { destruct P as [Pr Pi].
      split; intros j u Hj Hu; [apply (Pr j) | apply (Pi j)]; (done || lia). }
    assert (Hmid : pass_mid junk self k re im = self).
    { unfold pass_mid. rewrite !list_insert_id by done. apply set_rows_id. }
    destruct (IH (S k)
                (code_stages (deriv4 junk self) (dt self) (- half) im,
                 code_stages (deriv4 junk self) (dt self) half re))
      as [kb' E]; try done.
    + lia.
    + apply code_stages_shape; [|done].
      intros; by apply width_deriv4.
    + apply code_stages_shape; [|done].
      intros; by apply width_deriv4.
    + exists kb'. cbn [seq fmap list_fmap for_loop].
      change (0 + Z.of_nat k)%Z with (Z.of_nat k).
      rewrite (solve_body_pinned junk n w Hw k kb self re im)
        by (done || lia).
      ok_step. rewrite Hmid. exact E.
Qed.

(** ** What the stored field does not depend on *)

Lemma df_dirichlet_covers (df0 df0' psi : list Qc) :
  length df0 = length psi → length df0' = length psi →
  (3 ≤ length psi)%nat →
  df_dirichlet df0 psi = df_dirichlet df0' psi.
Proof.
  intros H0 H0' Hn. apply list_eq. intros j.
  destruct (decide (j < length psi)%nat) as [Hj|Hj].
  - destruct (decide (j = 0%nat)) as [->|Hf].
    { by rewrite !df_dirichlet_first. }
    destruct (decide (j = (length psi - 1)%nat)) as [->|Hl].
    { by rewrite !df_dirichlet_last. }
    destruct (decide (j = 1%nat)) as [->|H1].
    { by rewrite !df_dirichlet_near_left. }
    destruct (decide (j = (length psi - 2)%nat)) as [->|H2].
    { by rewrite !df_dirichlet_near_right. }
    by rewrite !df_dirichlet_inner by (done || lia).
  - rewrite !lookup_ge_None_2; [done|rewrite length_df_dirichlet..];
      (done || lia).
Qed.

Lemma deriv4_junk junk junk' (s s' : Wavefunction) (psi : list Qc) :
  dx2 s = dx2 s' → (3 ≤ length psi)%nat →
  deriv4 junk s psi = deriv4 junk' s' psi.
Proof.
  intros Hdx Hn. unfold deriv4. rewrite Hdx. f_equal.
  apply df_dirichlet_covers; (done || apply length_np_empty_like).
Qed.

(** The new row only uses the derivative operator on rows of width [w]. *)
Lemma code_next_ext (D D' : list Qc → list Qc) (h c : Qc) (w : nat)
    (u v : list Qc) :
  (∀ psi, length psi = w → D psi = D' psi) →
  (∀ psi, length psi = w → length (D psi) = w) →
  length u = w →
  code_next D h c u v = code_next D' h c u v.
Proof.
  intros HE HD Hu.
  pose proof (length_stage_first D w HD c u Hu) as L0.
  pose proof (length_stage_half D h w HD c u _ Hu L0) as L1.
  pose proof (length_stage_half D h w HD c u _ Hu L1) as L2.
  assert (E0 : stage_first D c u = stage_first D' c u)
    by (unfold stage_first; by rewrite HE).
  assert (Eh : ∀ k, length k = w → stage_half D h c u k = stage_half D' h c u k).
  { intros k Hk. unfold stage_half. rewrite HE; [done|].
    rewrite length_vplus; rewrite ?length_vdiv, ?length_vscale; congruence. }
  assert (Ef : ∀ k, length k = w → stage_full D h c u k = stage_full D' h c u k).
  { intros k Hk. unfold stage_full. rewrite HE; [done|].
    rewrite length_vplus; rewrite ?length_vscale; congruence. }
  unfold code_next.
  rewrite <- E0. rewrite <- (Eh _ L0). rewrite <- (Eh _ L1).
  by rewrite <- (Ef _ L2).
Qed.

Lemma advanced_ext (D D' : list Qc → list Qc) (h : Qc) (n w k : nat)
    (re_ im_ : list (list Qc)) :
  (∀ psi, length psi = w → D psi = D' psi) →
  (∀ psi, length psi = w → length (D psi) = w) →
  has_shape n w re_ → has_shape n w im_ →
  advanced D h re_ im_ k → advanced D' h re_ im_ k.
Proof.
  intros HE HD [_ Fr] [_ Fi] A j re im Hj Hre Him.
  pose proof (Forall_lookup_1 _ _ _ _ Fr Hre) as Lre.
  pose proof (Forall_lookup_1 _ _ _ _ Fi Him) as Lim.
  cbv beta in Lre, Lim.
  destruct (A j re im Hj Hre Him) as [-> ->].
  split; f_equal; by apply (code_next_ext D D' h _ w).
Qed.

(** Two arrays with the same row 0 whose rows follow one another by the
    same rule are the same array. *)
Lemma advanced_unique (D : list Qc → list Qc) (h : Qc) (n : nat)
    (re1 im1 re2 im2 : list (list Qc)) :
  length re1 = n → length im1 = n → length re2 = n → length im2 = n →
  re1 !! 0%nat = re2 !! 0%nat → im1 !! 0%nat = im2 !! 0%nat →
  advanced D h re1 im1 (n - 1) → advanced D h re2 im2 (n - 1) →
  re1 = re2 ∧ im1 = im2.
Proof.
  intros L1 M1 L2 M2 R0 I0 A1 A2.
  assert (H : ∀ j, (j < n)%nat → re1 !! j = re2 !! j ∧ im1 !! j = im2 !! j).
  { induction j as [|j IH]; intros Hj; [done|].
    destruct IH as [ER EI]; [lia|].
    destruct (lookup_lt_is_Some_2 re1 j) as [u Hu]; [lia|].
    destruct (lookup_lt_is_Some_2 im1 j) as [v Hv]; [lia|].
    destruct (A1 j u v ltac:(lia) Hu Hv) as [-> ->].
    rewrite ER in Hu. rewrite EI in Hv.
    by destruct (A2 j u v ltac:(lia) Hu Hv) as [-> ->]. }
  split; apply list_eq; intros j.
  - destruct (decide (j < n)%nat) as [Hj|Hj]; [by apply H|].
    rewrite !lookup_ge_None_2; (done || lia).
  - destruct (decide (j < n)%nat) as [Hj|Hj]; [by apply H|].
    rewrite !lookup_ge_None_2; (done || lia).
Qed.

Lemma Wavefunction_eq (s s' : Wavefunction) :
  same_config s s' → real s' = real s → imag s' = imag s → s' = s.
Proof.
  destruct s, s'. unfold same_config. cbn.
  intros (-> & -> & -> & -> & -> & -> & -> & -> & ->) -> ->. done.
Qed.

(** ** Properties of [solve] *)

(** X8.  After [solve] on an object built by [__init__] with at least three
    grid points, the configuration and row 0 are as [__init__] left them,
    and every later row of the field is the new row of the recurrence of the
    advance step, run on the row before it as it is stored now: no row is
    changed again after the pass that wrote it. *)
Theorem solve_stores_trajectory junk (initial : list Qc → list complex)
    (dx dt_ : Qc) (xrange trange : Qc * Qc) (b : complex * complex)
    (self : Wavefunction) :
  __init__ junk initial dx dt_ xrange trange b = Ok self →
  (3 ≤ nx self)%Z →
  ∃ self',
    solve junk self = Ok ((), self')
    ∧ same_config self self'
    ∧ real self' !! 0%nat = real self !! 0%nat
    ∧ imag self' !! 0%nat = imag self !! 0%nat
    ∧ ∀ i : nat, (Z.of_nat i + 1 < nt self)%Z →
        ∃ re im st,
          real self' !! i = Some re ∧ imag self' !! i = Some im
          ∧ spec_advance (λ psi, deriv junk self' psi 4 true) (dt self') re im
            = Ok st
          ∧ real self' !! S i = Some (real_next st)
          ∧ imag self' !! S i = Some (imag_next st).
Proof.
  intros Hinit H3.
  destruct (init_counts _ _ _ _ _ _ _ _ Hinit) as (_ & _ & Hnx & Hnt).
  destruct (init_shape _ _ _ _ _ _ _ _ Hinit) as [Sr Si].
  pose proof (init_pinned _ _ _ _ _ _ _ _ Hinit ltac:(lia)) as P0.
  destruct (solve_trajectory junk self Hnt H3 Sr Si P0)
    as (self' & E & Sr' & Si' & P' & C & R0 & I0 & A).
  exists self'. split; [done|]. split; [done|]. split; [done|].
  split; [done|].
  intros i Hi.
  destruct (has_shape_lookup _ _ _ i Sr') as (re & Hre & Lre); [lia|].
  destruct (has_shape_lookup _ _ _ i Si') as (im & Him & Lim); [lia|].
  destruct (A i re im ltac:(lia) Hre Him) as [Are Aim].
  destruct C as (Cdx & Cdt & _).
  exists re, im. eexists. split; [done|]. split; [done|].
  split.
  - apply (spec_advance_eval junk self' (Z.to_nat (nx self)) re im);
      (done || lia).
  - cbn [real_next imag_next].
    rewrite (deriv4_config junk self' self Cdx), Cdt. done.
Qed.

Lemma solve_stores_trajectory_witness :
  ∃ self self' re im st,
    __init__ zero_junk example_initial example_dx example_dt default_xrange
      default_trange example_boundaries = Ok self
    ∧ (3 ≤ nx self)%Z
    ∧ solve zero_junk self = Ok ((), self')
    ∧ real self' !! 0%nat = Some re ∧ imag self' !! 0%nat = Some im
    ∧ spec_advance (λ psi, deriv zero_junk self' psi 4 true) (dt self') re im
      = Ok st
    ∧ real self' !! 1%nat = Some (real_next st).
Proof.
  eexists.
  assert (Hi : __init__ zero_junk example_initial example_dx example_dt
                 default_xrange default_trange example_boundaries = Ok _)
    by (vm_compute; reflexivity).
  destruct (solve_stores_trajectory zero_junk example_initial example_dx
              example_dt default_xrange default_trange example_boundaries _
              Hi ltac:(by vm_compute))
    as (self' & E & _ & _ & _ & Hrows).
  destruct (Hrows 0%nat ltac:(by vm_compute))
    as (re & im & st & Hre & Him & Hst & Hn & _).
  exists self', re, im, st.
  split; [exact Hi|]. split; [by vm_compute|]. split; [exact E|].
  split; [exact Hre|]. split; [exact Him|]. split; [exact Hst | exact Hn].
Defined.

(** X9.  Calling [solve] again on the object it returned changes nothing,
    whatever the scratch buffers of the second call hold. *)
Theorem solve_again_is_identity junk junk'
    (initial : list Qc → list complex) (dx dt_ : Qc)
    (xrange trange : Qc * Qc) (b : complex * complex) (self : Wavefunction) :
  __init__ junk initial dx dt_ xrange trange b = Ok self →
  (3 ≤ nx self)%Z →
  ∃ self',
    solve junk self = Ok ((), self') ∧ solve junk' self' = Ok ((), self').
Proof.
  intros Hinit H3.
  destruct (init_counts _ _ _ _ _ _ _ _ Hinit) as (_ & _ & Hnx & Hnt).
  destruct (init_shape _ _ _ _ _ _ _ _ Hinit) as [Sr Si].
  pose proof (init_pinned _ _ _ _ _ _ _ _ Hinit ltac:(lia)) as P0.
  destruct (solve_trajectory junk self Hnt H3 Sr Si P0)
    as (self' & E & Sr' & Si' & P' & C & R0 & I0 & A).
  exists self'. split; [done|].
  destruct C as (Cdx & Cdt & _ & Cnx & Cnt & _).
  assert (A' : advanced (deriv4 junk' self') (dt self') (real self')
                 (imag self') (Z.to_nat (nt self) - 1)).
  { rewrite Cdt.
    apply (advanced_ext (deriv4 junk self) _ _ (Z.to_nat (nt self))
             (Z.to_nat (nx self))); try done.
    - intros psi Hpsi. apply deriv4_junk; [done | lia].
    - intros psi Hpsi. apply width_deriv4; [lia | done]. }
  unfold solve. rewrite Cnx, Cnt.
  rewrite !np_empty2_Ok by lia. do 2 ok_step.
  rewrite py_range_seq.
  destruct (for_loop_fixed junk' (Z.to_nat (nt self)) (Z.to_nat (nx self))
              (Z.to_nat (nt self - 1)) 0
              (empty2 junk' 3 4 (nx self), empty2 junk' 4 4 (nx self)) self')
    as [kb' E']; try done.
  - lia.
  - lia.
  - split; cbn [fst snd]; [by rewrite length_empty2 | apply empty2_widths].
  - split; cbn [fst snd]; [by rewrite length_empty2 | apply empty2_widths].
  - by rewrite E'.
Qed.

Lemma solve_again_is_identity_witness :
  ∃ self self',
    __init__ zero_junk example_initial example_dx example_dt default_xrange
      default_trange example_boundaries = Ok self
    ∧ (3 ≤ nx self)%Z
    ∧ solve zero_junk self = Ok ((), self')
    ∧ solve (λ _ _ _, 1) self' = Ok ((), self').
Proof.
  eexists.
  assert (Hi : __init__ zero_junk example_initial example_dx example_dt
                 default_xrange default_trange example_boundaries = Ok _)
    by (vm_compute; reflexivity).
  destruct (solve_again_is_identity zero_junk (λ _ _ _, 1) example_initial
              example_dx example_dt default_xrange default_trange
              example_boundaries _ Hi ltac:(by vm_compute))
    as (self' & E & E').
  exists self'.
  split; [exact Hi|]. split; [by vm_compute|]. split; [exact E | exact E'].
Defined.

(** X10.  Every entry of the two arrays [np.empty] returned in [__init__] is
    written by the time [solve] returns: constructing and solving with
    different contents of uninitialised memory gives the same object. *)
Theorem solve_overwrites_arrays junk junk'
    (initial : list Qc → list complex) (dx dt_ : Qc)
    (xrange trange : Qc * Qc) (b : complex * complex)
    (s s' r r' : Wavefunction) :
  __init__ junk initial dx dt_ xrange trange b = Ok s →
  __init__ junk' initial dx dt_ xrange trange b = Ok s' →
  solve junk s = Ok ((), r) → solve junk' s' = Ok ((), r') →
  (3 ≤ nx s)%Z →
  r = r'.
Proof.
  intros Hs Hs' Hr Hr' H3.
  destruct (init_counts _ _ _ _ _ _ _ _ Hs) as (Enx & Ent & Hnx & Hnt).
  destruct (init_counts _ _ _ _ _ _ _ _ Hs') as (Enx' & Ent' & _ & _).
  destruct (init_shape _ _ _ _ _ _ _ _ Hs) as [Sr Si].
  destruct (init_shape _ _ _ _ _ _ _ _ Hs') as [Sr' Si'].
  pose proof (init_pinned _ _ _ _ _ _ _ _ Hs ltac:(lia)) as P0.
  pose proof (init_pinned _ _ _ _ _ _ _ _ Hs' ltac:(lia)) as P0'.
  destruct (solve_trajectory junk s Hnt H3 Sr Si P0)
    as (r1 & E & Tr & Ti & _ & C & R0 & I0 & A).
  rewrite E in Hr. injection Hr as ->.
  destruct (solve_trajectory junk' s' ltac:(lia) ltac:(lia) Sr' Si' P0')
    as (r1 & E' & Tr' & Ti' & _ & C' & R0' & I0' & A').
  rewrite E' in Hr'. injection Hr' as ->.
  destruct (init_inv _ _ _ _ _ _ _ _ Hs)
    as (_ & _ & _ & _ & xs & ts & r0 & m0 & Hxs & Hts & Hr0 & Hm0 & Es).
  destruct (init_inv _ _ _ _ _ _ _ _ Hs')
    as (_ & _ & _ & _ & xs' & ts' & r0' & m0' & Hxs' & Hts' & Hr0' & Hm0'
        & Es').
  rewrite Hxs in Hxs'. injection Hxs' as <-.
  rewrite Hts in Hts'. injection Hts' as <-.
  rewrite Hr0 in Hr0'. injection Hr0' as <-.
  rewrite Hm0 in Hm0'. injection Hm0' as <-.
  assert (Cs : same_config s s') by (rewrite Es, Es'; by repeat split).
  assert (Row0 : real s !! 0%nat = real s' !! 0%nat
                 ∧ imag s !! 0%nat = imag s' !! 0%nat).
  { rewrite Es, Es'. cbn [real imag init_value].
    rewrite !list_lookup_insert_eq by (rewrite length_empty2; lia). done. }
  destruct Row0 as [Rs Is].
  assert (Cr : same_config r r').
  { unfold same_config in *.
    destruct C as (?&?&?&?&?&?&?&?&?), C' as (?&?&?&?&?&?&?&?&?),
      Cs as (?&?&?&?&?&?&?&?&?).
    repeat split; congruence. }
  destruct Cs as (Cdx & Cdt & _ & Cnx & Cnt & _).
  rewrite Cnx, Cnt in Tr', Ti'. rewrite Cnt in A'.
  assert (A2 : advanced (deriv4 junk s) (dt s) (real r') (imag r')
                 (Z.to_nat (nt s) - 1)).
  { rewrite <- Cdt.
    apply (advanced_ext (deriv4 junk' s') _ _ (Z.to_nat (nt s))
             (Z.to_nat (nx s))); try done.
    - intros psi Hpsi. apply deriv4_junk; [done | lia].
    - intros psi Hpsi. apply width_deriv4; [lia | done]. }
  destruct (advanced_unique (deriv4 junk s) (dt s) (Z.to_nat (nt s))
              (real r) (imag r) (real r') (imag r'))
    as [ER EI]; try done.
  - apply Tr.
  - apply Ti.
  - apply Tr'.
  - apply Ti'.
  - congruence.
  - congruence.
  - symmetry. by apply Wavefunction_eq.
Qed.

Lemma solve_overwrites_arrays_witness :
  ∃ s s' r r',
    __init__ zero_junk example_initial example_dx example_dt default_xrange
      default_trange example_boundaries = Ok s
    ∧ __init__ (λ _ _ _, 1) example_initial example_dx example_dt
        default_xrange default_trange example_boundaries = Ok s'
    ∧ solve zero_junk s = Ok ((), r) ∧ solve (λ _ _ _, 1) s' = Ok ((), r')
    ∧ (3 ≤ nx s)%Z ∧ s ≠ s' ∧ r = r'.
Proof.
  eexists _, _, _, _.
  split; [vm_compute; reflexivity|]. split; [vm_compute; reflexivity|].
  split; [vm_compute; reflexivity|]. split; [vm_compute; reflexivity|].
  split; [by vm_compute|]. split; [by vm_compute|].
  refine (solve_overwrites_arrays zero_junk (λ _ _ _, 1) example_initial
            example_dx example_dt default_xrange default_trange
            example_boundaries _ _ _ _ _ _ _ _ _);
    first [by vm_compute | vm_compute; reflexivity].
Defined.

(** X11.  [solve] on an object built by [__init__] returns exactly when there
    is a single time row, which it leaves as it is without entering the
    loop, or the grid has at least three points; otherwise the first call of
    [deriv] raises [IndexError]. *)
Theorem solve_returns_or_raises junk (initial : list Qc → list complex)
    (dx dt_ : Qc) (xrange trange : Qc * Qc) (b : complex * complex)
    (self : Wavefunction) :
  __init__ junk initial dx dt_ xrange trange b = Ok self →
  (nt self = 1%Z → solve junk self = Ok ((), self))
  ∧ ((3 ≤ nx self)%Z → ∃ self', solve junk self = Ok ((), self'))
  ∧ ((2 ≤ nt self)%Z → (nx self < 3)%Z → solve junk self = Raise IndexError).
Proof.
  intros Hinit.
  destruct (init_counts _ _ _ _ _ _ _ _ Hinit) as (_ & _ & Hnx & Hnt).
  destruct (init_shape _ _ _ _ _ _ _ _ Hinit) as [Sr Si].
  split_and!.
  - intros H1. apply solve_one_row; lia.
  - intros H3.
    pose proof (init_pinned _ _ _ _ _ _ _ _ Hinit ltac:(lia)) as P0.
    destruct (solve_pins junk self Hnt H3 Sr Si P0) as (s0 & E & _).
    by exists s0.
  - intros H2 H3. apply solve_narrow; (done || lia).
Qed.

Lemma solve_returns_or_raises_witness :
  ∃ self,
    __init__ zero_junk example_initial (Q2Qc (1 # 2)) example_dt
      default_xrange default_trange example_boundaries = Ok self
    ∧ (2 ≤ nt self)%Z ∧ (nx self < 3)%Z
    ∧ solve zero_junk self = Raise IndexError.
Proof.
  eexists.
  assert (Hi : __init__ zero_junk example_initial (Q2Qc (1 # 2)) example_dt
                 default_xrange default_trange example_boundaries = Ok _)
    by (vm_compute; reflexivity).
  split; [exact Hi|]. split; [by vm_compute|]. split; [by vm_compute|].
  exact (proj2 (proj2 (solve_returns_or_raises zero_junk example_initial
                         (Q2Qc (1 # 2)) example_dt default_xrange
                         default_trange example_boundaries _ Hi))
           ltac:(by vm_compute) ltac:(by vm_compute)).
Defined.

(** ** Properties of [_setbcs] *)

Lemma pin_row_idem (b0 b1 : Qc) (r : list Qc) :
  pin_row b0 b1 (pin_row b0 b1 r) = pin_row b0 b1 r.
Proof.
  destruct (decide (2 ≤ length r)%nat) as [H2|H2].
  - by apply pin_row_id, pin_row_pinned.
  - destruct r as [|a [|a' r]]; [done | done | cbn in H2; lia].
Qed.

(** X13.  [_setbcs(key)] on a row index of both arrays, with rows that are not
    empty, writes nothing but the first and the last entry of row [key] of
    each array: the last entry holds the second boundary value, the first
    entry the first one unless the row has a single entry, and running it
    again changes nothing. *)
Theorem setbcs_writes_row_ends (self : Wavefunction) (i : nat)
    (r m : list Qc) :
  real self !! i = Some r → imag self !! i = Some m →
  (0 < length r)%nat → (0 < length m)%nat →
  ∃ self' r' m',
    _setbcs (Z.of_nat i) self = Ok ((), self')
    ∧ same_config self self'
    ∧ real self' = <[i := r']> (real self)
    ∧ imag self' = <[i := m']> (imag self)
    ∧ length r' = length r ∧ length m' = length m
    ∧ r' !! (length r - 1)%nat = Some (creal (boundaries self).2)
    ∧ m' !! (length m - 1)%nat = Some (cimag (boundaries self).2)
    ∧ ((2 ≤ length r)%nat → r' !! 0%nat = Some (creal (boundaries self).1))
    ∧ ((2 ≤ length m)%nat → m' !! 0%nat = Some (cimag (boundaries self).1))
    ∧ (∀ c, c ≠ 0%nat → c ≠ (length r - 1)%nat → r' !! c = r !! c)
    ∧ (∀ c, c ≠ 0%nat → c ≠ (length m - 1)%nat → m' !! c = m !! c)
    ∧ _setbcs (Z.of_nat i) self' = Ok ((), self').
Proof.
  intros Hr Hm Lr Lm.
  pose proof (lookup_lt_Some _ _ _ Hr) as Hi.
  pose proof (lookup_lt_Some _ _ _ Hm) as Hi'.
  eexists _, _, _. split; [by apply (setbcs_eval self i r m)|].
  cbn [real imag set_real set_imag].
  split; [by repeat split|]. split; [done|]. split; [done|].
  split; [apply pin_row_length|]. split; [apply pin_row_length|].
  split; [by apply pin_row_last|]. split; [by apply pin_row_last|].
  split; [apply pin_row_first|]. split; [apply pin_row_first|].
  split; [intros c H0 H1; by apply pin_row_inner|].
  split; [intros c H0 H1; by apply pin_row_inner|].
  rewrite (setbcs_eval _ i (pin_row (creal (boundaries self).1)
                              (creal (boundaries self).2) r)
             (pin_row (cimag (boundaries self).1)
                (cimag (boundaries self).2) m)).
  - cbn [real imag set_real set_imag boundaries].
    by rewrite !pin_row_idem, !list_insert_insert_eq.
  - cbn [real imag set_real set_imag]. by apply list_lookup_insert_eq.
  - cbn [real imag set_real set_imag]. by apply list_lookup_insert_eq.
  - by rewrite pin_row_length.
  - by rewrite pin_row_length.
Qed.

Lemma setbcs_writes_row_ends_witness :
  ∃ self',
    real example_self !! 1%nat = Some (Qc_of_Z <$> [7; 7; 7; 7; 7]%Z)
    ∧ imag example_self !! 1%nat = Some (Qc_of_Z <$> [7; 7; 7; 7; 7]%Z)
    ∧ _setbcs 1 example_self = Ok ((), self')
    ∧ real self' !! 1%nat
      = Some [1; Qc_of_Z 7; Qc_of_Z 7; Qc_of_Z 7; 0].
Proof.
  destruct (setbcs_writes_row_ends example_self 1
              (Qc_of_Z <$> [7; 7; 7; 7; 7]%Z) (Qc_of_Z <$> [7; 7; 7; 7; 7]%Z)
              eq_refl eq_refl ltac:(cbn; lia) ltac:(cbn; lia))
    as (self' & r' & m' & E & _ & Er & _ & Lr' & _ & Hl & _ & Hf & _ & Hin
        & _).
  exists self'. split; [reflexivity|]. split; [reflexivity|].
  split; [exact E|].
  rewrite Er. cbn [real example_self insert list_insert].
  f_equal.
  destruct r' as [|a0 [|a1 [|a2 [|a3 [|a4 [|]]]]]]; try discriminate Lr'.
  pose proof (Hf ltac:(cbn; lia)) as H0.
  pose proof (Hin 1%nat ltac:(done) ltac:(done)) as H1.
  pose proof (Hin 2%nat ltac:(done) ltac:(done)) as H2.
  pose proof (Hin 3%nat ltac:(done) ltac:(done)) as H3.
  cbn in H0, H1, H2, H3, Hl.
  injection H0 as ->. injection H1 as ->. injection H2 as ->.
  injection H3 as ->. injection Hl as ->. reflexivity.
Defined.

(** X14.  [_setbcs] raises [IndexError] when [key] is not a row index of the
    arrays, and when the row has no entry. *)
Theorem setbcs_raises (self : Wavefunction) (key : Z) :
  ((key < - Z.of_nat (length (real self))
    ∨ Z.of_nat (length (real self)) ≤ key)%Z →
   _setbcs key self = Raise IndexError)
  ∧ (getitem (real self) key = Ok [] → _setbcs key self = Raise IndexError).
Proof.
  split.
  - intros Hk. unfold _setbcs, c_to_tup, setitem2.
    assert (E : getitem (real self) key = Raise IndexError).
    { unfold getitem, py_index. by rewrite !decide_False by lia. }
    by rewrite E.
  - intros Hrow. unfold _setbcs, c_to_tup, setitem2. by rewrite Hrow.
Qed.

Lemma setbcs_raises_witness :
  (Z.of_nat (length (real example_self)) ≤ 2)%Z
  ∧ _setbcs 2 example_self = Raise IndexError.
Proof.
  assert (H : (Z.of_nat (length (real example_self)) ≤ 2)%Z) by (cbn; lia).
  split; [exact H|].
  exact (proj1 (setbcs_raises example_self 2) (or_intror H)).
Defined.

(** ** Properties of [__init__] *)

Lemma broadcast_to_Ok_iff {A} (m : nat) (v : list A) :
  (∃ v', broadcast_to m v = Ok v') ↔ length v = m ∨ length v = 1%nat.
Proof.
  unfold broadcast_to. split.
  - intros [v' H]. case_decide; [by left|].
    destruct v as [|a [|a' v]]; (done || by right).
  - intros [H|H].
    + exists v. by rewrite decide_True.
    + case_decide; [by eexists|].
      destruct v as [|a [|a' v]]; (done || by eexists).
Qed.

Lemma broadcast_to_singleton {A} (m : nat) (a : A) :
  broadcast_to m [a] = Ok (replicate m a).
Proof.
  unfold broadcast_to. case_decide as H; [|done].
  cbn in H. by subst m.
Qed.

(** X15.  When [__init__] returns, [initial(x)] had one sample per grid point
    or a single sample, and a single sample is broadcast to row 0: every
    entry of row 0 between the two ends holds its real part in [real] and
    its imaginary part in [imag]. *)
Theorem init_broadcasts_initial junk (initial : list Qc → list complex)
    (dx dt_ : Qc) (xrange trange : Qc * Qc) (b : complex * complex)
    (self : Wavefunction) :
  __init__ junk initial dx dt_ xrange trange b = Ok self →
  (length (initial (x self)) = Z.to_nat (nx self)
   ∨ length (initial (x self)) = 1%nat)
  ∧ ∀ z, initial (x self) = [z] →
      ∃ re im,
        real self !! 0%nat = Some re ∧ imag self !! 0%nat = Some im
        ∧ length re = Z.to_nat (nx self) ∧ length im = Z.to_nat (nx self)
        ∧ ∀ c, (0 < c)%nat → (Z.of_nat c + 1 < nx self)%Z →
            re !! c = Some (creal z) ∧ im !! c = Some (cimag z).
Proof.
  intros Hinit.
  destruct (init_inv _ _ _ _ _ _ _ _ Hinit)
    as (Hdx & Hdt & Hnx & Hnt & xs & ts & r0 & m0 & Hxs & Hts & Hr0 & Hm0
        & ->).
  cbn [x nx nt real imag init_value] in *.
  split.
  - destruct (proj1 (broadcast_to_Ok_iff _ _) (ex_intro _ r0 Hr0)) as [L|L];
      unfold np_real in L; rewrite length_fmap in L; auto.
  - intros z Hz. rewrite Hz in Hr0, Hm0.
    unfold np_real, np_imag in Hr0, Hm0. cbn [fmap list_fmap] in Hr0, Hm0.
    rewrite broadcast_to_singleton in Hr0, Hm0.
    injection Hr0 as <-. injection Hm0 as <-.
    eexists _, _.
    split; [apply list_lookup_insert_eq; rewrite length_empty2; lia|].
    split; [apply list_lookup_insert_eq; rewrite length_empty2; lia|].
    split; [by rewrite pin_row_length, length_replicate|].
    split; [by rewrite pin_row_length, length_replicate|].
    intros c Hc0 Hc1.
    rewrite !pin_row_inner by (rewrite ?length_replicate; lia).
    split; apply lookup_replicate_2; lia.
Qed.

Lemma init_broadcasts_initial_witness :
  ∃ self re,
    __init__ zero_junk single_initial example_dx example_dt default_xrange
      default_trange example_boundaries = Ok self
    ∧ real self !! 0%nat = Some re
    ∧ re !! 1%nat = Some (Qc_of_Z 7).
Proof.
  eexists.
  assert (Hi : __init__ zero_junk single_initial example_dx example_dt
                 default_xrange default_trange example_boundaries = Ok _)
    by (vm_compute; reflexivity).
  destruct (proj2 (init_broadcasts_initial zero_junk single_initial
                     example_dx example_dt default_xrange default_trange
                     example_boundaries _ Hi)
              (Complex (Qc_of_Z 7) (Qc_of_Z 3)) eq_refl)
    as (re & im & Hre & _ & _ & _ & Hin).
  exists re. split; [exact Hi|]. split; [exact Hre|].
  exact (proj1 (Hin 1%nat ltac:(lia) ltac:(by vm_compute))).
Defined.

(** X17.  The object [__init__] returns: both arrays have [nt] rows of [nx]
    entries, [shape] is [(nt, nx)], [mu] is [dt/(2*dx**2)], and when
    [initial(x)] has one sample per grid point, row 0 holds its real and
    imaginary parts at every index but the two ends. *)
Theorem init_stores_initial_row junk (initial : list Qc → list complex)
    (dx dt_ : Qc) (xrange trange : Qc * Qc) (b : complex * complex)
    (self : Wavefunction) :
  __init__ junk initial dx dt_ xrange trange b = Ok self →
  has_shape (Z.to_nat (nt self)) (Z.to_nat (nx self)) (real self)
  ∧ has_shape (Z.to_nat (nt self)) (Z.to_nat (nx self)) (imag self)
  ∧ shape self = (nt self, nx self)
  ∧ mu self = dt_ / (2 * (dx * dx))
  ∧ length (x self) = Z.to_nat (nx self)
  ∧ (length (initial (x self)) = Z.to_nat (nx self) →
     ∃ re im,
       real self !! 0%nat = Some re ∧ imag self !! 0%nat = Some im
       ∧ ∀ c z, (0 < c)%nat → (Z.of_nat c + 1 < nx self)%Z →
           initial (x self) !! c = Some z →
           re !! c = Some (creal z) ∧ im !! c = Some (cimag z)).
Proof.
  intros Hinit.
  destruct (init_shape _ _ _ _ _ _ _ _ Hinit) as [Sr Si].
  destruct (init_config _ _ _ _ _ _ _ _ Hinit) as (_ & _ & _ & _ & _ & Hsh).
  destruct (init_inv _ _ _ _ _ _ _ _ Hinit)
    as (Hdx & Hdt & Hnx & Hnt & xs & ts & r0 & m0 & Hxs & Hts & Hr0 & Hm0
        & ->).
  split; [done|]. split; [done|]. split; [done|].
  cbn [mu x nx nt real imag init_value] in *.
  split; [done|].
  split; [eapply linspace_length; [|exact Hxs]; lia|].
  intros Hlen.
  rewrite broadcast_to_same in Hr0
    by (unfold np_real; by rewrite length_fmap).
  rewrite broadcast_to_same in Hm0
    by (unfold np_imag; by rewrite length_fmap).
  injection Hr0 as <-. injection Hm0 as <-.
  eexists _, _.
  split; [apply list_lookup_insert_eq; rewrite length_empty2; lia|].
  split; [apply list_lookup_insert_eq; rewrite length_empty2; lia|].
  intros c z Hc0 Hc1 Hz.
  rewrite !pin_row_inner
    by (unfold np_real, np_imag; rewrite ?length_fmap, ?Hlen; lia).
  unfold np_real, np_imag. rewrite !list_lookup_fmap, Hz. done.
Qed.

Lemma init_stores_initial_row_witness :
  ∃ self,
    __init__ zero_junk example_initial example_dx example_dt default_xrange
      default_trange example_boundaries = Ok self
    ∧ has_shape (Z.to_nat (nt self)) (Z.to_nat (nx self)) (real self)
    ∧ mu self = example_dt / (2 * (example_dx * example_dx)).
Proof.
  eexists.
  assert (Hi : __init__ zero_junk example_initial example_dx example_dt
                 default_xrange default_trange example_boundaries = Ok _)
    by (vm_compute; reflexivity).
  destruct (init_stores_initial_row zero_junk example_initial example_dx
              example_dt default_xrange default_trange example_boundaries _
              Hi) as (Sr & _ & _ & Hmu & _).
  split; [exact Hi|]. split; [exact Sr | exact Hmu].
Defined.

(** X18.  The time axis [t] has [nt] entries, and they are taken from
    [xrange], not from [trange]: [t[k]] is
    [xrange[0] + k*(xrange[1] - xrange[0])/(nt - 1)] when [nt >= 2], and
    [t] is [[xrange[0]]] when [nt = 1]. *)
Theorem time_axis_spans_xrange junk (initial : list Qc → list complex)
    (dx dt_ : Qc) (xrange trange : Qc * Qc) (b : complex * complex)
    (self : Wavefunction) :
  __init__ junk initial dx dt_ xrange trange b = Ok self →
  length (t self) = Z.to_nat (nt self)
  ∧ ((2 ≤ nt self)%Z →
     ∀ k : nat, (Z.of_nat k < nt self)%Z →
       t self !! k
       = Some (xrange.1 + Qc_of_Z (Z.of_nat k) * (xrange.2 - xrange.1)
                          / Qc_of_Z (nt self - 1)))
  ∧ (nt self = 1%Z → t self = [xrange.1]).
Proof.
  intros Hinit.
  destruct (init_counts _ _ _ _ _ _ _ _ Hinit) as (_ & _ & Hnx & Hnt).
  destruct (init_axes _ _ _ _ _ _ _ _ Hinit) as [_ Ht].
  split_and!.
  - eapply linspace_length; [|exact Ht]. lia.
  - intros H2 k Hk. apply linspace_lookup; (done || lia).
  - intros H1. rewrite H1, linspace_one in Ht. by injection Ht.
Qed.

Lemma time_axis_spans_xrange_witness :
  ∃ self,
    __init__ zero_junk example_initial example_dx example_dt default_xrange
      example_long_trange example_boundaries = Ok self
    ∧ length (t self) = 3%nat
    ∧ t self !! 2%nat = Some 1.
Proof.
  eexists.
  assert (Hi : __init__ zero_junk example_initial example_dx example_dt
                 default_xrange example_long_trange example_boundaries = Ok _)
    by (vm_compute; reflexivity).
  destruct (time_axis_spans_xrange zero_junk example_initial example_dx
              example_dt default_xrange example_long_trange example_boundaries _
              Hi) as (Hl & Hk & _).
  split; [exact Hi|]. split; [exact Hl|].
  rewrite (Hk ltac:(by vm_compute) 2%nat ltac:(by vm_compute)).
  f_equal; try (apply Qc_is_canon; reflexivity).
Defined.

(** ** Properties of [prob] *)

(** X19.  [prob] accepts the row indices [-nt..nt-1]: a negative index counts
    rows from the last one, and any other index raises [IndexError]. *)
Theorem prob_row_indexing (self : Wavefunction) (n w : nat) (i : Z) :
  has_shape n w (real self) → has_shape n w (imag self) →
  ((- Z.of_nat n ≤ i < 0)%Z → prob i self = prob (i + Z.of_nat n) self)
  ∧ ((0 ≤ i < Z.of_nat n ∨ - Z.of_nat n ≤ i < 0)%Z →
     ∃ p, prob i self = Ok (p, self) ∧ length p = w)
  ∧ ((i < - Z.of_nat n ∨ Z.of_nat n ≤ i)%Z → prob i self = Raise IndexError).
Proof.
  intros Sr Si.
  pose proof (proj1 Sr) as Nr. pose proof (proj1 Si) as Ni.
  assert (Hwrap : (- Z.of_nat n ≤ i < 0)%Z →
                  prob i self = prob (i + Z.of_nat n) self).
  { intros Hi. unfold prob, getitem, py_index. rewrite Nr, Ni.
    rewrite (decide_False (P := (0 ≤ i < Z.of_nat n)%Z)) by lia.
    rewrite (decide_True (P := (- Z.of_nat n ≤ i < 0)%Z)) by lia.
    rewrite (decide_True (P := (0 ≤ i + Z.of_nat n < Z.of_nat n)%Z)) by lia.
    by replace (Z.of_nat n + i)%Z with (i + Z.of_nat n)%Z by lia. }
  assert (Hrow : ∀ k : nat, (k < n)%nat →
                 ∃ p, prob (Z.of_nat k) self = Ok (p, self) ∧ length p = w).
  { intros k Hk.
    destruct (has_shape_lookup _ _ _ k Sr) as (re & Hre & Lre); [lia|].
    destruct (has_shape_lookup _ _ _ k Si) as (im & Him & Lim); [lia|].
    eexists. split; [apply (prob_eval self k re im); congruence|].
    rewrite length_zip_with. lia. }
  split_and!.
  - exact Hwrap.
  - intros [Hi|Hi].
    + rewrite <- (Z2Nat.id i) by lia. apply Hrow. lia.
    + rewrite Hwrap by done.
      rewrite <- (Z2Nat.id (i + Z.of_nat n)) by lia. apply Hrow. lia.
  - intros Hi. apply prob_out_of_range. rewrite Nr. lia.
Qed.

Lemma prob_row_indexing_witness :
  has_shape 2 5 (real example_self) ∧ has_shape 2 5 (imag example_self)
  ∧ prob (-1) example_self = prob 1 example_self
  ∧ prob 2 example_self = Raise IndexError.
Proof.
  assert (Sr : has_shape 2 5 (real example_self))
    by (split; [reflexivity | repeat constructor]).
  assert (Si : has_shape 2 5 (imag example_self))
    by (split; [reflexivity | repeat constructor]).
  split; [exact Sr|]. split; [exact Si|].
  split.
  - exact (proj1 (prob_row_indexing example_self 2 5 (-1) Sr Si)
             ltac:(lia)).
  - exact (proj2 (proj2 (prob_row_indexing example_self 2 5 2 Sr Si))
             ltac:(lia)).
Defined.

(** ** Linearity of [deriv] *)

Lemma deriv4_lookup junk (self : Wavefunction) (psi : list Qc) (j : nat) :
  (3 ≤ length psi)%nat → (j < length psi)%nat →
  deriv4 junk self psi !! j = Some (entry4 psi j / dx2 self).
Proof.
  intros Hn Hj.
  pose proof (length_np_empty_like junk psi) as L0.
  unfold deriv4, vdiv, entry4. rewrite list_lookup_fmap.
  destruct (decide (j = 0%nat)) as [->|Hf].
  { rewrite decide_True by (by left). by rewrite df_dirichlet_first. }
  destruct (decide (j = (length psi - 1)%nat)) as [->|Hl].
  { rewrite decide_True by (by right). by rewrite df_dirichlet_last. }
  rewrite decide_False by (intros [?|?]; done).
  destruct (decide (j = 1%nat)) as [->|H1].
  { by rewrite df_dirichlet_near_left. }
  destruct (decide (j = (length psi - 2)%nat)) as [->|H2].
  { by rewrite df_dirichlet_near_right. }
  by rewrite df_dirichlet_inner by (done || lia).
Qed.

Lemma deriv4_eq junk (self : Wavefunction) (psi d : list Qc) :
  (3 ≤ length psi)%nat → length d = length psi →
  (∀ j, (j < length psi)%nat → d !! j = Some (entry4 psi j / dx2 self)) →
  deriv4 junk self psi = d.
Proof.
  intros Hn Ld Hd. apply list_eq. intros j.
  destruct (decide (j < length psi)%nat) as [Hj|Hj].
  - by rewrite deriv4_lookup, Hd.
  - rewrite !lookup_ge_None_2; [done | lia | rewrite length_deriv4; lia].
Qed.

Lemma lookup_total_combination (a b : Qc) (psi phi : list Qc) (k : nat) :
  length phi = length psi → (k < length psi)%nat →
  vplus (vscale a psi) (vscale b phi) !!! k
  = a * psi !!! k + b * phi !!! k.
Proof.
  intros Hl Hk. apply list_lookup_total_correct. unfold vplus, vscale.
  apply lookup_zip_with_both; rewrite list_lookup_fmap;
    (rewrite list_lookup_lookup_total_lt by lia); done.
Qed.

Lemma length_combination (a b : Qc) (psi phi : list Qc) :
  length phi = length psi →
  length (vplus (vscale a psi) (vscale b phi)) = length psi.
Proof. intros Hl. rewrite length_vplus; rewrite !length_vscale; done. Qed.

Lemma entry4_linear (a b : Qc) (psi phi : list Qc) (j : nat) :
  (3 ≤ length psi)%nat → length phi = length psi → (j < length psi)%nat →
  entry4 (vplus (vscale a psi) (vscale b phi)) j
  = a * entry4 psi j + b * entry4 phi j.
Proof.
  intros Hn Hl Hj. unfold entry4.
  rewrite length_combination, Hl by done.
  repeat case_decide.
  - ring.
  - rewrite !lookup_total_combination by (done || lia). ring.
  - rewrite !lookup_total_combination by (done || lia). ring.
  - rewrite !lookup_total_combination by (done || lia).
    unfold Qcdiv. ring.
Qed.

(** X7.  [deriv] with its default arguments is linear in its input. *)
Theorem deriv_is_linear junk (self : Wavefunction) (a b : Qc)
    (psi phi : list Qc) :
  (3 ≤ length psi)%nat → length phi = length psi → dx2 self ≠ 0 →
  ∃ d1 d2,
    deriv junk self psi 4 true = Ok d1
    ∧ deriv junk self phi 4 true = Ok d2
    ∧ deriv junk self (vplus (vscale a psi) (vscale b phi)) 4 true
      = Ok (vplus (vscale a d1) (vscale b d2)).
Proof.
  intros Hn Hl Hdx.
  exists (deriv4 junk self psi), (deriv4 junk self phi).
  split; [by apply deriv4_code|]. split; [apply deriv4_code; lia|].
  pose proof (length_combination a b psi phi Hl) as Lc.
  rewrite deriv4_code by lia. f_equal.
  apply deriv4_eq; [lia | |].
  - rewrite length_combination; rewrite !length_deriv4; lia.
  - rewrite Lc. intros j Hj.
    rewrite entry4_linear by done.
    unfold vplus at 1. unfold vscale at 1 2.
    erewrite lookup_zip_with_both;
      [|rewrite list_lookup_fmap, deriv4_lookup by lia; reflexivity
       |rewrite list_lookup_fmap, deriv4_lookup by lia; reflexivity].
    f_equal. unfold Qcdiv. ring.
Qed.

Lemma deriv_is_linear_witness :
  (3 ≤ length example_psi)%nat
  ∧ length (replicate 6 (1 : Qc)) = length example_psi
  ∧ dx2 example_self ≠ 0
  ∧ ∃ d1 d2,
      deriv zero_junk example_self example_psi 4 true = Ok d1
      ∧ deriv zero_junk example_self (replicate 6 1) 4 true = Ok d2
      ∧ deriv zero_junk example_self
          (vplus (vscale 2 example_psi) (vscale 1 (replicate 6 1))) 4 true
        = Ok (vplus (vscale 2 d1) (vscale 1 d2)).
Proof.
  assert (H3 : (3 ≤ length example_psi)%nat) by (cbn; lia).
  assert (Hl : length (replicate 6 (1 : Qc)) = length example_psi)
    by reflexivity.
  assert (Hd : dx2 example_self ≠ 0) by (by intros H%(f_equal this)).
  split; [exact H3|]. split; [exact Hl|]. split; [exact Hd|].
  exact (deriv_is_linear zero_junk example_self 2 1 example_psi
           (replicate 6 1) H3 Hl Hd).
Defined.
